(** * Mute backend: session buffer, model pool and interval protocol

    A shallow embedding of the orchestration code of [backend/main.py]
    (classes [ClientSession] and [MuteServer]), of the two pure helpers of
    [backend/diarization_engine.py] and of the engine classes of
    [backend/asr_engine.py] and [backend/whisper_engine.py], together with
    the properties the specification states about them and further
    properties of the code.

    Conventions of the embedding.
    - A Python [int] is a [Z]; [len] is [Z.of_nat (length _)].
    - A Python [float] that holds a time in seconds is a rational ([Q]),
      and [int(x)] is the truncation toward zero.  The rationals follow the
      doubles of the code where no rounding occurs: at the constants the
      server uses (the 2 s of context, the 3 s threshold, the 1.5 s of the
      context skip) and at durations that are a whole number of samples.
      Properties of [keep_audio_tail] at other durations are stated on the
      number of samples it keeps, not on seconds.
    - A numpy array of samples is a [list sample]; a sample is the rational
      value of the float32 it holds.  The code never inspects a sample.
    - [dict]s whose iteration order is observed are association lists;
      [dict]s and [set]s that are only looked up are [gmap]s and [gset]s.
    - Handlers are state-passing functions.  [await websocket.send(..)] is
      an append to an outbox and is assumed to succeed; the session lock is
      assumed free when a handler is dispatched. *)

From Stdlib Require Import ZArith QArith Qround Qminmax Lia Lqa Ascii String.
From stdpp Require Import base list strings gmap sets sorting pretty.

Local Open Scope Z_scope.

(** ** Python primitives used by the code *)

Definition sample : Type := Q.

(** [len(a)] *)
Definition py_len {A} (l : list A) : Z := Z.of_nat (length l).

(** [int(x)] on a float: truncation toward zero. *)
Definition py_int (x : Q) : Z := Z.quot (Qnum x) (Z.pos (Qden x)).

(** [a[i:]] on a sequence: a negative [i] counts from the end and is
    clamped at the start, a non-negative one is clamped at the end. *)
Definition py_slice_from {A} (i : Z) (l : list A) : list A :=
  let n := py_len l in
  let start := if i <? 0 then Z.max (n + i) 0 else Z.min i n in
  drop (Z.to_nat start) l.

(** [a < b] on floats, from [Qle_bool]. *)
Definition Qlt_bool (a b : Q) : bool := negb (Qle_bool b a).

(** An [asyncio.Task]: pending, asked to cancel and not yet finished, or
    finished.  [task.done()] holds of a finished task only. *)
Inductive task := TaskPending | TaskCancelling | TaskDone.

Definition task_done (t : task) : bool :=
  match t with TaskDone => true | _ => false end.

Definition task_cancel (t : task) : task :=
  match t with TaskPending => TaskCancelling | _ => t end.

(** ** [class ClientSession] *)

Module ClientSession.

Definition MAX_BUFFER_SECONDS : Z := 300.
Definition MAX_BUFFER_SAMPLES : Z := 16000 * MAX_BUFFER_SECONDS.

(** The mutable fields of a session.  [active_engine] is a reference
    (an object identity) into the store of engine objects.  The fields
    [websocket], [server], [session_id], [current_settings],
    [_last_log_second] and [lock] play no part in the modelled methods. *)
Record t := mk {
  is_recording : bool;
  audio_chunks : list (list sample);
  total_samples : Z;
  continuous_mode : bool;
  last_partial_text : string;
  active_engine : option nat;
  active_model : option string;
  has_done_first_interval : bool;
  diarization_enabled : bool;
  audio_watchdog_task : option task;
  first_audio_received : bool
}.

(** [ClientSession.__init__] *)
Definition init : t :=
  {| is_recording := false; audio_chunks := []; total_samples := 0;
     continuous_mode := false; last_partial_text := "";
     active_engine := None; active_model := None;
     has_done_first_interval := false; diarization_enabled := false;
     audio_watchdog_task := None; first_audio_received := false |}.

(** Field updates. *)
Definition set_audio (s : t) (chunks : list (list sample)) (total : Z) : t :=
  {| is_recording := is_recording s; audio_chunks := chunks;
     total_samples := total; continuous_mode := continuous_mode s;
     last_partial_text := last_partial_text s;
     active_engine := active_engine s; active_model := active_model s;
     has_done_first_interval := has_done_first_interval s;
     diarization_enabled := diarization_enabled s;
     audio_watchdog_task := audio_watchdog_task s;
     first_audio_received := first_audio_received s |}.

Definition set_is_recording (s : t) (b : bool) : t :=
  {| is_recording := b; audio_chunks := audio_chunks s;
     total_samples := total_samples s; continuous_mode := continuous_mode s;
     last_partial_text := last_partial_text s;
     active_engine := active_engine s; active_model := active_model s;
     has_done_first_interval := has_done_first_interval s;
     diarization_enabled := diarization_enabled s;
     audio_watchdog_task := audio_watchdog_task s;
     first_audio_received := first_audio_received s |}.

Definition set_has_done_first_interval (s : t) (b : bool) : t :=
  {| is_recording := is_recording s; audio_chunks := audio_chunks s;
     total_samples := total_samples s; continuous_mode := continuous_mode s;
     last_partial_text := last_partial_text s;
     active_engine := active_engine s; active_model := active_model s;
     has_done_first_interval := b;
     diarization_enabled := diarization_enabled s;
     audio_watchdog_task := audio_watchdog_task s;
     first_audio_received := first_audio_received s |}.

Definition set_audio_watchdog_task (s : t) (k : option task) : t :=
  {| is_recording := is_recording s; audio_chunks := audio_chunks s;
     total_samples := total_samples s; continuous_mode := continuous_mode s;
     last_partial_text := last_partial_text s;
     active_engine := active_engine s; active_model := active_model s;
     has_done_first_interval := has_done_first_interval s;
     diarization_enabled := diarization_enabled s;
     audio_watchdog_task := k;
     first_audio_received := first_audio_received s |}.

(** [add_audio]: the new session and the returned boolean. *)
Definition add_audio (s : t) (audio_samples : list sample) : t * bool :=
  let new_total := total_samples s + py_len audio_samples in
  if MAX_BUFFER_SAMPLES <? new_total then (s, false)
  else (set_audio s (audio_chunks s ++ [audio_samples]) new_total, true).

(** [get_audio_array]: [np.concatenate] of the chunks, the empty array
    when there is none. *)
Definition get_audio_array (s : t) : list sample :=
  match audio_chunks s with
  | [] => []
  | chunks => concat chunks
  end.

(** [clear_audio] *)
Definition clear_audio (s : t) : t := set_audio s [] 0.

(** [keep_audio_tail].  The product [16000 * seconds] is exact here and
    rounded to a double in the code; the two agree when it is a whole
    number below 2^53, as for the 2 s the server passes. *)
Definition keep_audio_tail (s : t) (seconds : Q) : t :=
  let samples_to_keep := py_int (16000 * seconds) in
  if total_samples s <=? samples_to_keep then s
  else
    let full_audio := get_audio_array s in
    let tail_audio := py_slice_from (- samples_to_keep) full_audio in
    set_audio s [tail_audio] (py_len tail_audio).

(** [get_buffer_seconds]: the exact quotient, which the code rounds to a
    double.  Rounding keeps the order against a double, so the comparison
    with the 3 s threshold is the same on both. *)
Definition get_buffer_seconds (s : t) : Q := inject_Z (total_samples s) / 16000.

(** A call of one of the three buffer methods, and a run of calls. *)
Inductive op :=
| AddAudio (audio_samples : list sample)
| ClearAudio
| KeepAudioTail (seconds : Q).

Definition step (s : t) (o : op) : t :=
  match o with
  | AddAudio a => fst (add_audio s a)
  | ClearAudio => clear_audio s
  | KeepAudioTail sec => keep_audio_tail s sec
  end.

Definition run (s : t) (ops : list op) : t := foldl step s ops.

(** A run of [add_audio] calls, with the boolean each call returned. *)
Fixpoint add_all (s : t) (chunks : list (list sample)) : t * list bool :=
  match chunks with
  | [] => (s, [])
  | c :: cs =>
      let '(s1, ok) := add_audio s c in
      let '(s2, oks) := add_all s1 cs in
      (s2, ok :: oks)
  end.

(** The chunks of a run that were accepted, in order. *)
Fixpoint accepted (chunks : list (list sample)) (oks : list bool)
  : list (list sample) :=
  match chunks, oks with
  | c :: cs, ok :: oks' => if ok then c :: accepted cs oks' else accepted cs oks'
  | _, _ => []
  end.

(** Sum of the lengths of the stored arrays. *)
Definition stored_samples (chunks : list (list sample)) : Z :=
  foldr (fun c acc => py_len c + acc) 0 chunks.

End ClientSession.

(** ** Strings *)

(** [str.isspace] on an ASCII character: tab, line feed, vertical tab, form
    feed, carriage return, the four separators 0x1c-0x1f and the space.
    Text is a byte string here, so the whitespace outside ASCII that Python
    also strips is not recognised. *)
Definition py_isspace (c : ascii) : bool :=
  let n := N_of_ascii c in
  ((9 <=? n)%N && (n <=? 13)%N) || ((28 <=? n)%N && (n <=? 32)%N).

Fixpoint lstrip_chars (l : list ascii) : list ascii :=
  match l with
  | c :: l' => if py_isspace c then lstrip_chars l' else l
  | [] => []
  end.

(** [s.strip()] *)
Definition py_strip (s : string) : string :=
  string_of_list_ascii
    (rev (lstrip_chars (rev (lstrip_chars (list_ascii_of_string s))))).

(** [sep.join(parts)] *)
Definition py_join (sep : string) (parts : list string) : string :=
  String.concat sep parts.

(** Truthiness of a [str]. *)
Definition str_truthy (s : string) : bool :=
  match s with EmptyString => false | _ => true end.

(** ["\n"] *)
Definition newline : string := String (ascii_of_nat 10) EmptyString.

(** ** [class DiarizationEngine]: the two pure helpers *)

Module DiarizationEngine.

(** A word dict as [WhisperEngine._transcribe_with_timestamps_sync] builds
    it, with the keys ["word"], ["start"] and ["end"] always present, and
    the key ["speaker"] that [assign_speakers_to_words] adds. *)
Record Word := mkWord {
  word : string;
  start : Q;
  end_ : Q;
  speaker : option string
}.

(** A speaker segment dict as [diarize_sync] builds it. *)
Record Segment := mkSegment {
  seg_speaker : string;
  seg_start : Q;
  seg_end : Q
}.

(** [w2 = w.copy(); w2["speaker"] = label] *)
Definition with_speaker (w : Word) (label : string) : Word :=
  {| word := word w; start := start w; end_ := end_ w; speaker := Some label |}.

(** Python's [max(a, b)] and [min(a, b)]: the first argument unless the
    second is strictly beyond it. *)
Definition py_max (a b : Q) : Q := if Qlt_bool a b then b else a.
Definition py_min (a b : Q) : Q := if Qlt_bool b a then b else a.

Definition word_mid (w : Word) : Q := (start w + end_ w) / 2.

(** [seg_start <= word_mid <= seg_end] *)
Definition contains_mid (w : Word) (seg : Segment) : bool :=
  Qle_bool (seg_start seg) (word_mid w) && Qle_bool (word_mid w) (seg_end seg).

(** [max(0, min(word_end, seg_end) - max(word_start, seg_start))] *)
Definition overlap (w : Word) (seg : Segment) : Q :=
  let overlap_start := py_max (start w) (seg_start seg) in
  let overlap_end := py_min (end_ w) (seg_end seg) in
  py_max 0 (overlap_end - overlap_start).

(** The inner [for seg in segments] loop, from the state
    ([assigned_speaker], [max_overlap]) it has reached. *)
Fixpoint scan_segments (w : Word) (segments : list Segment)
    (assigned_speaker : option string) (max_overlap : Q) : option string :=
  match segments with
  | [] => assigned_speaker
  | seg :: rest =>
      if contains_mid w seg then Some (seg_speaker seg)
      else if Qlt_bool max_overlap (overlap w seg)
           then scan_segments w rest (Some (seg_speaker seg)) (overlap w seg)
           else scan_segments w rest assigned_speaker max_overlap
  end.

(** [assigned_speaker or "Unknown"] *)
Definition or_unknown (assigned_speaker : option string) : string :=
  match assigned_speaker with
  | Some label => if str_truthy label then label else "Unknown"
  | None => "Unknown"
  end.

(** The label one word receives against a non-empty list of segments. *)
Definition assign_speaker (segments : list Segment) (w : Word) : string :=
  or_unknown (scan_segments w segments None 0).

(** [assign_speakers_to_words] *)
Definition assign_speakers_to_words (words : list Word)
    (segments : list Segment) : list Word :=
  match segments with
  | [] => words
  | _ => map (fun w => with_speaker w (assign_speaker segments w)) words
  end.

(** [sorted(set(speakers))].  Python orders [str] by code point, which on
    UTF-8 byte strings is the byte order [String.le]; the labels being
    distinct, the sorted list does not depend on the sorting algorithm. *)
Definition unique_speakers (speakers : list string) : list string :=
  merge_sort String.le (elements (list_to_set speakers : gset string)).

(** [f"Speaker {i+1}"] *)
Definition speaker_name (i : nat) : string := "Speaker " +:+ pretty (S i).

(** [format_speakers] *)
Definition format_speakers (speakers : list string) : gmap string string :=
  list_to_map (imap (fun i label => (label, speaker_name i)) (unique_speakers speakers)).

(** How many distinct labels of the input come strictly before [label] in
    the order of [sorted]. *)
Definition labels_below (speakers : list string) (label : string) : nat :=
  length (filter (fun x => x <> label /\ String.le x label) (remove_dups speakers)).

(** The mapping the specification describes: ordinal names by first-seen
    order of the input list, each label at the place of its first
    occurrence.  It follows the specification's words, not the code, and
    serves only to compare the two. *)
Definition first_seen (speakers : list string) : list string :=
  foldl (fun seen label =>
           if bool_decide (label ∈ seen) then seen else seen ++ [label])
        [] speakers.

Definition format_speakers_first_seen (speakers : list string)
    : gmap string string :=
  list_to_map (imap (fun i label => (label, speaker_name i)) (first_seen speakers)).

End DiarizationEngine.

(** ** The engine interface

    [ASREngine] and [WhisperEngine] are external.  The server uses them
    through the methods below; a call returns the engine object as the call
    left it, and either a value or the exception it raised. *)

Inductive outcome (A : Type) :=
| Ok (a : A)
| Raise (msg : string).
Arguments Ok {A} a.
Arguments Raise {A} msg.

(** The dict [transcribe_with_timestamps] returns: keys ["text"] and
    ["words"]. *)
Record TimestampResult := mkTimestampResult {
  ts_text : string;
  ts_words : list DiarizationEngine.Word
}.

Class EngineHandle (engine : Type) := {
  is_loaded : engine -> bool;
  start_session : engine -> engine;
  end_session : engine -> engine;
  last_transcription : engine -> string;
  transcribe_final : engine -> list sample -> engine * outcome string;
  (** [hasattr(engine, 'transcribe_with_timestamps')] *)
  has_transcribe_with_timestamps : engine -> bool;
  transcribe_with_timestamps :
    engine -> list sample -> engine * outcome TimestampResult;
  (** [hasattr(engine, 'unload')] *)
  has_unload : engine -> bool;
  unload : engine -> engine * outcome unit
}.

(** A method invoked on an engine object, as recorded in the call log. *)
Inductive engine_call :=
| CallEndSession
| CallTranscribeFinal (audio : list sample)
| CallTranscribeWithTimestamps (audio : list sample)
| CallUnload.

Definition is_transcription_call (c : engine_call) : bool :=
  match c with
  | CallTranscribeFinal _ | CallTranscribeWithTimestamps _ => true
  | _ => false
  end.

(** The diarization engine object held by the server: its [is_loaded] flag
    and what its pipeline answers ([diarize_sync] returns the empty list on
    any failure and never raises). *)
Record Diarizer := mkDiarizer {
  dz_is_loaded : bool;
  dz_diarize_sync : list sample -> list DiarizationEngine.Segment
}.

(** ** Messages: the dict handed to [json.dumps] *)

Inductive json :=
| JNull
| JBool (b : bool)
| JInt (z : Z)
| JStr (s : string)
| JStrs (l : list string).

Definition message : Type := list (string * json).

(** A [str] or [None] as a JSON value. *)
Definition json_opt_str (o : option string) : json :=
  match o with Some s => JStr s | None => JNull end.

(** [msg[key]], when the key is present. *)
Fixpoint msg_get (key : string) (m : message) : option json :=
  match m with
  | [] => None
  | (k, v) :: m' => if String.eqb k key then Some v else msg_get key m'
  end.

(** ** Insertion-ordered dicts keyed by strings *)

Fixpoint dict_get {V} (k : string) (d : list (string * V)) : option V :=
  match d with
  | [] => None
  | (k', v) :: d' => if String.eqb k' k then Some v else dict_get k d'
  end.

(** [d[k] = v]: in place when the key is present, at the end otherwise. *)
Fixpoint dict_set {V} (k : string) (v : V) (d : list (string * V))
    : list (string * V) :=
  match d with
  | [] => [(k, v)]
  | (k', v') :: d' =>
      if String.eqb k' k then (k, v) :: d' else (k', v') :: dict_set k v d'
  end.

(** [del d[k]] *)
Fixpoint dict_del {V} (k : string) (d : list (string * V))
    : list (string * V) :=
  match d with
  | [] => []
  | (k', v') :: d' =>
      if String.eqb k' k then dict_del k d' else (k', v') :: dict_del k d'
  end.

Definition dict_keys {V} (d : list (string * V)) : list string := map fst d.

(** ** [class MuteServer] *)

Module MuteServer.

Import DiarizationEngine.

Definition MODEL_PARAKEET : string := "parakeet".
Definition WHISPER_MODELS : list string := ["base"; "large-v3-turbo"].

(** Float seconds, or [float('inf')]. *)
Inductive duration_seconds :=
| Seconds (n : Z)
| Infinite.

(** [_get_duration_seconds] *)
Definition _get_duration_seconds (duration : string) : duration_seconds :=
  if String.eqb duration "1h" then Seconds 3600
  else if String.eqb duration "4h" then Seconds 14400
  else if String.eqb duration "8h" then Seconds 28800
  else if String.eqb duration "16h" then Seconds 57600
  else if String.eqb duration "permanent" then Infinite
  else Seconds 14400.

(** [idle_time > duration_seconds] *)
Definition exceeds (idle_time : Q) (d : duration_seconds) : bool :=
  match d with
  | Seconds n => Qlt_bool (inject_Z n) idle_time
  | Infinite => false
  end.

(** [_format_with_speakers]: the loop state is the [result] list, joined,
    and [current_speaker]. *)
Definition format_step (st : string * option string) (word_info : Word)
    : string * option string :=
  let '(result, current_speaker) := st in
  let speaker := default "Unknown" (speaker word_info) in
  let result :=
    if bool_decide (Some speaker = current_speaker) then result
    else
      (match current_speaker with
       | Some _ => result +:+ newline
       | None => result
       end) +:+ speaker +:+ ": " in
  (result +:+ word word_info +:+ " ", Some speaker).

Definition _format_with_speakers (words : list Word) : string :=
  match words with
  | [] => ""
  | _ => py_strip (fst (foldl format_step ("", None) words))
  end.

(** The context window of the interval protocol, in seconds. *)
Definition context_seconds : Q := 2.

(** The context skip of [handle_transcribe_interval]:
    [[w for w in words if w["start"] >= context_seconds - 0.5]], applied
    once the session has done its first interval. *)
Definition context_skip (has_done_first_interval : bool) (words : list Word)
    : list Word :=
  match has_done_first_interval, words with
  | true, _ :: _ =>
      List.filter (fun w => Qle_bool (context_seconds - (1 # 2)) (start w)) words
  | _, _ => words
  end.

Section Server.

Context {engine : Type} `{EngineHandle engine}.

(** The server object, the store of engine objects its references point
    into, and what it has done to the outside: messages sent, by websocket,
    and methods invoked on engines, by reference. *)
Record t := mk {
  engines : list (string * nat);
  default_model : string;
  loaded_models : gset string;
  diarization_engine : option Diarizer;
  keep_warm_enabled : bool;
  keep_warm_models : gset string;
  keep_warm_duration : string;
  last_inference_time : gmap string Q;
  clients : list nat;
  heap : nat -> engine;
  next_ref : nat;
  sent : list (nat * message);
  calls : list (nat * engine_call)
}.

(** [MuteServer.__init__], over a store [h] with no engine in use. *)
Definition init (h : nat -> engine) : t :=
  {| engines := []; default_model := MODEL_PARAKEET; loaded_models := ∅;
     diarization_engine := None; keep_warm_enabled := false;
     keep_warm_models := ∅; keep_warm_duration := "4h";
     last_inference_time := ∅; clients := []; heap := h; next_ref := 0%nat;
     sent := []; calls := [] |}.

(** Field updates. *)
Definition set_pool (w : t) (e : list (string * nat)) (d : string)
    (l : gset string) (i : gmap string Q) : t :=
  {| engines := e; default_model := d; loaded_models := l;
     diarization_engine := diarization_engine w;
     keep_warm_enabled := keep_warm_enabled w;
     keep_warm_models := keep_warm_models w;
     keep_warm_duration := keep_warm_duration w;
     last_inference_time := i; clients := clients w; heap := heap w;
     next_ref := next_ref w; sent := sent w; calls := calls w |}.

Definition set_store (w : t) (h : nat -> engine) (n : nat)
    (c : list (nat * engine_call)) : t :=
  {| engines := engines w; default_model := default_model w;
     loaded_models := loaded_models w;
     diarization_engine := diarization_engine w;
     keep_warm_enabled := keep_warm_enabled w;
     keep_warm_models := keep_warm_models w;
     keep_warm_duration := keep_warm_duration w;
     last_inference_time := last_inference_time w; clients := clients w;
     heap := h; next_ref := n; sent := sent w; calls := c |}.

Definition set_sent (w : t) (s : list (nat * message)) : t :=
  {| engines := engines w; default_model := default_model w;
     loaded_models := loaded_models w;
     diarization_engine := diarization_engine w;
     keep_warm_enabled := keep_warm_enabled w;
     keep_warm_models := keep_warm_models w;
     keep_warm_duration := keep_warm_duration w;
     last_inference_time := last_inference_time w; clients := clients w;
     heap := heap w; next_ref := next_ref w; sent := s; calls := calls w |}.

Definition set_keep_warm (w : t) (enabled : bool) (models : gset string)
    (duration : string) : t :=
  {| engines := engines w; default_model := default_model w;
     loaded_models := loaded_models w;
     diarization_engine := diarization_engine w;
     keep_warm_enabled := enabled; keep_warm_models := models;
     keep_warm_duration := duration;
     last_inference_time := last_inference_time w; clients := clients w;
     heap := heap w; next_ref := next_ref w; sent := sent w;
     calls := calls w |}.

(** [await websocket.send(json.dumps(msg))] *)
Definition send (websocket : nat) (msg : message) (w : t) : t :=
  set_sent w (sent w ++ [(websocket, msg)]).

(** [send_error] *)
Definition send_error (websocket : nat) (msg : string) (w : t) : t :=
  send websocket [("type", JStr "error"); ("message", JStr msg)] w.

(** The object behind a reference after a call, and the call logged. *)
Definition after_call (r : nat) (e : engine) (c : engine_call) (w : t) : t :=
  set_store w (fun r' => if Nat.eqb r' r then e else heap w r') (next_ref w)
    (calls w ++ [(r, c)]).

Definition call_transcribe_final (r : nat) (audio : list sample) (w : t)
    : t * outcome string :=
  let '(e, res) := transcribe_final (heap w r) audio in
  (after_call r e (CallTranscribeFinal audio) w, res).

Definition call_transcribe_with_timestamps (r : nat) (audio : list sample)
    (w : t) : t * outcome TimestampResult :=
  let '(e, res) := transcribe_with_timestamps (heap w r) audio in
  (after_call r e (CallTranscribeWithTimestamps audio) w, res).

Definition call_end_session (r : nat) (w : t) : t :=
  after_call r (end_session (heap w r)) CallEndSession w.

Definition call_unload (r : nat) (w : t) : t * outcome unit :=
  let '(e, res) := unload (heap w r) in
  (after_call r e CallUnload w, res).

(** [self.last_inference_time[session.active_model] = time.time()], under
    [if session.active_model:]. *)
Definition touch_last_inference (now : Q) (active_model : option string)
    (w : t) : t :=
  match active_model with
  | Some m =>
      if str_truthy m
      then set_pool w (engines w) (default_model w) (loaded_models w)
             (<[m := now]> (last_inference_time w))
      else w
  | None => w
  end.

(** [handle_stop].  [now] is what [time.time()] returns. *)
Definition handle_stop (now : Q) (websocket : nat) (session : ClientSession.t)
    (w : t) : ClientSession.t * t :=
  let session :=
    match ClientSession.audio_watchdog_task session with
    | Some k =>
        if negb (task_done k)
        then ClientSession.set_audio_watchdog_task session (Some (task_cancel k))
        else session
    | None => session
    end in
  if negb (ClientSession.is_recording session) then (session, w)
  else
    let session := ClientSession.set_is_recording session false in
    let w :=
      match 0 <? ClientSession.total_samples session,
            ClientSession.active_engine session with
      | true, Some r =>
          let audio_array := ClientSession.get_audio_array session in
          let '(w, res) := call_transcribe_final r audio_array w in
          match res with
          | Raise msg => send_error websocket msg w
          | Ok final_text =>
              let final_text :=
                if negb (str_truthy final_text)
                   && str_truthy (last_transcription (heap w r))
                then last_transcription (heap w r)
                else final_text in
              let w :=
                send websocket
                  [("type", JStr "final"); ("text", JStr final_text);
                   ("timestamp", JInt 0);
                   ("model", json_opt_str (ClientSession.active_model session))]
                  w in
              touch_last_inference now (ClientSession.active_model session) w
          end
      | _, _ =>
          let w :=
            send websocket
              [("type", JStr "final"); ("text", JStr ""); ("timestamp", JInt 0)]
              w in
          touch_last_inference now (ClientSession.active_model session) w
      end in
    let session := ClientSession.clear_audio session in
    let w :=
      match ClientSession.active_engine session with
      | Some r => call_end_session r w
      | None => w
      end in
    (session, w).

(** The empty interval result. *)
Definition empty_interval : message :=
  [("type", JStr "interval_transcription"); ("text", JStr "");
   ("is_final", JBool false)].

(** [await self.diarization_engine.diarize(audio)] *)
Definition diarize (d : Diarizer) (audio : list sample) : list Segment :=
  if dz_is_loaded d then dz_diarize_sync d audio else [].

(** The diarization step of [handle_transcribe_interval] on the words that
    passed the context skip: the relabelled words and [speakers]. *)
Definition apply_diarization (diarization_enabled : bool)
    (diarization_engine : option Diarizer)
    (audio_array : list sample) (words : list Word)
    : list Word * list string :=
  match diarization_enabled, diarization_engine, words with
  | true, Some d, _ :: _ =>
      if dz_is_loaded d then
        match diarize d audio_array with
        | [] => (words, [])
        | segments =>
            let words := assign_speakers_to_words words segments in
            let raw_speakers :=
              map (fun x => default "Unknown" (speaker x)) words in
            let speaker_map := format_speakers raw_speakers in
            let words :=
              map (fun x =>
                     let raw_speaker := default "Unknown" (speaker x) in
                     with_speaker x
                       (default raw_speaker (speaker_map !! raw_speaker)))
                  words in
            (words,
             elements
               (list_to_set (map (fun x => default "Unknown" (speaker x)) words)
                : gset string))
        end
      else (words, [])
  | _, _, _ => (words, [])
  end.

(** [text] from the words and [speakers]. *)
Definition format_text (words : list Word) (speakers : list string) : string :=
  if 1 <? py_len speakers then _format_with_speakers words
  else py_strip (py_join " " (map word words)).

(** [handle_transcribe_interval] *)
Definition handle_transcribe_interval (now : Q) (websocket : nat)
    (session : ClientSession.t) (w : t) : ClientSession.t * t :=
  if negb (ClientSession.is_recording session) then (session, w)
  else
    match ClientSession.total_samples session =? 0,
          ClientSession.active_engine session with
    | false, Some r =>
        let buffer_seconds := ClientSession.get_buffer_seconds session in
        let min_buffer := (context_seconds + 1)%Q in
        if Qlt_bool buffer_seconds min_buffer
        then (session, send websocket empty_interval w)
        else
          let audio_array := ClientSession.get_audio_array session in
          let '(w, res) :=
            if has_transcribe_with_timestamps (heap w r) then
              let '(w, res) := call_transcribe_with_timestamps r audio_array w in
              match res with
              | Raise msg => (w, Raise msg)
              | Ok result =>
                  let words := ts_words result in
                  let words :=
                    context_skip (ClientSession.has_done_first_interval session)
                      words in
                  let '(words, speakers) :=
                    apply_diarization
                      (ClientSession.diarization_enabled session)
                      (diarization_engine w) audio_array words in
                  (w, Ok (format_text words speakers, speakers))
              end
            else
              let '(w, res) := call_transcribe_final r audio_array w in
              match res with
              | Raise msg => (w, Raise msg)
              | Ok text =>
                  (w, Ok (if str_truthy text then py_strip text else "", []))
              end in
          match res with
          | Raise msg => (session, send_error websocket msg w)
          | Ok (text, speakers) =>
              let w :=
                send websocket
                  [("type", JStr "interval_transcription"); ("text", JStr text);
                   ("speakers", JStrs speakers); ("is_final", JBool false)]
                  w in
              let session :=
                ClientSession.set_has_done_first_interval session true in
              let w :=
                touch_last_inference now (ClientSession.active_model session) w in
              (ClientSession.keep_audio_tail session context_seconds, w)
          end
    | _, _ => (session, send websocket empty_interval w)
    end.

(** [_unload_model] *)
Definition _unload_model (model_id : string) (w : t) : t :=
  match dict_get model_id (engines w) with
  | None => w
  | Some r =>
      let '(w, res) :=
        if has_unload (heap w r) then call_unload r w else (w, Ok tt) in
      let w :=
        match res with
        | Raise _ => w
        | Ok _ =>
            let engines' := dict_del model_id (engines w) in
            let default' :=
              if String.eqb (default_model w) model_id then
                match engines' with
                | (first, _) :: _ => first
                | [] => default_model w
                end
              else default_model w in
            set_pool w engines' default' (loaded_models w ∖ {[model_id]})
              (delete model_id (last_inference_time w))
        end in
      foldl (fun w client =>
               send client
                 [("type", JStr "model_unloaded"); ("model", JStr model_id)] w)
            w (clients w)
  end.

(** [current_time - self.last_inference_time.get(model_id, current_time)] *)
Definition idle_time (current_time : Q) (w : t) (model_id : string) : Q :=
  let last_used := default current_time (last_inference_time w !! model_id) in
  (current_time - last_used)%Q.

(** The models one pass of the keep-warm monitor marks for unloading. *)
Definition models_to_unload (current_time : Q) (d : duration_seconds) (w : t)
    : list string :=
  List.filter (fun model_id => exceeds (idle_time current_time w model_id) d)
    (elements (loaded_models w)).

(** One pass of the loop of [_keep_warm_monitor], after its sleep;
    [current_time] is what [time.time()] returns. *)
Definition keep_warm_tick (current_time : Q) (w : t) : t :=
  if negb (keep_warm_enabled w) then w
  else if String.eqb (keep_warm_duration w) "permanent" then w
  else
    let d := _get_duration_seconds (keep_warm_duration w) in
    foldl (fun w model_id => _unload_model model_id w) w
      (models_to_unload current_time d w).

(** What [load_model] needs from outside the server: the path
    [model_manager.get_model_path()] returns, [WHISPER_AVAILABLE], and the
    outcome of constructing an engine and awaiting its [load_model]. *)
Record LoadEnv := mkLoadEnv {
  model_path : option string;
  WHISPER_AVAILABLE : bool;
  construct_and_load : string -> outcome engine
}.

(** [load_model] *)
Definition load_model (env : LoadEnv) (model_id : string) (w : t)
    : t * outcome unit :=
  if bool_decide (model_id ∈ loaded_models w) then (w, Ok tt)
  else
    let loaded :=
      if String.eqb model_id MODEL_PARAKEET then
        match model_path env with
        | Some p =>
            if str_truthy p then construct_and_load env model_id
            else Raise "Parakeet model not downloaded"
        | None => Raise "Parakeet model not downloaded"
        end
      else if bool_decide (model_id ∈ WHISPER_MODELS) then
        if WHISPER_AVAILABLE env then construct_and_load env model_id
        else Raise "Whisper is not installed"
      else Raise ("Unknown model: " +:+ model_id) in
    match loaded with
    | Raise msg => (w, Raise msg)
    | Ok e =>
        let r := next_ref w in
        let w :=
          set_store w (fun r' => if Nat.eqb r' r then e else heap w r') (S r)
            (calls w) in
        let loaded' := loaded_models w ∪ {[model_id]} in
        let default' :=
          if String.eqb (default_model w) MODEL_PARAKEET
             && bool_decide (model_id ∈ loaded')
             && (Z.of_nat (size loaded') =? 1)
          then model_id else default_model w in
        (set_pool w (dict_set model_id r (engines w)) default' loaded'
           (last_inference_time w), Ok tt)
    end.

(** [send_status] *)
Definition send_status (whisper_available : bool) (websocket : nat) (w : t) : t :=
  send websocket
    [("type", JStr "ready");
     ("model_loaded", JBool (0 <? Z.of_nat (size (loaded_models w))));
     ("parakeet_loaded", JBool (bool_decide (MODEL_PARAKEET ∈ loaded_models w)));
     ("whisper_available", JBool whisper_available);
     ("active_model", JStr (default_model w));
     ("loaded_models", JStrs (elements (loaded_models w)))] w.

(** [handle_clear_cache]; an exception of the engine's [unload] leaves the
    handler. *)
Definition handle_clear_cache (whisper_available : bool) (websocket : nat)
    (w : t) : t * outcome unit :=
  let '(w, res) :=
    match dict_get MODEL_PARAKEET (engines w) with
    | Some r =>
        let '(w, res) := call_unload r w in
        match res with
        | Raise msg => (w, Raise msg)
        | Ok _ =>
            (set_pool w (dict_del MODEL_PARAKEET (engines w)) (default_model w)
               (loaded_models w ∖ {[MODEL_PARAKEET]}) (last_inference_time w),
             Ok tt)
        end
    | None => (w, Ok tt)
    end in
  match res with
  | Raise msg => (w, Raise msg)
  | Ok _ =>
      let default' :=
        if String.eqb (default_model w) MODEL_PARAKEET then
          match engines w with
          | (first, _) :: _ => first
          | [] => default_model w
          end
        else default_model w in
      let w :=
        set_pool w (engines w) default' (loaded_models w)
          (last_inference_time w) in
      (send_status whisper_available websocket w, Ok tt)
  end.

(** [loaded_models] names exactly the keys of [engines]. *)
Definition pool_wf (w : t) : Prop :=
  loaded_models w = list_to_set (dict_keys (engines w)).

(** No engine raises from [unload], as is the case of [ASREngine] and
    [WhisperEngine], which catch what clearing the caches may raise. *)
Definition unload_never_raises : Prop :=
  forall e : engine, snd (unload e) = Ok tt.

(** Two server states with the same pool: [engines], [loaded_models] and
    [default_model]. *)
Definition same_pool (w w' : t) : Prop :=
  engines w' = engines w
  /\ loaded_models w' = loaded_models w
  /\ default_model w' = default_model w.

(** The pool states the server can be in: from [__init__], by the
    operations that change [engines], [loaded_models] and [default_model],
    by any handler above, and by any setting of the keep-warm fields. *)
Inductive reachable : t -> Prop :=
| reach_init h : reachable (init h)
| reach_load env model_id w :
    reachable w -> reachable (fst (load_model env model_id w))
| reach_unload model_id w :
    reachable w -> reachable (_unload_model model_id w)
| reach_clear_cache wa websocket w :
    reachable w -> reachable (fst (handle_clear_cache wa websocket w))
| reach_tick now w :
    reachable w -> reachable (keep_warm_tick now w)
| reach_stop now websocket session w :
    reachable w -> reachable (snd (handle_stop now websocket session w))
| reach_interval now websocket session w :
    reachable w ->
    reachable (snd (handle_transcribe_interval now websocket session w))
| reach_keep_warm enabled models duration w :
    reachable w -> reachable (set_keep_warm w enabled models duration).

End Server.

End MuteServer.

(** ** Data for the examples *)

(** An engine double for the examples below: it answers every call with
    the text and words it was built with, has the timestamp capability when
    it holds words, and never raises. *)
Record ScriptedEngine := mkScripted {
  se_loaded : bool;
  se_last : string;
  se_text : string;
  se_words : option (list DiarizationEngine.Word)
}.

#[export] Instance scripted_engine : EngineHandle ScriptedEngine := {
  is_loaded := se_loaded;
  start_session e := mkScripted (se_loaded e) "" (se_text e) (se_words e);
  end_session e := mkScripted (se_loaded e) "" (se_text e) (se_words e);
  last_transcription := se_last;
  transcribe_final e _ := (e, Ok (se_text e));
  has_transcribe_with_timestamps e :=
    match se_words e with Some _ => true | None => false end;
  transcribe_with_timestamps e _ :=
    (e, Ok (mkTimestampResult (se_text e) (default [] (se_words e))));
  has_unload _ := true;
  unload e := (mkScripted false (se_last e) (se_text e) (se_words e), Ok tt)
}.

(** The words of the specification's interval example, starting at 0.1,
    1.0, 2.3 and 3.0 s. *)
Definition example_words : list DiarizationEngine.Word :=
  [DiarizationEngine.mkWord "zero" (1 # 10) (5 # 10) None;
   DiarizationEngine.mkWord "one" 1 (15 # 10) None;
   DiarizationEngine.mkWord "two" (23 # 10) (28 # 10) None;
   DiarizationEngine.mkWord "three" 3 (35 # 10) None].

(** A session on its second interval: recording, bound to the engine at
    reference 0, with 3 s of silence buffered. *)
Definition example_session : ClientSession.t :=
  ClientSession.mk true [repeat 0%Q (Z.to_nat 48000)] 48000 false ""
    (Some 0%nat) (Some "base") true false None true.

(** Loading always succeeds and yields a scripted engine. *)
Definition example_env : MuteServer.LoadEnv (engine := ScriptedEngine) :=
  MuteServer.mkLoadEnv (Some "/models/parakeet.nemo") true
    (fun _ => Ok (mkScripted true "" "" None)).

(** A fresh server, then: load "base", unload it, load "large-v3-turbo". *)
Definition example_server_0 : MuteServer.t (engine := ScriptedEngine) :=
  MuteServer.init (fun _ => mkScripted false "" "" None).

Definition example_server_1 : MuteServer.t (engine := ScriptedEngine) :=
  fst (MuteServer.load_model example_env "base" example_server_0).

Definition example_server_2 : MuteServer.t (engine := ScriptedEngine) :=
  MuteServer._unload_model "base" example_server_1.

Definition example_server_3 : MuteServer.t (engine := ScriptedEngine) :=
  fst (MuteServer.load_model example_env "large-v3-turbo" example_server_2).

(** A server at time 100000 with keep-warm on for 4 h and two models
    loaded: "base" last used 5000 s ago, "large-v3-turbo" 15000 s ago. *)
Definition example_idle_server : MuteServer.t (engine := ScriptedEngine) :=
  MuteServer.mk
    [("base", 0%nat); ("large-v3-turbo", 1%nat)] "base"
    (list_to_set ["base"; "large-v3-turbo"]) None
    true (list_to_set ["base"; "large-v3-turbo"]) "4h"
    (<["base" := 95000%Q]> (<["large-v3-turbo" := 85000%Q]> ∅))
    [7%nat]
    (fun _ => mkScripted true "" "" None) 2%nat [] [].

(** ** The text of a labelled transcript, by runs

    What the docstring of [_format_with_speakers] describes: the words
    grouped in runs of one speaker, each run a line "speaker: w1 w2 ... ".
    These two definitions follow the docstring, not the loop, and serve to
    state what the loop computes. *)

Definition run_text (speaker : string) (ws : list DiarizationEngine.Word)
    : string :=
  speaker +:+ ": "
  +:+ foldr (fun x acc => DiarizationEngine.word x +:+ " " +:+ acc) "" ws.

Definition runs_text (runs : list (string * list DiarizationEngine.Word))
    : string :=
  String.concat newline (map (fun r => run_text (fst r) (snd r)) runs).

(** ** An engine that fails

    A second engine double for the examples: every call on it raises. *)

Inductive FailingEngine := Failing.

#[export] Instance failing_engine : EngineHandle FailingEngine := {
  is_loaded _ := true;
  start_session e := e;
  end_session e := e;
  last_transcription _ := "";
  transcribe_final e _ := (e, Raise "engine failure");
  has_transcribe_with_timestamps _ := true;
  transcribe_with_timestamps e _ := (e, Raise "engine failure");
  has_unload _ := true;
  unload e := (e, Raise "engine failure")
}.

(** ** The shape of the pool

    What every pool the server builds looks like: [loaded_models] names the
    keys of [engines], no key and no engine reference occurs twice, every
    reference was handed out by [load_model], and only the three known
    models are loaded. *)

Definition pool_inv {engine : Type} (w : MuteServer.t (engine := engine)) : Prop :=
  MuteServer.pool_wf w
  /\ NoDup (dict_keys (MuteServer.engines w))
  /\ NoDup (map snd (MuteServer.engines w))
  /\ (forall m r, In (m, r) (MuteServer.engines w) -> (r < MuteServer.next_ref w)%nat)
  /\ (forall m, m ∈ MuteServer.loaded_models w ->
        m = "parakeet" \/ m = "base" \/ m = "large-v3-turbo").

(** ** [class ASREngine] and [class WhisperEngine]

    The two engines the server loads.  The network an engine holds once
    loaded is seen through what the engine's synchronous helper makes of
    it: [_transcribe_sync] returns the stripped text of an audio array, or
    the empty string when the network call raises, and
    [_transcribe_with_timestamps_sync] likewise a text with its words or
    the empty result.  [run_in_executor] is taken to run the function it is
    given, and clearing the GPU caches in [unload] to return. *)

Module ASREngine.

Record t := mk {
  model : option (list sample -> string);
  is_loaded : bool;
  session_active : bool;
  last_transcription : string
}.

Definition SAMPLE_RATE : Q := 16000.

(** The object after [ASREngine(model_path)] and a [load_model] that
    returned. *)
Definition loaded (net : list sample -> string) : t := mk (Some net) true false "".

Definition start_session (e : t) : t := mk (model e) (is_loaded e) true "".

Definition end_session (e : t) : t := mk (model e) (is_loaded e) false "".

Definition _transcribe_sync (e : t) (audio : list sample) : string :=
  match model e with
  | None => ""
  | Some net => net audio
  end.

Definition transcribe_incremental (e : t) (audio : list sample) : t * string :=
  if negb (is_loaded e) || negb (session_active e) then (e, "")
  else
    let min_samples := py_int (SAMPLE_RATE * (1 # 2)) in
    if py_len audio <? min_samples then (e, last_transcription e)
    else
      let text := _transcribe_sync e audio in
      if str_truthy text
      then (mk (model e) (is_loaded e) (session_active e) text, text)
      else (e, last_transcription e).

Definition transcribe_final (e : t) (audio : list sample) : string :=
  if negb (is_loaded e) then ""
  else if py_len audio <? 1600 then ""
  else _transcribe_sync e audio.

Definition unload (e : t) : t :=
  match model e with
  | Some _ => mk None false (session_active e) (last_transcription e)
  | None => e
  end.

End ASREngine.

Module WhisperEngine.

(** The Whisper network, through the two synchronous helpers. *)
Record Model := mkModel {
  text_of : list sample -> string;
  timestamps_of : list sample -> TimestampResult
}.

Record t := mk {
  model : option Model;
  is_loaded : bool;
  session_active : bool;
  last_transcription : string
}.

Definition SAMPLE_RATE : Q := 16000.

(** The object after [WhisperEngine(model_id)] and a [load_model] that
    returned. *)
Definition loaded (net : Model) : t := mk (Some net) true false "".

Definition start_session (e : t) : t := mk (model e) (is_loaded e) true "".

Definition end_session (e : t) : t := mk (model e) (is_loaded e) false "".

Definition _transcribe_sync (e : t) (audio : list sample) : string :=
  match model e with
  | None => ""
  | Some net => text_of net audio
  end.

Definition _transcribe_with_timestamps_sync (e : t) (audio : list sample)
    : TimestampResult :=
  match model e with
  | None => mkTimestampResult "" []
  | Some net => timestamps_of net audio
  end.

Definition transcribe_incremental (e : t) (audio : list sample) : t * string :=
  if negb (is_loaded e) || negb (session_active e) then (e, "")
  else
    let min_samples := py_int (SAMPLE_RATE * 1) in
    if py_len audio <? min_samples then (e, last_transcription e)
    else
      let text := _transcribe_sync e audio in
      if str_truthy text
      then (mk (model e) (is_loaded e) (session_active e) text, text)
      else (e, last_transcription e).

Definition transcribe_final (e : t) (audio : list sample) : string :=
  if negb (is_loaded e) then ""
  else if py_len audio <? 1600 then ""
  else _transcribe_sync e audio.

Definition transcribe_with_timestamps (e : t) (audio : list sample)
    : TimestampResult :=
  if negb (is_loaded e) then mkTimestampResult "" []
  else if py_len audio <? 1600 then mkTimestampResult "" []
  else _transcribe_with_timestamps_sync e audio.

Definition unload (e : t) : t :=
  match model e with
  | Some _ => mk None false (session_active e) (last_transcription e)
  | None => e
  end.

End WhisperEngine.

(** An engine object of the pool: [load_model] builds an [ASREngine] for
    "parakeet" and a [WhisperEngine] for the Whisper models.  [ASREngine]
    has no [transcribe_with_timestamps]; both have [unload]. *)
Inductive RealEngine :=
| Parakeet (e : ASREngine.t)
| Whisper (e : WhisperEngine.t).

#[export] Instance real_engine : EngineHandle RealEngine := {
  is_loaded e :=
    match e with
    | Parakeet a => ASREngine.is_loaded a
    | Whisper a => WhisperEngine.is_loaded a
    end;
  start_session e :=
    match e with
    | Parakeet a => Parakeet (ASREngine.start_session a)
    | Whisper a => Whisper (WhisperEngine.start_session a)
    end;
  end_session e :=
    match e with
    | Parakeet a => Parakeet (ASREngine.end_session a)
    | Whisper a => Whisper (WhisperEngine.end_session a)
    end;
  last_transcription e :=
    match e with
    | Parakeet a => ASREngine.last_transcription a
    | Whisper a => WhisperEngine.last_transcription a
    end;
  transcribe_final e audio :=
    match e with
    | Parakeet a => (e, Ok (ASREngine.transcribe_final a audio))
    | Whisper a => (e, Ok (WhisperEngine.transcribe_final a audio))
    end;
  has_transcribe_with_timestamps e :=
    match e with
    | Parakeet _ => false
    | Whisper _ => true
    end;
  transcribe_with_timestamps e audio :=
    match e with
    | Parakeet _ =>
        (e, Raise "'ASREngine' object has no attribute 'transcribe_with_timestamps'")
    | Whisper a => (e, Ok (WhisperEngine.transcribe_with_timestamps a audio))
    end;
  has_unload _ := true;
  unload e :=
    match e with
    | Parakeet a => (Parakeet (ASREngine.unload a), Ok tt)
    | Whisper a => (Whisper (WhisperEngine.unload a), Ok tt)
    end
}.

(** [transcribe_incremental], the one engine method [handle_audio] calls. *)
Class IncrementalHandle (engine : Type) := {
  transcribe_incremental : engine -> list sample -> engine * outcome string
}.

#[export] Instance real_engine_incremental : IncrementalHandle RealEngine := {
  transcribe_incremental e audio :=
    match e with
    | Parakeet a =>
        let '(a', text) := ASREngine.transcribe_incremental a audio in
        (Parakeet a', Ok text)
    | Whisper a =>
        let '(a', text) := WhisperEngine.transcribe_incremental a audio in
        (Whisper a', Ok text)
    end
}.

(** [engine.session_active] *)
Definition session_active (e : RealEngine) : bool :=
  match e with
  | Parakeet a => ASREngine.session_active a
  | Whisper a => WhisperEngine.session_active a
  end.

(** ** [class MuteServer]: loading on request, audio, start and the watchdog *)

(** How a coroutine that takes [session.lock] ends: it returns, or it
    waits for the lock without end.  An [asyncio.Lock] is not reentrant: a
    coroutine that awaits it while holding it waits for itself. *)
Inductive completion (A : Type) :=
| Returns (a : A)
| Blocks (a : A).
Arguments Returns {A} a.
Arguments Blocks {A} a.

(** What [handle_audio] computes in binary floating point from the
    buffered duration, as functions of [total_samples]: the pacing test
    [buffer_seconds >= 1.5 and (buffer_seconds % 1.5) < 0.1], and the
    timestamp [int(buffer_seconds * 1000)].  Both round, and exact
    rationals do not reproduce them at the boundaries, so they are inputs. *)
Record FloatView := mkFloatView {
  partial_due : Z -> bool;
  partial_timestamp : Z -> Z
}.

(** The settings of a start message: [settings.get("model")], absent or a
    string, [settings.get("continuous_mode", False)] and
    [settings.get("enable_diarization", False)]. *)
Record Settings := mkSettings {
  st_model : option string;
  st_continuous_mode : bool;
  st_enable_diarization : bool
}.

Module MuteServerHandlers.

Import DiarizationEngine MuteServer.

(** Field updates of a session. *)
Definition set_first_audio_received (s : ClientSession.t) (b : bool)
    : ClientSession.t :=
  {| ClientSession.is_recording := ClientSession.is_recording s;
     ClientSession.audio_chunks := ClientSession.audio_chunks s;
     ClientSession.total_samples := ClientSession.total_samples s;
     ClientSession.continuous_mode := ClientSession.continuous_mode s;
     ClientSession.last_partial_text := ClientSession.last_partial_text s;
     ClientSession.active_engine := ClientSession.active_engine s;
     ClientSession.active_model := ClientSession.active_model s;
     ClientSession.has_done_first_interval :=
       ClientSession.has_done_first_interval s;
     ClientSession.diarization_enabled := ClientSession.diarization_enabled s;
     ClientSession.audio_watchdog_task := ClientSession.audio_watchdog_task s;
     ClientSession.first_audio_received := b |}.

Definition set_last_partial_text (s : ClientSession.t) (text : string)
    : ClientSession.t :=
  {| ClientSession.is_recording := ClientSession.is_recording s;
     ClientSession.audio_chunks := ClientSession.audio_chunks s;
     ClientSession.total_samples := ClientSession.total_samples s;
     ClientSession.continuous_mode := ClientSession.continuous_mode s;
     ClientSession.last_partial_text := text;
     ClientSession.active_engine := ClientSession.active_engine s;
     ClientSession.active_model := ClientSession.active_model s;
     ClientSession.has_done_first_interval :=
       ClientSession.has_done_first_interval s;
     ClientSession.diarization_enabled := ClientSession.diarization_enabled s;
     ClientSession.audio_watchdog_task := ClientSession.audio_watchdog_task s;
     ClientSession.first_audio_received :=
       ClientSession.first_audio_received s |}.

(** [if session.audio_watchdog_task and not session.audio_watchdog_task.done():
    session.audio_watchdog_task.cancel()] *)
Definition cancel_watchdog (session : ClientSession.t) : ClientSession.t :=
  match ClientSession.audio_watchdog_task session with
  | Some k =>
      if negb (task_done k)
      then ClientSession.set_audio_watchdog_task session (Some (task_cancel k))
      else session
  | None => session
  end.

Definition model_loaded (model_id : string) : message :=
  [("type", JStr "model_loaded"); ("model", JStr model_id)].

Section Handlers.

Context {engine : Type} `{EngineHandle engine} `{IncrementalHandle engine}.

(** [handle_load_model] *)
Definition handle_load_model (env : LoadEnv (engine := engine)) (websocket : nat)
    (model_id : string) (w : t (engine := engine)) : t (engine := engine) :=
  if negb (str_truthy model_id)
  then send_error websocket "Model ID not specified" w
  else if negb (bool_decide (model_id ∈ MODEL_PARAKEET :: WHISPER_MODELS))
  then send_error websocket ("Unknown model: " +:+ model_id) w
  else if bool_decide (model_id ∈ loaded_models w)
  then send websocket (model_loaded model_id) w
  else
    let '(w, res) := load_model env model_id w in
    match res with
    | Ok _ => send websocket (model_loaded model_id) w
    | Raise msg =>
        send websocket
          [("type", JStr "model_error"); ("message", JStr msg);
           ("model", JStr model_id)] w
    end.

(** [handle_stop] entered with [session.lock] held or free.  The watchdog
    is cancelled before the lock is awaited. *)
Definition handle_stop_under_lock (lock_held : bool) (now : Q) (websocket : nat)
    (session : ClientSession.t) (w : t (engine := engine))
    : completion (ClientSession.t * t (engine := engine)) :=
  if lock_held then Blocks (cancel_watchdog session, w)
  else Returns (handle_stop now websocket session w).

(** [handle_audio].  [decoded] is what the message decodes to: the samples,
    or the exception [b64decode] or [np.frombuffer] raised.  The engine
    object is updated in the store; the call log keeps to the methods of
    [engine_call]. *)
Definition handle_audio (fv : FloatView) (decoded : outcome (list sample))
    (now : Q) (websocket : nat) (session : ClientSession.t)
    (w : t (engine := engine))
    : completion (ClientSession.t * t (engine := engine)) :=
  if negb (ClientSession.is_recording session) then Returns (session, w)
  else
    let session :=
      if negb (ClientSession.first_audio_received session)
      then cancel_watchdog (set_first_audio_received session true)
      else session in
    match decoded with
    | Raise _ => Returns (session, w)
    | Ok audio_samples =>
        let '(session, ok) := ClientSession.add_audio session audio_samples in
        if negb ok then
          let w :=
            send_error websocket
              "Recording too long (max 5 minutes). Stopping." w in
          handle_stop_under_lock true now websocket session w
        else
          match ClientSession.continuous_mode session,
                ClientSession.active_engine session with
          | true, Some r =>
              if partial_due fv (ClientSession.total_samples session) then
                let audio_array := ClientSession.get_audio_array session in
                let '(e, res) := transcribe_incremental (heap w r) audio_array in
                let w :=
                  set_store w (fun r' => if Nat.eqb r' r then e else heap w r')
                    (next_ref w) (calls w) in
                match res with
                | Raise _ => Returns (session, w)
                | Ok partial_text =>
                    if str_truthy partial_text
                       && negb (String.eqb partial_text
                                  (ClientSession.last_partial_text session))
                    then
                      Returns
                        (set_last_partial_text session partial_text,
                         send websocket
                           [("type", JStr "partial");
                            ("text", JStr partial_text);
                            ("timestamp",
                             JInt (partial_timestamp fv
                                     (ClientSession.total_samples session)))]
                           w)
                    else Returns (session, w)
                end
              else Returns (session, w)
          | _, _ => Returns (session, w)
          end
    end.

(** [_audio_watchdog] once its sleep is over.  [cancelled] tells whether
    the task was cancelled in the meantime: the sleep then raises
    [CancelledError] and nothing is done. *)
Definition _audio_watchdog (cancelled : bool) (websocket : nat)
    (session : ClientSession.t) (w : t (engine := engine))
    : ClientSession.t * t (engine := engine) :=
  if cancelled then (session, w)
  else if ClientSession.is_recording session
          && negb (ClientSession.first_audio_received session)
  then
    let w := send_error websocket "no_audio_timeout" w in
    let session := ClientSession.set_is_recording session false in
    let session := ClientSession.clear_audio session in
    let w :=
      match ClientSession.active_engine session with
      | Some r => call_end_session r w
      | None => w
      end in
    (session, w)
  else (session, w).

(** What [handle_start] needs from outside: the environment of each of the
    two load attempts, [PYANNOTE_AVAILABLE], and what loading the
    diarization pipeline gives: the pipeline as [diarize_sync] sees it, or
    the exception. *)
Record StartEnv := mkStartEnv {
  first_attempt : LoadEnv (engine := engine);
  second_attempt : LoadEnv (engine := engine);
  PYANNOTE_AVAILABLE : bool;
  load_diarization : outcome (list sample -> list Segment)
}.

(** The diarization part of [handle_start]: the server's diarization
    engine and [session.diarization_enabled] after it. *)
Definition start_diarization (env : StartEnv) (enable_diarization : bool)
    (diarization_engine : option Diarizer) : option Diarizer * bool :=
  if enable_diarization && PYANNOTE_AVAILABLE env then
    let d := default (mkDiarizer false (fun _ => [])) diarization_engine in
    if negb (dz_is_loaded d) then
      match load_diarization env with
      | Ok pipeline => (Some (mkDiarizer true pipeline), enable_diarization)
      | Raise _ => (Some d, false)
      end
    else (Some d, enable_diarization)
  else (diarization_engine, enable_diarization).

Definition set_diarization_engine (w : t (engine := engine))
    (d : option Diarizer) : t (engine := engine) :=
  {| engines := engines w; default_model := default_model w;
     loaded_models := loaded_models w; diarization_engine := d;
     keep_warm_enabled := keep_warm_enabled w;
     keep_warm_models := keep_warm_models w;
     keep_warm_duration := keep_warm_duration w;
     last_inference_time := last_inference_time w; clients := clients w;
     heap := heap w; next_ref := next_ref w; sent := sent w;
     calls := calls w |}.

(** The load on demand of [handle_start], with its one retry: the server
    after it and [last_error]. *)
Definition start_load (env : StartEnv) (websocket : nat)
    (requested_model : string) (w : t (engine := engine))
    : t (engine := engine) * option string :=
  match dict_get requested_model (engines w) with
  | Some _ => (w, None)
  | None =>
      let '(w, res) := load_model (first_attempt env) requested_model w in
      match res with
      | Ok _ => (send websocket (model_loaded requested_model) w, None)
      | Raise _ =>
          let '(w, res) := load_model (second_attempt env) requested_model w in
          match res with
          | Ok _ => (send websocket (model_loaded requested_model) w, None)
          | Raise msg => (w, Some msg)
          end
      end
  end.

(** [handle_start].  The watchdog task it creates is the pending task the
    session holds afterwards. *)
Definition handle_start (env : StartEnv) (websocket : nat)
    (session : ClientSession.t) (settings : Settings) (w : t (engine := engine))
    : ClientSession.t * t (engine := engine) :=
  let requested_model := default (default_model w) (st_model settings) in
  let '(w, last_error) := start_load env websocket requested_model w in
  match last_error with
  | Some msg =>
      (session,
       send_error websocket
         ("Model '" +:+ requested_model
          +:+ "' not available after 2 attempts: " +:+ msg) w)
  | None =>
      match dict_get requested_model (engines w) with
      | None =>
          (session,
           send_error websocket
             ("Model '" +:+ requested_model +:+ "' not loaded") w)
      | Some r =>
          if negb (is_loaded (heap w r)) then
            (session,
             send_error websocket
               ("Model '" +:+ requested_model +:+ "' not loaded") w)
          else
            let '(d, diarization_enabled) :=
              start_diarization env (st_enable_diarization settings)
                (diarization_engine w) in
            let w := set_diarization_engine w d in
            let w :=
              set_store w
                (fun r' => if Nat.eqb r' r then start_session (heap w r)
                           else heap w r')
                (next_ref w) (calls w) in
            let w :=
              send websocket
                [("type", JStr "recording_ready");
                 ("model", JStr requested_model)] w in
            ({| ClientSession.is_recording := true;
                ClientSession.audio_chunks := [];
                ClientSession.total_samples := 0;
                ClientSession.continuous_mode := st_continuous_mode settings;
                ClientSession.last_partial_text := "";
                ClientSession.active_engine := Some r;
                ClientSession.active_model := Some requested_model;
                ClientSession.has_done_first_interval := false;
                ClientSession.diarization_enabled := diarization_enabled;
                ClientSession.audio_watchdog_task := Some TaskPending;
                ClientSession.first_audio_received := false |},
             w)
      end
  end.

End Handlers.

End MuteServerHandlers.

(** ** Data for the examples on the real engines *)

(** A Whisper network that hears "hello" in everything, and a Parakeet
    network that hears "hi". *)
Definition example_whisper : WhisperEngine.t :=
  WhisperEngine.loaded
    (WhisperEngine.mkModel (fun _ => "hello")
       (fun _ => mkTimestampResult "hello" example_words)).

Definition example_parakeet : ASREngine.t := ASREngine.loaded (fun _ => "hi").

(** A server with "base" bound to the Whisper engine at reference 0 and
    "parakeet" to the Parakeet engine at reference 1, and one client, 7. *)
Definition example_real_server : MuteServer.t (engine := RealEngine) :=
  MuteServer.mk
    [("base", 0%nat); ("parakeet", 1%nat)] "base"
    (list_to_set ["base"; "parakeet"]) None
    false ∅ "4h" ∅ [7%nat]
    (fun r => if Nat.eqb r 0 then Whisper example_whisper
              else Parakeet example_parakeet)
    2%nat [] [].

(** Rounding that agrees with the exact values on the examples. *)
Definition example_float_view : FloatView :=
  mkFloatView (fun total => (24000 <=? total) && (total mod 24000 <? 1600))
    (fun total => total / 16).

(** * Properties *)

(** ** The audio buffer of a session *)

Section ClientSessionFacts.

Import ClientSession.

Lemma py_len_nonneg {A} (l : list A) : 0 <= py_len l.
Proof. unfold py_len. lia. Qed.

Lemma py_len_app {A} (l1 l2 : list A) : py_len (l1 ++ l2) = py_len l1 + py_len l2.
Proof. unfold py_len. rewrite length_app. lia. Qed.

Lemma stored_samples_nonneg chunks : 0 <= stored_samples chunks.
Proof.
  induction chunks as [|c cs IH]; simpl; [lia|].
  pose proof (py_len_nonneg c). lia.
Qed.

Lemma stored_samples_app l1 l2 :
  stored_samples (l1 ++ l2) = stored_samples l1 + stored_samples l2.
Proof. induction l1 as [|c cs IH]; simpl; lia. Qed.

Lemma stored_samples_concat chunks : py_len (concat chunks) = stored_samples chunks.
Proof.
  induction chunks as [|c cs IH]; simpl; [reflexivity|].
  rewrite py_len_app. lia.
Qed.

(** What one [add_audio] call does, by cases on the cap. *)
Lemma add_audio_cases s c :
  (total_samples s + py_len c <= MAX_BUFFER_SAMPLES
   /\ add_audio s c
      = (set_audio s (audio_chunks s ++ [c]) (total_samples s + py_len c), true))
  \/ (MAX_BUFFER_SAMPLES < total_samples s + py_len c
      /\ add_audio s c = (s, false)).
Proof.
  unfold add_audio.
  destruct (Z.ltb_spec MAX_BUFFER_SAMPLES (total_samples s + py_len c)); auto.
Qed.

Lemma add_all_length chunks : forall s,
  length (snd (add_all s chunks)) = length chunks.
Proof.
  induction chunks as [|c cs IH]; intros s; simpl; [reflexivity|].
  destruct (add_audio s c) as [s1 ok].
  specialize (IH s1). destruct (add_all s1 cs) as [s2 oks]. simpl in *. lia.
Qed.

(** The buffer after a run holds the accepted chunks, and no others. *)
Lemma add_all_accepted chunks : forall s,
  audio_chunks (fst (add_all s chunks))
    = audio_chunks s ++ accepted chunks (snd (add_all s chunks))
  /\ total_samples (fst (add_all s chunks))
    = total_samples s + stored_samples (accepted chunks (snd (add_all s chunks))).
Proof.
  induction chunks as [|c cs IH]; intros s; simpl.
  - rewrite app_nil_r. split; [reflexivity | lia].
  - destruct (add_audio_cases s c) as [[Hle E] | [Hgt E]]; rewrite E;
      match goal with |- context [add_all ?s1 cs] =>
        destruct (IH s1) as [IHc IHt]; destruct (add_all s1 cs) as [s2 oks]
      end; simpl in *.
    + rewrite IHc, IHt, <- app_assoc. split; [reflexivity | lia].
    + auto.
Qed.

(** Each call of a run is decided by the capacity that remains. *)
Lemma add_all_decided chunks : forall s j cj,
  chunks !! j = Some cj ->
  snd (add_all s chunks) !! j
  = Some (bool_decide
            (py_len cj
             <= MAX_BUFFER_SAMPLES
                - (total_samples s
                   + stored_samples
                       (accepted (take j chunks)
                          (take j (snd (add_all s chunks))))))).
Proof.
  induction chunks as [|c cs IH]; intros s j cj Hj; [done|].
  simpl. destruct (add_audio_cases s c) as [[Hle E] | [Hgt E]]; rewrite E;
    match goal with |- context [add_all ?s1 cs] =>
      pose proof (IH s1) as IH1; destruct (add_all s1 cs) as [s2 oks]
    end; simpl in *.
  - destruct j as [|j]; simpl in *.
    + injection Hj as <-. f_equal. symmetry. apply bool_decide_eq_true. lia.
    + rewrite (IH1 j cj Hj). f_equal. apply bool_decide_ext. lia.
  - destruct j as [|j]; simpl in *.
    + injection Hj as <-. f_equal. symmetry. apply bool_decide_eq_false. lia.
    + rewrite (IH1 j cj Hj). f_equal.
Qed.

(** The running total never decreases along a run, so a length that did not
    fit keeps not fitting. *)
Lemma add_all_rejects_later chunks : forall s n j cj,
  MAX_BUFFER_SAMPLES < total_samples s + n ->
  chunks !! j = Some cj -> n <= py_len cj ->
  snd (add_all s chunks) !! j = Some false.
Proof.
  induction chunks as [|c cs IH]; intros s n j cj Hn Hj Hlen; [done|].
  simpl. destruct (add_audio_cases s c) as [[Hle E] | [Hgt E]]; rewrite E;
    match goal with |- context [add_all ?s1 cs] =>
      pose proof (IH s1 n) as IH1; destruct (add_all s1 cs) as [s2 oks]
    end; simpl in *.
  - destruct j as [|j]; simpl in *.
    + injection Hj as <-. lia.
    + apply (IH1 j cj); [|done..]. pose proof (py_len_nonneg c). lia.
  - destruct j as [|j]; simpl in *; [reflexivity|].
    by apply (IH1 j cj).
Qed.

Lemma add_all_monotone chunks : forall s i j ci cj,
  (i <= j)%nat ->
  chunks !! i = Some ci -> chunks !! j = Some cj ->
  snd (add_all s chunks) !! i = Some false ->
  py_len ci <= py_len cj ->
  snd (add_all s chunks) !! j = Some false.
Proof.
  induction chunks as [|c cs IH]; intros s i j ci cj Hij Hi Hj Hrej Hlen; [done|].
  destruct i as [|i].
  - simpl in Hi. injection Hi as <-.
    apply (add_all_rejects_later (c :: cs) s (py_len c) j cj); [|done..].
    simpl in Hrej. destruct (add_audio_cases s c) as [[Hle E] | [Hgt E]];
      rewrite E in Hrej; [|done].
    destruct (add_all _ cs); simpl in Hrej. discriminate.
  - destruct j as [|j]; [lia|].
    simpl in *. destruct (add_audio s c) as [s1 ok].
    specialize (IH s1 i j ci cj). destruct (add_all s1 cs) as [s2 oks].
    simpl in *. apply IH; [lia|done..].
Qed.

(** C2.  A run of [add_audio] calls from any session: each call appends its
    chunk and returns true unless the running total plus the chunk length
    exceeds [MAX_BUFFER_SAMPLES] (300 s of 16000 samples), and then returns
    false and leaves the session as it was; after the run the buffer holds
    the accepted chunks and [total_samples] has grown by the sum of their
    lengths (from a fresh session it is that sum); each call is decided by
    the remaining capacity alone, and once a chunk is rejected no later
    chunk at least as long is accepted. *)
Theorem add_audio_sequence (s : ClientSession.t) (chunks : list (list sample)) :
  MAX_BUFFER_SAMPLES = 300 * 16000
  /\ (forall s0 c,
        add_audio s0 c
        = if bool_decide (total_samples s0 + py_len c <= MAX_BUFFER_SAMPLES)
          then (set_audio s0 (audio_chunks s0 ++ [c])
                  (total_samples s0 + py_len c), true)
          else (s0, false))
  /\ length (snd (add_all s chunks)) = length chunks
  /\ audio_chunks (fst (add_all s chunks))
     = audio_chunks s ++ accepted chunks (snd (add_all s chunks))
  /\ total_samples (fst (add_all s chunks))
     = total_samples s + stored_samples (accepted chunks (snd (add_all s chunks)))
  /\ total_samples (fst (add_all init chunks))
     = stored_samples (accepted chunks (snd (add_all init chunks)))
  /\ (forall j cj,
        chunks !! j = Some cj ->
        snd (add_all s chunks) !! j
        = Some (bool_decide
                  (py_len cj
                   <= MAX_BUFFER_SAMPLES
                      - (total_samples s
                         + stored_samples
                             (accepted (take j chunks)
                                (take j (snd (add_all s chunks))))))))
  /\ (forall i j ci cj,
        (i <= j)%nat ->
        chunks !! i = Some ci -> chunks !! j = Some cj ->
        snd (add_all s chunks) !! i = Some false ->
        py_len ci <= py_len cj ->
        snd (add_all s chunks) !! j = Some false).
Proof.
  split; [reflexivity|].
  split.
  { intros s0 c. destruct (add_audio_cases s0 c) as [[Hle E] | [Hgt E]];
      rewrite E; case_bool_decide; (reflexivity || lia). }
  split; [apply add_all_length|].
  destruct (add_all_accepted chunks s) as [Hc Ht].
  do 2 (split; [assumption|]).
  split.
  { destruct (add_all_accepted chunks init) as [_ Hi]. rewrite Hi. simpl. lia. }
  split; [apply add_all_decided | apply add_all_monotone].
Qed.

Lemma add_audio_sequence_witness :
  snd (add_all (set_audio init [] 4799999) [[1%Q; 2%Q]; [3%Q]; [4%Q; 5%Q; 6%Q]])
    !! 2%nat = Some false.
Proof.
  apply (proj2 (proj2 (proj2 (proj2 (proj2 (proj2 (proj2
           (add_audio_sequence (set_audio init [] 4799999)
              [[1%Q; 2%Q]; [3%Q]; [4%Q; 5%Q; 6%Q]]))))))))
    with (i := 0%nat) (ci := [1%Q; 2%Q]) (cj := [4%Q; 5%Q; 6%Q]).
  - lia.
  - reflexivity.
  - reflexivity.
  - reflexivity.
  - unfold py_len. simpl. lia.
Defined.

(** The three buffer methods keep [total_samples] equal to the number of
    stored samples. *)
Lemma step_consistent s o :
  total_samples s = stored_samples (audio_chunks s) ->
  total_samples (step s o) = stored_samples (audio_chunks (step s o)).
Proof.
  intros Hs. destruct o as [a| |sec]; simpl.
  - destruct (add_audio_cases s a) as [[_ E] | [_ E]]; rewrite E; simpl; [|done].
    rewrite stored_samples_app. simpl. lia.
  - reflexivity.
  - unfold keep_audio_tail.
    destruct (total_samples s <=? py_int (16000 * sec)); [done|].
    simpl. lia.
Qed.

Lemma run_consistent ops : forall s,
  total_samples s = stored_samples (audio_chunks s) ->
  total_samples (run s ops) = stored_samples (audio_chunks (run s ops)).
Proof.
  induction ops as [|o ops IH]; intros s Hs; [done|].
  apply (IH (step s o)), step_consistent, Hs.
Qed.

(** C9.  After any sequence of [add_audio], [clear_audio] and
    [keep_audio_tail] calls on a fresh session, [total_samples] is the sum
    of the lengths of the arrays in [audio_chunks], and
    [get_buffer_seconds] is [total_samples] divided by 16000. *)
Theorem buffer_invariant (ops : list ClientSession.op) :
  total_samples (run init ops) = stored_samples (audio_chunks (run init ops))
  /\ get_buffer_seconds (run init ops)
     = (inject_Z (total_samples (run init ops)) / 16000)%Q
  /\ get_buffer_seconds (run init ops)
     = (inject_Z (stored_samples (audio_chunks (run init ops))) / 16000)%Q.
Proof.
  assert (H : total_samples (run init ops)
              = stored_samples (audio_chunks (run init ops)))
    by (apply run_consistent; reflexivity).
  split; [exact H|]. split; [reflexivity|].
  unfold get_buffer_seconds. rewrite H. reflexivity.
Qed.

(** On a non-negative float [int] is the floor. *)
Lemma py_int_floor (x : Q) : (0 <= x)%Q -> py_int x = Qfloor x.
Proof.
  destruct x as [n d]. unfold Qle, py_int, Qfloor. simpl. intros Hn.
  apply Z.quot_div_nonneg; lia.
Qed.

Lemma py_slice_from_last {A} (k : Z) (l : list A) :
  0 < k <= py_len l ->
  py_slice_from (- k) l = drop (length l - Z.to_nat k) l
  /\ py_len (py_slice_from (- k) l) = k.
Proof.
  intros Hk. unfold py_slice_from, py_len in *.
  destruct (Z.ltb_spec (- k) 0); [|lia].
  replace (Z.to_nat (Z.max (Z.of_nat (length l) + - k) 0))
    with (length l - Z.to_nat k)%nat by lia.
  split; [reflexivity|]. rewrite length_drop. lia.
Qed.

Lemma buffer_seconds_scaled s :
  (16000 * get_buffer_seconds s == inject_Z (total_samples s))%Q.
Proof. unfold get_buffer_seconds. field. Qed.

Lemma py_slice_from_zero {A} (l : list A) : py_slice_from 0 l = l.
Proof.
  unfold py_slice_from, py_len. simpl.
  replace (Z.min 0 (Z.of_nat (length l))) with 0 by lia. reflexivity.
Qed.

Lemma get_audio_array_len s :
  total_samples s = stored_samples (audio_chunks s) ->
  py_len (get_audio_array s) = total_samples s.
Proof.
  intros Hs. unfold get_audio_array. rewrite Hs.
  destruct (audio_chunks s) as [|c cs]; [reflexivity|].
  apply stored_samples_concat.
Qed.

(** When [int(16000 * seconds)] is 0 the slice [full_audio[-0:]] is the
    whole array: a non-empty buffer is kept whole. *)
Lemma keep_audio_tail_zero s (seconds : Q) :
  py_int (16000 * seconds) = 0 -> 0 < total_samples s ->
  keep_audio_tail s seconds
  = set_audio s [get_audio_array s] (py_len (get_audio_array s)).
Proof.
  intros Hk Hpos. unfold keep_audio_tail. rewrite Hk.
  destruct (Z.leb_spec (total_samples s) 0); [lia|].
  change (- 0) with 0. rewrite py_slice_from_zero. reflexivity.
Qed.

Lemma keep_audio_tail_le s (seconds : Q) :
  total_samples s <= py_int (16000 * seconds) -> keep_audio_tail s seconds = s.
Proof.
  intros Hle. unfold keep_audio_tail.
  destruct (Z.leb_spec (total_samples s) (py_int (16000 * seconds))); [done|lia].
Qed.

Lemma keep_audio_tail_gt s (seconds : Q) :
  py_int (16000 * seconds) < total_samples s ->
  keep_audio_tail s seconds
  = set_audio s [py_slice_from (- py_int (16000 * seconds)) (get_audio_array s)]
      (py_len (py_slice_from (- py_int (16000 * seconds)) (get_audio_array s))).
Proof.
  intros Hlt. unfold keep_audio_tail.
  destruct (Z.leb_spec (total_samples s) (py_int (16000 * seconds))); [lia|done].
Qed.

Lemma get_audio_array_single s (a : list sample) n :
  get_audio_array (set_audio s [a] n) = a.
Proof. unfold get_audio_array. simpl. apply app_nil_r. Qed.

(** X6.  Applying [keep_audio_tail] twice, for the same non-negative
    number of seconds, is applying it once. *)
Lemma keep_audio_tail_idempotent s (seconds : Q) :
  total_samples s = stored_samples (audio_chunks s) ->
  (0 <= seconds)%Q ->
  keep_audio_tail (keep_audio_tail s seconds) seconds = keep_audio_tail s seconds.
Proof.
  intros Hs Hsec.
  assert (H0 : (0 <= 16000 * seconds)%Q) by lra.
  assert (Hk : 0 <= py_int (16000 * seconds)).
  { rewrite (py_int_floor _ H0).
    apply Qfloor_resp_le in H0. exact H0. }
  pose proof (get_audio_array_len s Hs) as Hfull.
  destruct (Z.le_gt_cases (total_samples s) (py_int (16000 * seconds)))
    as [Hle|Hlt].
  - rewrite (keep_audio_tail_le s seconds Hle).
    apply keep_audio_tail_le, Hle.
  - destruct (Z.eq_dec (py_int (16000 * seconds)) 0) as [E|NE].
    + rewrite (keep_audio_tail_zero s seconds E) by lia.
      rewrite keep_audio_tail_zero; [|exact E|simpl; lia].
      rewrite get_audio_array_single. reflexivity.
    + destruct (py_slice_from_last (py_int (16000 * seconds)) (get_audio_array s))
        as [_ Hl]; [lia|].
      rewrite (keep_audio_tail_gt s seconds Hlt).
      apply keep_audio_tail_le. simpl. lia.
Qed.


End ClientSessionFacts.

(** ** Speaker assignment *)

Section DiarizationFacts.

Import DiarizationEngine.

Lemma Qlt_bool_iff (a b : Q) : Qlt_bool a b = true <-> (a < b)%Q.
Proof.
  unfold Qlt_bool. rewrite negb_true_iff, <- not_true_iff_false, Qle_bool_iff.
  split; [apply Qnot_le_lt | apply Qlt_not_le].
Qed.

Lemma Qlt_bool_false_iff (a b : Q) : Qlt_bool a b = false <-> (b <= a)%Q.
Proof.
  unfold Qlt_bool. rewrite negb_false_iff. apply Qle_bool_iff.
Qed.

Lemma py_max_Qmax (a b : Q) : (py_max a b == Qmax a b)%Q.
Proof.
  unfold py_max. destruct (Qlt_bool a b) eqn:E.
  - apply Qlt_bool_iff in E. symmetry. apply Q.max_r, Qlt_le_weak, E.
  - apply Qlt_bool_false_iff in E. symmetry. apply Q.max_l, E.
Qed.

Lemma py_min_Qmin (a b : Q) : (py_min a b == Qmin a b)%Q.
Proof.
  unfold py_min. destruct (Qlt_bool b a) eqn:E.
  - apply Qlt_bool_iff in E. symmetry. apply Q.min_r, Qlt_le_weak, E.
  - apply Qlt_bool_false_iff in E. symmetry. apply Q.min_l, E.
Qed.

(** The overlap the loop computes is the length of the intersection of the
    word's interval with the segment's, and 0 when they are disjoint. *)
Lemma overlap_intersection w seg :
  (overlap w seg
   == Qmax 0 (Qmin (end_ w) (seg_end seg) - Qmax (start w) (seg_start seg)))%Q.
Proof.
  unfold overlap. rewrite py_max_Qmax.
  rewrite (py_min_Qmin (end_ w) (seg_end seg)).
  rewrite (py_max_Qmax (start w) (seg_start seg)). reflexivity.
Qed.

Lemma overlap_nonneg w seg : (0 <= overlap w seg)%Q.
Proof.
  unfold overlap, py_max.
  destruct (Qlt_bool 0 _) eqn:E; [|apply Qle_refl].
  apply Qlt_bool_iff in E. apply Qlt_le_weak, E.
Qed.

(** Past a point where no later segment contains the midpoint or beats the
    running maximum, the loop returns the speaker it holds. *)
Lemma scan_segments_keep w segments : forall assigned m,
  (forall x, In x segments ->
     contains_mid w x = false /\ (overlap w x <= m)%Q) ->
  scan_segments w segments assigned m = assigned.
Proof.
  induction segments as [|x rest IH]; intros assigned m Hall; [reflexivity|].
  simpl. destruct (Hall x (or_introl eq_refl)) as [Hmid Hov].
  rewrite Hmid. apply Qlt_bool_false_iff in Hov. rewrite Hov.
  apply IH. intros y Hy. apply Hall. right. exact Hy.
Qed.

(** The loop stops at the first segment that contains the midpoint. *)
Lemma scan_segments_mid w pre seg suf : forall assigned m,
  (forall x, In x pre -> contains_mid w x = false) ->
  contains_mid w seg = true ->
  scan_segments w (pre ++ seg :: suf) assigned m = Some (seg_speaker seg).
Proof.
  induction pre as [|x pre IH]; intros assigned m Hpre Hseg; simpl.
  - rewrite Hseg. reflexivity.
  - rewrite (Hpre x (or_introl eq_refl)).
    destruct (Qlt_bool m (overlap w x));
      apply IH; auto; intros y Hy; apply Hpre; right; exact Hy.
Qed.

(** With no segment containing the midpoint, the loop returns the first
    segment whose overlap is the largest, when that overlap beats the
    running maximum. *)
Lemma scan_segments_max w pre seg suf : forall assigned m,
  (forall x, In x (pre ++ seg :: suf) -> contains_mid w x = false) ->
  (m < overlap w seg)%Q ->
  (forall x, In x pre -> (overlap w x < overlap w seg)%Q) ->
  (forall x, In x suf -> (overlap w x <= overlap w seg)%Q) ->
  scan_segments w (pre ++ seg :: suf) assigned m = Some (seg_speaker seg).
Proof.
  induction pre as [|x pre IH]; intros assigned m Hmid Hm Hpre Hsuf; simpl.
  - rewrite (Hmid seg (or_introl eq_refl)).
    apply Qlt_bool_iff in Hm. rewrite Hm.
    apply scan_segments_keep. intros y Hy. split; [|apply Hsuf, Hy].
    apply Hmid. right. exact Hy.
  - rewrite (Hmid x (or_introl eq_refl)).
    assert (Hmid' : forall y, In y (pre ++ seg :: suf) -> contains_mid w y = false)
      by (intros y Hy; apply Hmid; right; exact Hy).
    assert (Hpre' : forall y, In y pre -> (overlap w y < overlap w seg)%Q)
      by (intros y Hy; apply Hpre; right; exact Hy).
    destruct (Qlt_bool m (overlap w x)); apply IH; auto.
    apply Hpre. left. reflexivity.
Qed.

(** C5, as the code has it.  With no segment the words come back as they
    are, with no label.  Otherwise every word keeps its fields and gets a
    label: the speaker of the first segment, in list order, that contains
    the word's midpoint when there is one; failing that, the speaker of the
    first segment whose overlap with the word is positive and largest;
    and ["Unknown"] when no segment has a positive overlap.  (A speaker
    that is the empty string reads as ["Unknown"].) *)
Theorem assign_speakers_to_words_spec
    (words : list Word) (segments : list Segment) :
  (segments = [] -> assign_speakers_to_words words segments = words)
  /\ (segments <> [] ->
      assign_speakers_to_words words segments
      = map (fun w => with_speaker w (assign_speaker segments w)) words)
  /\ (forall w,
        (forall pre seg suf,
           segments = pre ++ seg :: suf ->
           (forall x, In x pre -> contains_mid w x = false) ->
           contains_mid w seg = true ->
           assign_speaker segments w = or_unknown (Some (seg_speaker seg)))
        /\ (forall pre seg suf,
              segments = pre ++ seg :: suf ->
              (forall x, In x segments -> contains_mid w x = false) ->
              (0 < overlap w seg)%Q ->
              (forall x, In x pre -> (overlap w x < overlap w seg)%Q) ->
              (forall x, In x suf -> (overlap w x <= overlap w seg)%Q) ->
              assign_speaker segments w = or_unknown (Some (seg_speaker seg)))
        /\ ((forall x, In x segments ->
               contains_mid w x = false /\ (overlap w x <= 0)%Q) ->
            assign_speaker segments w = "Unknown")).
Proof.
  split; [intros ->; reflexivity|].
  split; [destruct segments; [congruence | reflexivity]|].
  intros w. unfold assign_speaker. split; [|split].
  - intros pre seg suf -> Hpre Hseg.
    rewrite (scan_segments_mid w pre seg suf None 0 Hpre Hseg). reflexivity.
  - intros pre seg suf -> Hmid Hpos Hpre Hsuf.
    rewrite (scan_segments_max w pre seg suf None 0 Hmid Hpos Hpre Hsuf).
    reflexivity.
  - intros Hnone. rewrite (scan_segments_keep w segments None 0 Hnone).
    reflexivity.
Qed.

(** The specification's example: the word from 1.0 to 2.0 against
    SPEAKER_00 on 0-1.4 and SPEAKER_01 on 1.4-3.0 goes to SPEAKER_01. *)
Lemma assign_speakers_to_words_spec_witness :
  assign_speaker
    [mkSegment "SPEAKER_00" 0 (14 # 10); mkSegment "SPEAKER_01" (14 # 10) 3]
    (mkWord "hello" 1 2 None)
  = "SPEAKER_01".
Proof.
  apply (proj1 (proj2 (proj2
           (assign_speakers_to_words_spec []
              [mkSegment "SPEAKER_00" 0 (14 # 10);
               mkSegment "SPEAKER_01" (14 # 10) 3]))
           (mkWord "hello" 1 2 None))
           [mkSegment "SPEAKER_00" 0 (14 # 10)]
           (mkSegment "SPEAKER_01" (14 # 10) 3) []).
  - reflexivity.
  - intros x [<-|[]]. reflexivity.
  - reflexivity.
Defined.

(** C5 as stated fails on a tie and on an empty segment list: the word from
    0 to 4 overlaps A (0-1) and B (3-4) equally, neither contains its
    midpoint, and it is labelled A, not ["Unknown"]; and with no segment
    the word gets no label at all. *)
Lemma assign_speakers_tie_takes_first :
  contains_mid (mkWord "hi" 0 4 None) (mkSegment "A" 0 1) = false
  /\ contains_mid (mkWord "hi" 0 4 None) (mkSegment "B" 3 4) = false
  /\ (overlap (mkWord "hi" 0 4 None) (mkSegment "A" 0 1)
      == overlap (mkWord "hi" 0 4 None) (mkSegment "B" 3 4))%Q
  /\ map speaker
       (assign_speakers_to_words [mkWord "hi" 0 4 None]
          [mkSegment "A" 0 1; mkSegment "B" 3 4])
     = [Some "A"]
  /\ map speaker
       (assign_speakers_to_words [mkWord "hi" 0 4 None]
          [mkSegment "A" 0 1; mkSegment "B" 3 4])
     <> [Some "Unknown"]
  /\ map speaker (assign_speakers_to_words [mkWord "hi" 0 4 None] [])
     = [None].
Proof.
  repeat split; try reflexivity. discriminate.
Qed.

(** ** Speaker names *)

Lemma unique_speakers_perm speakers :
  unique_speakers speakers ≡ₚ remove_dups speakers.
Proof.
  unfold unique_speakers. rewrite merge_sort_Permutation.
  apply NoDup_Permutation; [apply NoDup_elements | apply NoDup_remove_dups |].
  intros x. rewrite elem_of_elements, elem_of_list_to_set, elem_of_remove_dups.
  reflexivity.
Qed.

Lemma unique_speakers_sorted speakers :
  StronglySorted String.le (unique_speakers speakers).
Proof. apply StronglySorted_merge_sort; apply _. Qed.

Lemma unique_speakers_NoDup speakers : NoDup (unique_speakers speakers).
Proof. rewrite unique_speakers_perm. apply NoDup_remove_dups. Qed.

Lemma elem_of_unique_speakers speakers x :
  x ∈ unique_speakers speakers <-> x ∈ speakers.
Proof. rewrite unique_speakers_perm. apply elem_of_remove_dups. Qed.

Lemma filter_none {A} (P : A -> Prop) `{forall x, Decision (P x)} (l : list A) :
  (forall x, x ∈ l -> ~ P x) -> filter P l = [].
Proof.
  induction l as [|x l IH]; intros Hl; [reflexivity|].
  rewrite filter_cons_False by (apply Hl; left).
  apply IH. intros y Hy. apply Hl. right. exact Hy.
Qed.

(** In a sorted list without repetition, the position of an element is the
    number of elements strictly before it in the order. *)
Lemma sorted_position (l : list string) : forall i label,
  StronglySorted String.le l -> NoDup l -> l !! i = Some label ->
  length (filter (fun x => x <> label /\ String.le x label) l) = i.
Proof.
  induction l as [|x l IH]; intros i label Hsorted Hnodup Hi; [done|].
  apply StronglySorted_inv in Hsorted as [Hsorted Hx].
  apply NoDup_cons in Hnodup as [Hnotin Hnodup].
  rewrite Forall_forall in Hx.
  destruct i as [|i]; simpl in Hi.
  - injection Hi as ->. rewrite filter_cons_False by (intros [? _]; done).
    rewrite filter_none; [reflexivity|].
    intros y Hy [Hne Hle]. apply Hne.
    apply (anti_symm String.le); [exact Hle | apply Hx, Hy].
  - assert (Hin : label ∈ l) by (eapply list_elem_of_lookup_2; exact Hi).
    rewrite filter_cons_True.
    + simpl. f_equal. apply IH; assumption.
    + split; [|apply Hx, Hin]. intros ->. contradiction.
Qed.

Lemma string_app_cancel (p a b : string) : p +:+ a = p +:+ b -> a = b.
Proof.
  induction p as [|c p IH]; simpl; intros E; [exact E|].
  injection E as E. apply IH, E.
Qed.

Lemma speaker_name_inj i j : speaker_name i = speaker_name j -> i = j.
Proof.
  unfold speaker_name. intros E. apply string_app_cancel in E.
  apply (inj pretty) in E. lia.
Qed.

Lemma format_speakers_keys speakers :
  (imap (fun i label => (label, speaker_name i)) (unique_speakers speakers)).*1
  = unique_speakers speakers.
Proof.
  rewrite fmap_imap. rewrite (imap_ext _ (const id)) by done.
  rewrite imap_const. apply list_fmap_id.
Qed.

Lemma format_speakers_lookup speakers label name :
  format_speakers speakers !! label = Some name
  <-> exists i, unique_speakers speakers !! i = Some label /\ name = speaker_name i.
Proof.
  unfold format_speakers. rewrite <- elem_of_list_to_map.
  - rewrite elem_of_lookup_imap. split.
    + intros (i & y & E & Hy). injection E as -> ->. eauto.
    + intros (i & Hi & ->). eauto.
  - rewrite format_speakers_keys. apply unique_speakers_NoDup.
Qed.

(** C6, as the code has it.  [format_speakers] names exactly the labels of
    the input; the label with [k] distinct labels of the input strictly
    before it in sorted order is named "Speaker k+1"; and two labels with
    the same name are the same label. *)
Theorem format_speakers_sorted_order (speakers : list string) :
  (forall label,
     label ∈ speakers ->
     format_speakers speakers !! label
     = Some ("Speaker " +:+ pretty (S (labels_below speakers label))))
  /\ (forall label,
        label ∉ speakers -> format_speakers speakers !! label = None)
  /\ (forall l1 l2 name,
        format_speakers speakers !! l1 = Some name ->
        format_speakers speakers !! l2 = Some name -> l1 = l2).
Proof.
  split; [|split].
  - intros label Hin. apply elem_of_unique_speakers in Hin.
    apply list_elem_of_lookup_1 in Hin as [i Hi].
    apply format_speakers_lookup. exists i. split; [exact Hi|].
    unfold speaker_name, labels_below. do 3 f_equal.
    rewrite <- (unique_speakers_perm speakers).
    first [apply sorted_position | symmetry; apply sorted_position];
      [apply unique_speakers_sorted | apply unique_speakers_NoDup | exact Hi].
  - intros label Hnotin. unfold format_speakers.
    apply not_elem_of_list_to_map_1. rewrite format_speakers_keys.
    rewrite elem_of_unique_speakers. exact Hnotin.
  - intros l1 l2 name H1 H2.
    apply format_speakers_lookup in H1 as (i & Hi & ->).
    apply format_speakers_lookup in H2 as (j & Hj & E).
    apply speaker_name_inj in E as ->. congruence.
Qed.

Lemma format_speakers_sorted_order_witness :
  format_speakers ["SPEAKER_01"; "SPEAKER_00"; "SPEAKER_01"] !! "SPEAKER_01"
  = Some "Speaker 2".
Proof.
  rewrite (proj1 (format_speakers_sorted_order
                    ["SPEAKER_01"; "SPEAKER_00"; "SPEAKER_01"]) "SPEAKER_01").
  - vm_compute. reflexivity.
  - apply list_elem_of_In. simpl. left. reflexivity.
Defined.

Lemma format_speakers_swapped :
  format_speakers ["SPEAKER_01"; "SPEAKER_00"] !! "SPEAKER_01" = Some "Speaker 2".
Proof. vm_compute. reflexivity. Qed.

Lemma format_speakers_first_seen_swapped :
  format_speakers_first_seen ["SPEAKER_01"; "SPEAKER_00"] !! "SPEAKER_01"
  = Some "Speaker 1".
Proof. vm_compute. reflexivity. Qed.

(** C6 as stated fails: on SPEAKER_01 followed by SPEAKER_00 the first
    label seen is named "Speaker 2" by the code and "Speaker 1" by first-seen
    order. *)
Lemma format_speakers_not_first_seen :
  format_speakers ["SPEAKER_01"; "SPEAKER_00"] !! "SPEAKER_01" = Some "Speaker 2"
  /\ format_speakers_first_seen ["SPEAKER_01"; "SPEAKER_00"] !! "SPEAKER_01"
     = Some "Speaker 1"
  /\ format_speakers ["SPEAKER_01"; "SPEAKER_00"]
     <> format_speakers_first_seen ["SPEAKER_01"; "SPEAKER_00"].
Proof.
  split; [exact format_speakers_swapped|].
  split; [exact format_speakers_first_seen_swapped|].
  intros E. pose proof format_speakers_swapped as H1.
  pose proof format_speakers_first_seen_swapped as H2.
  rewrite E in H1. rewrite H1 in H2. discriminate.
Qed.

End DiarizationFacts.

(** ** The server: stop, interval transcription, keep-warm and the pool *)

Section MuteServerFacts.

Import MuteServer.

Context {engine : Type} `{EngineHandle engine}.

Lemma touch_last_inference_frame now m (w : t (engine := engine)) :
  sent (touch_last_inference now m w) = sent w
  /\ calls (touch_last_inference now m w) = calls w
  /\ heap (touch_last_inference now m w) = heap w
  /\ engines (touch_last_inference now m w) = engines w
  /\ loaded_models (touch_last_inference now m w) = loaded_models w
  /\ default_model (touch_last_inference now m w) = default_model w
  /\ diarization_engine (touch_last_inference now m w) = diarization_engine w.
Proof.
  unfold touch_last_inference.
  destruct m as [m|]; [destruct (str_truthy m)|]; repeat split.
Qed.

(** C10.  [handle_stop] on a session that is not recording sends nothing
    and leaves the server as it was; the session keeps its audio buffer,
    its recording flag, its interval bookkeeping and its engine binding,
    and only a watchdog task that is not done is cancelled. *)
Theorem handle_stop_not_recording (now : Q) (websocket : nat)
    (session : ClientSession.t) (w : t (engine := engine)) :
  ClientSession.is_recording session = false ->
  snd (handle_stop now websocket session w) = w
  /\ sent (snd (handle_stop now websocket session w)) = sent w
  /\ fst (handle_stop now websocket session w)
     = ClientSession.set_audio_watchdog_task session
         (task_cancel <$> ClientSession.audio_watchdog_task session)
  /\ ClientSession.audio_chunks (fst (handle_stop now websocket session w))
     = ClientSession.audio_chunks session
  /\ ClientSession.total_samples (fst (handle_stop now websocket session w))
     = ClientSession.total_samples session
  /\ ClientSession.is_recording (fst (handle_stop now websocket session w))
     = false
  /\ ClientSession.has_done_first_interval
       (fst (handle_stop now websocket session w))
     = ClientSession.has_done_first_interval session
  /\ ClientSession.active_engine (fst (handle_stop now websocket session w))
     = ClientSession.active_engine session
  /\ ClientSession.active_model (fst (handle_stop now websocket session w))
     = ClientSession.active_model session
  /\ ClientSession.audio_watchdog_task
       (fst (handle_stop now websocket session w))
     = match ClientSession.audio_watchdog_task session with
       | Some TaskPending => Some TaskCancelling
       | k => k
       end.
Proof.
  intros Hrec. destruct session as [rec ch tot cm lp ae am hd de wd fa].
  simpl in Hrec. subst rec. unfold handle_stop.
  destruct wd as [[| |]|]; simpl; repeat split.
Qed.

(** C7, for a session that is recording.  [handle_stop] with an empty
    buffer sends the final message with the empty text and timestamp 0, and
    invokes no transcription on any engine: the only call is [end_session]
    on the bound engine, when there is one.  The session ends not
    recording, with an empty buffer. *)
Theorem handle_stop_empty_buffer (now : Q) (websocket : nat)
    (session : ClientSession.t) (w : t (engine := engine)) :
  ClientSession.is_recording session = true ->
  ClientSession.total_samples session = 0 ->
  sent (snd (handle_stop now websocket session w))
  = sent w ++ [(websocket,
                [("type", JStr "final"); ("text", JStr "");
                 ("timestamp", JInt 0)])]
  /\ calls (snd (handle_stop now websocket session w))
     = calls w ++ match ClientSession.active_engine session with
                  | Some r => [(r, CallEndSession)]
                  | None => []
                  end
  /\ filter (fun c => is_transcription_call (snd c) = true)
       (calls (snd (handle_stop now websocket session w)))
     = filter (fun c => is_transcription_call (snd c) = true) (calls w)
  /\ ClientSession.is_recording (fst (handle_stop now websocket session w))
     = false
  /\ ClientSession.audio_chunks (fst (handle_stop now websocket session w)) = []
  /\ ClientSession.total_samples (fst (handle_stop now websocket session w)) = 0.
Proof.
  intros Hrec Htot. destruct session as [rec ch tot cm lp ae am hd de wd fa].
  simpl in Hrec, Htot. subst rec tot.
  assert (Hcalls :
    calls (snd (handle_stop now websocket
                  (ClientSession.mk true ch 0 cm lp ae am hd de wd fa) w))
    = calls w ++ match ae with Some r => [(r, CallEndSession)] | None => [] end).
  { unfold handle_stop.
    destruct wd as [[| |]|]; simpl;
      destruct ae as [r|]; simpl;
      destruct (touch_last_inference_frame now am
                  (send websocket
                     [("type", JStr "final"); ("text", JStr "");
                      ("timestamp", JInt 0)] w))
        as (_ & Hc & _); rewrite ?Hc; simpl; rewrite ?app_nil_r; reflexivity. }
  split; [|split; [exact Hcalls|split]].
  - unfold handle_stop.
    destruct wd as [[| |]|]; simpl;
      destruct ae as [r|]; simpl;
      destruct (touch_last_inference_frame now am
                  (send websocket
                     [("type", JStr "final"); ("text", JStr "");
                      ("timestamp", JInt 0)] w))
        as (Hs & _); rewrite ?Hs; reflexivity.
  - simpl ClientSession.active_engine. rewrite Hcalls, filter_app.
    destruct ae as [r|]; simpl; [|apply app_nil_r].
    rewrite filter_cons_False by (simpl; discriminate).
    apply app_nil_r.
  - unfold handle_stop. destruct wd as [[| |]|]; simpl; repeat split.
Qed.

(** The context skip keeps the words that start at 1.5 s or later, in
    order, and on a first interval keeps every word. *)
Lemma context_skip_later (words : list DiarizationEngine.Word) :
  context_skip true words
  = List.filter (fun x => Qle_bool (3 # 2) (DiarizationEngine.start x)) words.
Proof.
  destruct words as [|x words]; [reflexivity|].
  unfold context_skip. apply List.filter_ext. intros y.
  apply Qleb_comp; reflexivity.
Qed.

Lemma context_skip_first (words : list DiarizationEngine.Word) :
  context_skip false words = words.
Proof. destruct words; reflexivity. Qed.

Lemma context_skip_In (words : list DiarizationEngine.Word) x :
  In x (context_skip true words)
  <-> In x words /\ (3 # 2 <= DiarizationEngine.start x)%Q.
Proof.
  rewrite context_skip_later, List.filter_In, Qle_bool_iff. reflexivity.
Qed.

(** Diarization relabels the words it is given: it neither drops nor adds
    nor reorders any. *)
Lemma apply_diarization_words enabled d audio words :
  map DiarizationEngine.word (fst (apply_diarization enabled d audio words))
  = map DiarizationEngine.word words
  /\ map DiarizationEngine.start (fst (apply_diarization enabled d audio words))
     = map DiarizationEngine.start words.
Proof.
  unfold apply_diarization.
  destruct enabled; [|done]. destruct d as [d|]; [|done].
  destruct words as [|x words]; [done|].
  destruct (dz_is_loaded d); [|done].
  destruct (diarize d audio) as [|seg segs]; [done|].
  cbn [fst]. unfold DiarizationEngine.assign_speakers_to_words.
  rewrite !map_map. split; reflexivity.
Qed.

(** C1.  An interval transcription that reaches the engine (the session is
    recording, holds at least 3 s of audio and is bound to an engine with
    word timestamps that answers with [result]) sends one
    [interval_transcription] message whose text is assembled from the words
    that passed the context skip, relabelled by diarization when it applies
    and otherwise joined by spaces.  Once the session has done its first
    interval the skip keeps exactly the words whose start is at least
    1.5 s (context 2.0 less 0.5) and drops every word that starts before;
    on the first interval it keeps them all. *)
Theorem interval_context_skip (now : Q) (websocket : nat)
    (session : ClientSession.t) (w : t (engine := engine)) (r : nat)
    (result : TimestampResult) :
  ClientSession.is_recording session = true ->
  ClientSession.total_samples session <> 0 ->
  ClientSession.active_engine session = Some r ->
  (context_seconds + 1 <= ClientSession.get_buffer_seconds session)%Q ->
  has_transcribe_with_timestamps (heap w r) = true ->
  snd (transcribe_with_timestamps (heap w r)
         (ClientSession.get_audio_array session)) = Ok result ->
  (context_seconds - (1 # 2) == 3 # 2)%Q
  /\ sent (snd (handle_transcribe_interval now websocket session w))
     = sent w
       ++ [(websocket,
            [("type", JStr "interval_transcription");
             ("text",
              JStr (format_text
                      (fst (apply_diarization
                              (ClientSession.diarization_enabled session)
                              (diarization_engine w)
                              (ClientSession.get_audio_array session)
                              (context_skip
                                 (ClientSession.has_done_first_interval session)
                                 (ts_words result))))
                      (snd (apply_diarization
                              (ClientSession.diarization_enabled session)
                              (diarization_engine w)
                              (ClientSession.get_audio_array session)
                              (context_skip
                                 (ClientSession.has_done_first_interval session)
                                 (ts_words result))))));
             ("speakers",
              JStrs (snd (apply_diarization
                            (ClientSession.diarization_enabled session)
                            (diarization_engine w)
                            (ClientSession.get_audio_array session)
                            (context_skip
                               (ClientSession.has_done_first_interval session)
                               (ts_words result)))));
             ("is_final", JBool false)])]
  /\ map DiarizationEngine.word
       (fst (apply_diarization
               (ClientSession.diarization_enabled session)
               (diarization_engine w)
               (ClientSession.get_audio_array session)
               (context_skip (ClientSession.has_done_first_interval session)
                  (ts_words result))))
     = map DiarizationEngine.word
         (context_skip (ClientSession.has_done_first_interval session)
            (ts_words result))
  /\ (ClientSession.diarization_enabled session = false ->
      msg_get "text"
        (snd (List.last (sent (snd (handle_transcribe_interval now websocket
                                      session w)))
                (websocket, [])))
      = Some (JStr (py_strip
                      (py_join " "
                         (map DiarizationEngine.word
                            (context_skip
                               (ClientSession.has_done_first_interval session)
                               (ts_words result)))))))
  /\ (ClientSession.has_done_first_interval session = true ->
      context_skip (ClientSession.has_done_first_interval session)
        (ts_words result)
      = List.filter (fun x => Qle_bool (3 # 2) (DiarizationEngine.start x))
          (ts_words result)
      /\ (forall x,
            In x (context_skip (ClientSession.has_done_first_interval session)
                    (ts_words result))
            <-> In x (ts_words result)
                /\ (3 # 2 <= DiarizationEngine.start x)%Q)
      /\ (forall x,
            In x (ts_words result) ->
            (DiarizationEngine.start x < 3 # 2)%Q ->
            ~ In x (context_skip
                      (ClientSession.has_done_first_interval session)
                      (ts_words result))))
  /\ (ClientSession.has_done_first_interval session = false ->
      context_skip (ClientSession.has_done_first_interval session)
        (ts_words result)
      = ts_words result)
  /\ ClientSession.has_done_first_interval
       (fst (handle_transcribe_interval now websocket session w)) = true.
Proof.
  intros Hrec Htot Hr Hbuf Hcap Hres.
  assert (Hsent :
    sent (snd (handle_transcribe_interval now websocket session w))
    = sent w
      ++ [(websocket,
           [("type", JStr "interval_transcription");
            ("text",
             JStr (format_text
                     (fst (apply_diarization
                             (ClientSession.diarization_enabled session)
                             (diarization_engine w)
                             (ClientSession.get_audio_array session)
                             (context_skip
                                (ClientSession.has_done_first_interval session)
                                (ts_words result))))
                     (snd (apply_diarization
                             (ClientSession.diarization_enabled session)
                             (diarization_engine w)
                             (ClientSession.get_audio_array session)
                             (context_skip
                                (ClientSession.has_done_first_interval session)
                                (ts_words result))))));
            ("speakers",
             JStrs (snd (apply_diarization
                           (ClientSession.diarization_enabled session)
                           (diarization_engine w)
                           (ClientSession.get_audio_array session)
                           (context_skip
                              (ClientSession.has_done_first_interval session)
                              (ts_words result)))));
            ("is_final", JBool false)])]
    /\ ClientSession.has_done_first_interval
         (fst (handle_transcribe_interval now websocket session w)) = true).
  { unfold handle_transcribe_interval. rewrite Hrec, Hr. simpl negb. cbv iota.
    destruct (Z.eqb_spec (ClientSession.total_samples session) 0); [done|].
    assert (Hq : Qlt_bool (ClientSession.get_buffer_seconds session)
                   (context_seconds + 1) = false)
      by (apply Qlt_bool_false_iff, Hbuf).
    rewrite Hq, Hcap. unfold call_transcribe_with_timestamps.
    destruct (transcribe_with_timestamps (heap w r)
                (ClientSession.get_audio_array session)) as [e res].
    simpl in Hres. subst res. cbn [diarization_engine after_call set_store].
    destruct (apply_diarization _ _ _ _) as [words' speakers]. cbn [fst snd].
    match goal with |- context [touch_last_inference ?a ?b ?c] =>
      destruct (touch_last_inference_frame a b c) as (Hs & _)
    end.
    rewrite Hs. split; [reflexivity|].
    unfold ClientSession.keep_audio_tail.
    destruct (_ <=? _); reflexivity. }
  destruct Hsent as [Hsent Hdone].
  split; [reflexivity|]. split; [exact Hsent|].
  split; [apply apply_diarization_words|].
  split.
  { intros Hoff. rewrite Hsent, List.last_last. rewrite Hoff. simpl.
    destruct (context_skip _ _); reflexivity. }
  split.
  { intros ->. split; [apply context_skip_later|].
    split; [apply context_skip_In|].
    intros x Hx Hlt Hin. apply context_skip_In in Hin as [_ Hle].
    apply (Qlt_not_le _ _ Hlt Hle). }
  split; [intros ->; apply context_skip_first | exact Hdone].
Qed.

(** *** Insertion-ordered dicts *)

Lemma dict_get_del_eq {V} (k : string) (d : list (string * V)) :
  dict_get k (dict_del k d) = None.
Proof.
  induction d as [|[k' v] d IH]; simpl; [reflexivity|].
  destruct (String.eqb k' k) eqn:E; [exact IH|]. simpl. rewrite E. exact IH.
Qed.

Lemma dict_get_del_ne {V} (k k' : string) (d : list (string * V)) :
  k <> k' -> dict_get k' (dict_del k d) = dict_get k' d.
Proof.
  intros Hne. induction d as [|[k0 v] d IH]; simpl; [reflexivity|].
  destruct (String.eqb_spec k0 k) as [->|Hk].
  - destruct (String.eqb_spec k k'); [contradiction | exact IH].
  - simpl. destruct (String.eqb k0 k'); [reflexivity | exact IH].
Qed.

Lemma dict_del_absent {V} (k : string) (d : list (string * V)) :
  dict_get k d = None -> dict_del k d = d.
Proof.
  induction d as [|[k0 v] d IH]; simpl; [reflexivity|].
  destruct (String.eqb k0 k); [discriminate|]. intros E. f_equal. apply IH, E.
Qed.

Lemma dict_get_keys {V} (k : string) (d : list (string * V)) :
  k ∈ dict_keys d <-> is_Some (dict_get k d).
Proof.
  unfold dict_keys. induction d as [|[k0 v] d IH]; simpl.
  - split; [intros Hin; inversion Hin | intros [x Hx]; discriminate].
  - rewrite elem_of_cons, IH.
    destruct (String.eqb_spec k0 k) as [->|Hk]; [split; eauto|].
    split; [intros [->|Hd]; [contradiction | exact Hd] | auto].
Qed.

Lemma dict_keys_del {V} (k : string) (d : list (string * V)) :
  (list_to_set (dict_keys (dict_del k d)) : gset string)
  = list_to_set (dict_keys d) ∖ {[k]}.
Proof.
  apply set_eq. intros x.
  rewrite elem_of_difference, !elem_of_list_to_set, !dict_get_keys,
    not_elem_of_singleton.
  destruct (decide (x = k)) as [->|Hne].
  - rewrite dict_get_del_eq. split; [intros [y Hy]; discriminate | tauto].
  - rewrite dict_get_del_ne by auto. tauto.
Qed.

Lemma dict_get_set_eq {V} (k : string) (v : V) (d : list (string * V)) :
  dict_get k (dict_set k v d) = Some v.
Proof.
  induction d as [|[k0 v0] d IH]; simpl.
  - rewrite String.eqb_refl. reflexivity.
  - destruct (String.eqb k0 k) eqn:E; simpl.
    + rewrite String.eqb_refl. reflexivity.
    + rewrite E. exact IH.
Qed.

Lemma dict_get_set_ne {V} (k k' : string) (v : V) (d : list (string * V)) :
  k <> k' -> dict_get k' (dict_set k v d) = dict_get k' d.
Proof.
  intros Hne. induction d as [|[k0 v0] d IH]; simpl.
  - destruct (String.eqb_spec k k'); [contradiction | reflexivity].
  - destruct (String.eqb_spec k0 k) as [->|Hk]; simpl.
    + destruct (String.eqb_spec k k'); [contradiction | reflexivity].
    + destruct (String.eqb k0 k'); [reflexivity | exact IH].
Qed.

Lemma dict_keys_set {V} (k : string) (v : V) (d : list (string * V)) :
  (list_to_set (dict_keys (dict_set k v d)) : gset string)
  = list_to_set (dict_keys d) ∪ {[k]}.
Proof.
  apply set_eq. intros x.
  rewrite elem_of_union, !elem_of_list_to_set, !dict_get_keys,
    elem_of_singleton.
  destruct (decide (x = k)) as [->|Hne].
  - rewrite dict_get_set_eq. split; eauto.
  - rewrite dict_get_set_ne by auto. split; [auto | intros [?|?]; done].
Qed.

Lemma dict_del_In {V} (k : string) (d : list (string * V)) x :
  In x (dict_del k d) -> In x d.
Proof.
  induction d as [|[k0 v] d IH]; simpl; [auto|].
  destruct (String.eqb k0 k); simpl; [auto|]. intros [<-|Hx]; auto.
Qed.

Lemma dict_del_NoDup {V A} (f : string * V -> A) (k : string)
    (d : list (string * V)) :
  NoDup (map f d) -> NoDup (map f (dict_del k d)).
Proof.
  induction d as [|[k0 v] d IH]; simpl; [auto|].
  intros Hnd. apply NoDup_cons in Hnd as [Hnotin Hnd].
  destruct (String.eqb k0 k); [auto|]. simpl.
  apply NoDup_cons. split; [|auto].
  rewrite list_elem_of_In, in_map_iff in *.
  intros (x & E & Hx). apply Hnotin. exists x. split; [exact E|].
  eapply dict_del_In, Hx.
Qed.

Lemma dict_get_In {V} (k : string) (d : list (string * V)) (v : V) :
  dict_get k d = Some v -> In (k, v) d.
Proof.
  induction d as [|[k0 v0] d IH]; simpl; [discriminate|].
  destruct (String.eqb_spec k0 k) as [->|_]; [|auto].
  intros E. injection E as ->. auto.
Qed.

(** No value is bound to two keys when the values are distinct. *)
Lemma dict_value_key {V} (d : list (string * V)) (k k' : string) (v : V) :
  NoDup (map snd d) -> In (k, v) d -> In (k', v) d -> k = k'.
Proof.
  induction d as [|[k0 v0] d IH]; simpl; [intros _ []|].
  intros Hnd. apply NoDup_cons in Hnd as [Hnotin Hnd].
  assert (Hin : forall x, In (x, v0) d -> False).
  { intros x Hx. apply Hnotin, list_elem_of_In, in_map_iff.
    exists (x, v0). auto. }
  intros [E|H1] [E'|H2].
  - congruence.
  - injection E as <- <-. destruct (Hin k' H2).
  - injection E' as <- <-. destruct (Hin k H1).
  - exact (IH Hnd H1 H2).
Qed.

(** *** Unloading a model *)

(** Notifying the clients changes nothing but the outbox. *)
Lemma notify_frame (msg : message) (cs : list nat) : forall w : t (engine := engine),
  engines (foldl (fun w client => send client msg w) w cs) = engines w
  /\ loaded_models (foldl (fun w client => send client msg w) w cs)
     = loaded_models w
  /\ default_model (foldl (fun w client => send client msg w) w cs)
     = default_model w
  /\ last_inference_time (foldl (fun w client => send client msg w) w cs)
     = last_inference_time w.
Proof.
  induction cs as [|c cs IH]; intros w; simpl; [repeat split|].
  destruct (IH (send c msg w)) as (-> & -> & -> & ->). repeat split.
Qed.

Lemma unload_model_absent model_id (w : t (engine := engine)) :
  dict_get model_id (engines w) = None -> _unload_model model_id w = w.
Proof. intros E. unfold _unload_model. rewrite E. reflexivity. Qed.

(** What [_unload_model] does to the pool when the engine's [unload]
    returns. *)
Lemma unload_model_present model_id r (w : t (engine := engine)) :
  unload_never_raises ->
  dict_get model_id (engines w) = Some r ->
  engines (_unload_model model_id w) = dict_del model_id (engines w)
  /\ loaded_models (_unload_model model_id w)
     = loaded_models w ∖ {[model_id]}
  /\ last_inference_time (_unload_model model_id w)
     = delete model_id (last_inference_time w)
  /\ default_model (_unload_model model_id w)
     = if String.eqb (default_model w) model_id then
         match dict_del model_id (engines w) with
         | (first, _) :: _ => first
         | [] => default_model w
         end
       else default_model w.
Proof.
  intros Hok E. unfold _unload_model. rewrite E.
  destruct (has_unload (heap w r)).
  - unfold call_unload. pose proof (Hok (heap w r)) as Hr.
    destruct (unload (heap w r)) as [e res]. simpl in Hr. subst res.
    match goal with |- context [foldl ?f ?a ?l] =>
      destruct (notify_frame
                  [("type", JStr "model_unloaded"); ("model", JStr model_id)]
                  l a) as (-> & -> & -> & ->)
    end.
    repeat split.
  - match goal with |- context [foldl ?f ?a ?l] =>
      destruct (notify_frame
                  [("type", JStr "model_unloaded"); ("model", JStr model_id)]
                  l a) as (-> & -> & -> & ->)
    end.
    repeat split.
Qed.

(** [_unload_model] keeps [loaded_models] and [engines] in step, whether or
    not the engine's [unload] raises. *)
Lemma unload_model_wf model_id (w : t (engine := engine)) :
  pool_wf w -> pool_wf (_unload_model model_id w).
Proof.
  unfold pool_wf. intros Hwf. unfold _unload_model.
  destruct (dict_get model_id (engines w)) as [r|]; [|exact Hwf].
  destruct (has_unload (heap w r)).
  - unfold call_unload. destruct (unload (heap w r)) as [e [[]|msg]];
      match goal with |- context [foldl ?f ?a ?l] =>
        destruct (notify_frame
                    [("type", JStr "model_unloaded"); ("model", JStr model_id)]
                    l a) as (-> & -> & _)
      end; simpl; [|exact Hwf].
    rewrite dict_keys_del, Hwf. reflexivity.
  - match goal with |- context [foldl ?f ?a ?l] =>
      destruct (notify_frame
                  [("type", JStr "model_unloaded"); ("model", JStr model_id)]
                  l a) as (-> & -> & _)
    end; simpl.
    rewrite dict_keys_del, Hwf. reflexivity.
Qed.

Lemma unload_model_pool model_id (w : t (engine := engine)) :
  unload_never_raises -> pool_wf w ->
  loaded_models (_unload_model model_id w) = loaded_models w ∖ {[model_id]}
  /\ engines (_unload_model model_id w) = dict_del model_id (engines w).
Proof.
  intros Hok Hwf. destruct (dict_get model_id (engines w)) as [r|] eqn:E.
  - destruct (unload_model_present model_id r w Hok E) as (-> & -> & _).
    split; reflexivity.
  - rewrite (unload_model_absent model_id w E).
    rewrite (dict_del_absent _ _ E). split; [|reflexivity].
    assert (Hnot : model_id ∉ loaded_models w).
    { rewrite Hwf, elem_of_list_to_set, dict_get_keys, E.
      intros [x Hx]. discriminate. }
    apply set_eq. intros x.
    rewrite elem_of_difference, not_elem_of_singleton.
    split; [intros Hx; split; [exact Hx | intros ->; contradiction] | tauto].
Qed.

(** A pass that unloads the models of a list. *)
Lemma unload_all_pool (l : list string) : forall w : t (engine := engine),
  unload_never_raises -> pool_wf w ->
  loaded_models (foldl (fun w model_id => _unload_model model_id w) w l)
  = loaded_models w ∖ list_to_set l
  /\ (forall k,
        dict_get k
          (engines (foldl (fun w model_id => _unload_model model_id w) w l))
        = if bool_decide (k ∈ l) then None else dict_get k (engines w))
  /\ pool_wf (foldl (fun w model_id => _unload_model model_id w) w l).
Proof.
  induction l as [|m l IH]; intros w Hok Hwf; cbn [foldl].
  - split; [rewrite list_to_set_nil; apply set_eq; intros x;
            rewrite elem_of_difference, elem_of_empty; tauto|].
    split; [|exact Hwf].
    intros k. case_bool_decide as Hk; [|reflexivity].
    apply not_elem_of_nil in Hk. contradiction.
  - destruct (unload_model_pool m w Hok Hwf) as [Hl He].
    destruct (IH (_unload_model m w) Hok (unload_model_wf m w Hwf))
      as (-> & Hget & Hwf').
    split.
    { rewrite Hl, list_to_set_cons. apply set_eq. intros x.
      rewrite !elem_of_difference, elem_of_union. tauto. }
    split; [|exact Hwf'].
    intros k. rewrite Hget, He.
    destruct (decide (k = m)) as [->|Hne].
    + rewrite dict_get_del_eq.
      rewrite (bool_decide_eq_true_2 (m ∈ m :: l)) by left.
      destruct (bool_decide (m ∈ l)); reflexivity.
    + rewrite dict_get_del_ne by auto.
      apply (f_equal (fun b : bool => if b then None else dict_get k (engines w))).
      apply bool_decide_ext. rewrite elem_of_cons. tauto.
Qed.

(** *** The handlers that leave the pool alone *)

Lemma same_pool_refl (w : t (engine := engine)) : same_pool w w.
Proof. repeat split. Qed.

Lemma same_pool_send (w w0 : t (engine := engine)) c m :
  same_pool w w0 -> same_pool w (send c m w0).
Proof. intros H0. exact H0. Qed.

Lemma same_pool_send_error (w w0 : t (engine := engine)) c m :
  same_pool w w0 -> same_pool w (send_error c m w0).
Proof. intros H0. exact H0. Qed.

Lemma same_pool_after_call (w w0 : t (engine := engine)) r e c :
  same_pool w w0 -> same_pool w (after_call r e c w0).
Proof. intros H0. exact H0. Qed.

Lemma same_pool_touch (w w0 : t (engine := engine)) now m :
  same_pool w w0 -> same_pool w (touch_last_inference now m w0).
Proof.
  intros H0. unfold touch_last_inference.
  destruct m as [m|]; [destruct (str_truthy m)|]; exact H0.
Qed.

Lemma same_pool_call_end_session (w w0 : t (engine := engine)) r :
  same_pool w w0 -> same_pool w (call_end_session r w0).
Proof. intros H0. exact H0. Qed.

Lemma same_pool_call_transcribe_final (w w0 : t (engine := engine)) r a :
  same_pool w w0 -> same_pool w (fst (call_transcribe_final r a w0)).
Proof.
  intros H0. unfold call_transcribe_final.
  destruct (transcribe_final (heap w0 r) a). exact H0.
Qed.

Lemma same_pool_call_transcribe_with_timestamps
    (w w0 : t (engine := engine)) r a :
  same_pool w w0 ->
  same_pool w (fst (call_transcribe_with_timestamps r a w0)).
Proof.
  intros H0. unfold call_transcribe_with_timestamps.
  destruct (transcribe_with_timestamps (heap w0 r) a). exact H0.
Qed.

Lemma same_pool_call_unload (w w0 : t (engine := engine)) r :
  same_pool w w0 -> same_pool w (fst (call_unload r w0)).
Proof.
  intros H0. unfold call_unload. destruct (unload (heap w0 r)). exact H0.
Qed.

Create HintDb pool.
#[local] Hint Resolve same_pool_refl same_pool_send same_pool_send_error
  same_pool_after_call same_pool_touch same_pool_call_end_session : pool.

Lemma handle_stop_same_pool now websocket session (w : t (engine := engine)) :
  same_pool w (snd (handle_stop now websocket session w)).
Proof.
  unfold handle_stop.
  match goal with |- context [ClientSession.is_recording ?s] => generalize s end.
  intros s1. destruct (ClientSession.is_recording s1); simpl; [|auto with pool].
  destruct (0 <? ClientSession.total_samples s1);
    destruct (ClientSession.active_engine s1) as [r|]; simpl; auto 6 with pool.
  pose proof (same_pool_call_transcribe_final w w r
                (ClientSession.get_audio_array
                   (ClientSession.set_is_recording s1 false))
                (same_pool_refl w)) as Hcall.
  destruct (call_transcribe_final r _ w) as [w1 [text|msg]];
    simpl in Hcall; auto 6 with pool.
Qed.

Lemma handle_transcribe_interval_same_pool now websocket session
    (w : t (engine := engine)) :
  same_pool w (snd (handle_transcribe_interval now websocket session w)).
Proof.
  unfold handle_transcribe_interval.
  destruct (ClientSession.is_recording session); simpl; [|auto with pool].
  destruct (ClientSession.total_samples session =? 0);
    destruct (ClientSession.active_engine session) as [r|]; simpl;
    auto with pool.
  destruct (Qlt_bool _ _); simpl; [auto with pool|].
  destruct (has_transcribe_with_timestamps (heap w r)).
  - pose proof (same_pool_call_transcribe_with_timestamps w w r
                  (ClientSession.get_audio_array session)
                  (same_pool_refl w)) as Hcall.
    destruct (call_transcribe_with_timestamps r _ w) as [w1 [result|msg]];
      simpl in Hcall; [|auto with pool].
    destruct (apply_diarization _ _ _ _) as [words speakers]. simpl.
    auto 6 with pool.
  - pose proof (same_pool_call_transcribe_final w w r
                  (ClientSession.get_audio_array session)
                  (same_pool_refl w)) as Hcall.
    destruct (call_transcribe_final r _ w) as [w1 [text|msg]];
      simpl in Hcall; cbn [snd]; auto 6 with pool.
Qed.

(** *** The pool invariant *)

Lemma load_model_wf env model_id (w : t (engine := engine)) :
  pool_wf w -> pool_wf (fst (load_model env model_id w)).
Proof.
  intros Hwf. unfold load_model.
  case_bool_decide; [exact Hwf|]. lazy zeta.
  match goal with
  | |- context [match ?x with Ok _ => _ | Raise _ => _ end] =>
      destruct x as [e|msg]
  end; [|exact Hwf].
  unfold pool_wf in *. simpl. rewrite dict_keys_set, Hwf. reflexivity.
Qed.

Lemma handle_clear_cache_wf wa websocket (w : t (engine := engine)) :
  pool_wf w -> pool_wf (fst (handle_clear_cache wa websocket w)).
Proof.
  intros Hwf. unfold handle_clear_cache.
  destruct (dict_get MODEL_PARAKEET (engines w)) as [r|]; [|exact Hwf].
  unfold call_unload. destruct (unload (heap w r)) as [e [[]|msg]];
    [|exact Hwf].
  unfold pool_wf in *. simpl. rewrite dict_keys_del, Hwf. reflexivity.
Qed.

Lemma unload_all_wf (l : list string) : forall w : t (engine := engine),
  pool_wf w -> pool_wf (foldl (fun w model_id => _unload_model model_id w) w l).
Proof.
  induction l as [|m l IH]; intros w Hwf; [exact Hwf|].
  apply IH, unload_model_wf, Hwf.
Qed.

Lemma keep_warm_tick_wf now (w : t (engine := engine)) :
  pool_wf w -> pool_wf (keep_warm_tick now w).
Proof.
  intros Hwf. unfold keep_warm_tick.
  destruct (negb (keep_warm_enabled w)); [exact Hwf|].
  destruct (String.eqb (keep_warm_duration w) "permanent"); [exact Hwf|].
  apply unload_all_wf, Hwf.
Qed.

Lemma same_pool_wf (w w' : t (engine := engine)) :
  same_pool w w' -> pool_wf w -> pool_wf w'.
Proof. unfold pool_wf. intros (-> & -> & _) Hwf. exact Hwf. Qed.

(** In every reachable state [loaded_models] names exactly the keys of
    [engines]. *)
Lemma reachable_pool_wf (w : t (engine := engine)) : reachable w -> pool_wf w.
Proof.
  induction 1 as [h | env m w _ IH | m w _ IH | wa c w _ IH | now w _ IH
                 | now c s w _ IH | now c s w _ IH | en ms d w _ IH].
  - reflexivity.
  - apply load_model_wf, IH.
  - apply unload_model_wf, IH.
  - apply handle_clear_cache_wf, IH.
  - apply keep_warm_tick_wf, IH.
  - exact (same_pool_wf _ _ (handle_stop_same_pool now c s w) IH).
  - exact (same_pool_wf _ _ (handle_transcribe_interval_same_pool now c s w) IH).
  - exact IH.
Qed.

(** *** Keep-warm *)

Lemma models_to_unload_spec now d (w : t (engine := engine)) m :
  m ∈ models_to_unload now d w
  <-> m ∈ loaded_models w /\ exceeds (idle_time now w m) d = true.
Proof.
  unfold models_to_unload.
  rewrite list_elem_of_In, List.filter_In, <- list_elem_of_In, elem_of_elements.
  reflexivity.
Qed.

(** Notifying the clients leaves the engine objects and the call log. *)
Lemma notify_store (msg : message) (cs : list nat) :
  forall w : t (engine := engine),
  heap (foldl (fun w client => send client msg w) w cs) = heap w
  /\ calls (foldl (fun w client => send client msg w) w cs) = calls w.
Proof.
  induction cs as [|c cs IH]; intros w; simpl; [split; reflexivity|].
  destruct (IH (send c msg w)) as [-> ->]. split; reflexivity.
Qed.

(** What [_unload_model] does to the engine objects: the engine of the
    model, when it has an [unload], is sent [unload], and no other engine
    object is touched. *)
Lemma unload_model_store model_id r (w : t (engine := engine)) :
  unload_never_raises ->
  dict_get model_id (engines w) = Some r ->
  calls (_unload_model model_id w)
  = calls w ++ (if has_unload (heap w r) then [(r, CallUnload)] else [])
  /\ heap (_unload_model model_id w) r
     = (if has_unload (heap w r) then fst (unload (heap w r)) else heap w r)
  /\ (forall r', r' <> r -> heap (_unload_model model_id w) r' = heap w r').
Proof.
  intros Hok E. unfold _unload_model. rewrite E.
  destruct (has_unload (heap w r)).
  - unfold call_unload. pose proof (Hok (heap w r)) as Hr.
    destruct (unload (heap w r)) as [e res]. simpl in Hr. subst res.
    match goal with |- context [foldl ?f ?a ?l] =>
      destruct (notify_store
                  [("type", JStr "model_unloaded"); ("model", JStr model_id)]
                  l a) as [-> ->]
    end.
    simpl. rewrite Nat.eqb_refl. repeat split.
    intros r' Hne. apply Nat.eqb_neq in Hne. rewrite Hne. reflexivity.
  - match goal with |- context [foldl ?f ?a ?l] =>
      destruct (notify_store
                  [("type", JStr "model_unloaded"); ("model", JStr model_id)]
                  l a) as [-> ->]
    end.
    simpl. rewrite app_nil_r. repeat split.
Qed.

(** A pass that unloads the models of a list, on a pool where no engine
    object is bound to two models: the calls it makes, in order, and the
    engine objects after it. *)
Lemma unload_all_store (l : list string) : forall w : t (engine := engine),
  unload_never_raises -> NoDup l -> NoDup (map snd (engines w)) ->
  (forall m, m ∈ l -> is_Some (dict_get m (engines w))) ->
  calls (foldl (fun w model_id => _unload_model model_id w) w l)
  = calls w
    ++ flat_map
         (fun m =>
            match dict_get m (engines w) with
            | Some r => if has_unload (heap w r) then [(r, CallUnload)] else []
            | None => []
            end) l
  /\ (forall m r,
        m ∈ l -> dict_get m (engines w) = Some r ->
        heap (foldl (fun w model_id => _unload_model model_id w) w l) r
        = if has_unload (heap w r) then fst (unload (heap w r)) else heap w r)
  /\ (forall r,
        (forall m, m ∈ l -> dict_get m (engines w) <> Some r) ->
        heap (foldl (fun w model_id => _unload_model model_id w) w l) r
        = heap w r).
Proof.
  induction l as [|m l IH]; intros w Hok Hnd Hrefs Hin; cbn [foldl flat_map].
  - rewrite app_nil_r. split; [reflexivity|]. split; [|reflexivity].
    intros m r Hm. apply not_elem_of_nil in Hm. contradiction.
  - apply NoDup_cons in Hnd as [Hm Hnd].
    destruct (Hin m) as [r0 Hr0]; [left|].
    destruct (unload_model_present m r0 w Hok Hr0) as (He & _).
    destruct (unload_model_store m r0 w Hok Hr0) as (Hc & Hh0 & Hh).
    assert (Hget : forall k, k ∈ l ->
              dict_get k (engines (_unload_model m w)) = dict_get k (engines w)).
    { intros k Hk. rewrite He. apply dict_get_del_ne. intros ->. contradiction. }
    assert (Hother : forall k r, k ∈ l -> dict_get k (engines w) = Some r ->
              r <> r0).
    { intros k r Hk Hr ->. apply Hm.
      rewrite (dict_value_key (engines w) m k r0 Hrefs
                 (dict_get_In _ _ _ Hr0) (dict_get_In _ _ _ Hr)).
      exact Hk. }
    destruct (IH (_unload_model m w) Hok Hnd) as (Hcalls & Hevicted & Hkept).
    { rewrite He. apply dict_del_NoDup, Hrefs. }
    { intros k Hk. rewrite (Hget k Hk). apply Hin. right. exact Hk. }
    split; [|split].
    + rewrite Hcalls, Hc, Hr0, <- app_assoc. f_equal. f_equal.
      clear - Hget Hother Hh.
      induction l as [|k l IHl]; [reflexivity|]. cbn [flat_map].
      rewrite IHl.
      * f_equal. rewrite (Hget k) by left.
        destruct (dict_get k (engines w)) as [r|] eqn:Ek; [|reflexivity].
        rewrite (Hh r); [reflexivity|]. apply (Hother k); [left | exact Ek].
      * intros k' Hk'. apply Hget. right. exact Hk'.
      * intros k' r Hk'. apply Hother. right. exact Hk'.
    + intros k r Hk Hr. apply elem_of_cons in Hk as [->|Hk].
      * rewrite Hr0 in Hr. injection Hr as <-.
        rewrite Hkept; [exact Hh0|].
        intros k Hk. rewrite (Hget k Hk). intros Hr.
        exact (Hother k r0 Hk Hr eq_refl).
      * rewrite (Hevicted k r Hk); [|rewrite (Hget k Hk); exact Hr].
        rewrite (Hh r (Hother k r Hk Hr)). reflexivity.
    + intros r Hnone.
      assert (Hne : r <> r0).
      { intros ->. apply (Hnone m); [left | exact Hr0]. }
      rewrite Hkept, (Hh r Hne); [reflexivity|].
      intros k Hk. rewrite (Hget k Hk). apply Hnone. right. exact Hk.
Qed.

(** C3.  One pass of the keep-warm monitor, on a server whose engines do
    not raise from [unload] and where no engine object is bound to two
    models.  With a duration other than "permanent", the models loaded
    after the pass are exactly the loaded models whose idle time ([now]
    less the last inference time, 0 when there is none) does not exceed
    the threshold.  A model over the threshold is unloaded: it leaves the
    pool and its engine object is sent [unload].  A model at or under the
    threshold is not: it stays with its engine, no method is called on that
    engine and the engine object is what it was.  The calls the pass makes
    are these [unload]s and no other.  The thresholds are 3600, 14400,
    28800 and 57600 s; against 14400 s an idle time of 5000 s does not
    exceed and one of 15000 s does.  With "permanent" the pass changes
    nothing. *)
Theorem keep_warm_tick_evicts (now : Q) (w : t (engine := engine)) :
  unload_never_raises -> pool_wf w -> NoDup (map snd (engines w)) ->
  keep_warm_enabled w = true ->
  (keep_warm_duration w <> "permanent" ->
   (forall m,
      m ∈ loaded_models (keep_warm_tick now w)
      <-> m ∈ loaded_models w
          /\ exceeds (idle_time now w m)
               (_get_duration_seconds (keep_warm_duration w)) = false)
   /\ (forall m,
         m ∈ loaded_models w ->
         exceeds (idle_time now w m)
           (_get_duration_seconds (keep_warm_duration w)) = true ->
         (m ∉ loaded_models (keep_warm_tick now w))
         /\ dict_get m (engines (keep_warm_tick now w)) = None)
   /\ (forall m,
         m ∈ loaded_models w ->
         exceeds (idle_time now w m)
           (_get_duration_seconds (keep_warm_duration w)) = false ->
         m ∈ loaded_models (keep_warm_tick now w)
         /\ dict_get m (engines (keep_warm_tick now w))
            = dict_get m (engines w))
   /\ (forall m r,
         m ∈ loaded_models w ->
         exceeds (idle_time now w m)
           (_get_duration_seconds (keep_warm_duration w)) = true ->
         dict_get m (engines w) = Some r ->
         heap (keep_warm_tick now w) r
         = (if has_unload (heap w r) then fst (unload (heap w r))
            else heap w r)
         /\ (has_unload (heap w r) = true ->
             (r, CallUnload) ∈ calls (keep_warm_tick now w)))
   /\ (forall m r,
         m ∈ loaded_models w ->
         exceeds (idle_time now w m)
           (_get_duration_seconds (keep_warm_duration w)) = false ->
         dict_get m (engines w) = Some r ->
         heap (keep_warm_tick now w) r = heap w r
         /\ (forall c,
               (r, c) ∈ calls (keep_warm_tick now w) -> (r, c) ∈ calls w))
   /\ calls (keep_warm_tick now w)
      = calls w
        ++ flat_map
             (fun m =>
                match dict_get m (engines w) with
                | Some r =>
                    if has_unload (heap w r) then [(r, CallUnload)] else []
                | None => []
                end)
             (models_to_unload now
                (_get_duration_seconds (keep_warm_duration w)) w))
  /\ (keep_warm_duration w = "permanent" -> keep_warm_tick now w = w)
  /\ (forall m,
        idle_time now w m
        = (now - default now (last_inference_time w !! m))%Q)
  /\ _get_duration_seconds "1h" = Seconds 3600
  /\ _get_duration_seconds "4h" = Seconds 14400
  /\ _get_duration_seconds "8h" = Seconds 28800
  /\ _get_duration_seconds "16h" = Seconds 57600
  /\ (forall idle n, exceeds idle (Seconds n) = true <-> (inject_Z n < idle)%Q)
  /\ exceeds 5000 (Seconds 14400) = false
  /\ exceeds 15000 (Seconds 14400) = true.
Proof.
  intros Hok Hwf Hrefs Hen.
  split; [|split; [|repeat split; try reflexivity;
                    try (unfold exceeds; apply Qlt_bool_iff)]].
  - intros Hdur.
    assert (Htick :
      keep_warm_tick now w
      = foldl (fun w model_id => _unload_model model_id w) w
          (models_to_unload now
             (_get_duration_seconds (keep_warm_duration w)) w)).
    { unfold keep_warm_tick. rewrite Hen. simpl.
      destruct (String.eqb_spec (keep_warm_duration w) "permanent");
        [contradiction | reflexivity]. }
    destruct (unload_all_pool
                (models_to_unload now
                   (_get_duration_seconds (keep_warm_duration w)) w)
                w Hok Hwf) as (Hl & Hget & _).
    destruct (unload_all_store
                (models_to_unload now
                   (_get_duration_seconds (keep_warm_duration w)) w)
                w Hok) as (Hcalls & Hevicted & Hkept).
    { unfold models_to_unload.
      apply NoDup_ListNoDup, List.NoDup_filter, NoDup_ListNoDup, NoDup_elements. }
    { exact Hrefs. }
    { intros m Hm. apply models_to_unload_spec in Hm as [Hm _].
      rewrite Hwf, elem_of_list_to_set, dict_get_keys in Hm. exact Hm. }
    rewrite <- Htick in Hl, Hget, Hcalls, Hevicted, Hkept.
    assert (Hmem : forall m,
      m ∈ loaded_models (keep_warm_tick now w)
      <-> m ∈ loaded_models w
          /\ exceeds (idle_time now w m)
               (_get_duration_seconds (keep_warm_duration w)) = false).
    { intros m. rewrite Hl, elem_of_difference, elem_of_list_to_set,
        models_to_unload_spec.
      destruct (exceeds _ _); split; intros [Hm Hx]; split; auto;
        try discriminate.
      - exfalso. apply Hx. auto.
      - intros [_ ?]. discriminate. }
    assert (Hunmarked : forall m r k,
      m ∈ loaded_models w ->
      exceeds (idle_time now w m)
        (_get_duration_seconds (keep_warm_duration w)) = false ->
      dict_get m (engines w) = Some r ->
      k ∈ models_to_unload now
            (_get_duration_seconds (keep_warm_duration w)) w ->
      dict_get k (engines w) <> Some r).
    { intros m r k Hm Hx Hr Hk Hkr.
      rewrite (dict_value_key (engines w) k m r Hrefs
                 (dict_get_In _ _ _ Hkr) (dict_get_In _ _ _ Hr)) in Hk.
      apply models_to_unload_spec in Hk as [_ Hk]. congruence. }
    split; [exact Hmem|]. split; [|split; [|split; [|split]]].
    + intros m Hm Hx. split.
      * rewrite Hmem, Hx. intros [_ ?]. discriminate.
      * rewrite Hget, bool_decide_eq_true_2; [reflexivity|].
        apply models_to_unload_spec. auto.
    + intros m Hm Hx. split; [apply Hmem; auto|].
      rewrite Hget, bool_decide_eq_false_2; [reflexivity|].
      rewrite models_to_unload_spec, Hx. intros [_ ?]. discriminate.
    + intros m r Hm Hx Hr.
      assert (Hmarked : m ∈ models_to_unload now
                (_get_duration_seconds (keep_warm_duration w)) w)
        by (apply models_to_unload_spec; auto).
      split; [exact (Hevicted m r Hmarked Hr)|].
      intros Hhas. rewrite Hcalls. apply elem_of_app. right.
      apply list_elem_of_In, in_flat_map. exists m.
      split; [apply list_elem_of_In, Hmarked|].
      rewrite Hr, Hhas. left. reflexivity.
    + intros m r Hm Hx Hr. split.
      * apply Hkept. intros k Hk. exact (Hunmarked m r k Hm Hx Hr Hk).
      * intros c. rewrite Hcalls, elem_of_app. intros [Hc|Hc]; [exact Hc|].
        exfalso. apply list_elem_of_In, in_flat_map in Hc as (k & Hk & Hc).
        apply list_elem_of_In in Hk.
        destruct (dict_get k (engines w)) as [r'|] eqn:Ek; [|destruct Hc].
        destruct (has_unload (heap w r')); [|destruct Hc].
        destruct Hc as [Hc|[]]. injection Hc as -> _.
        exact (Hunmarked m r k Hm Hx Hr Hk Ek).
    + exact Hcalls.
  - intros Hdur. unfold keep_warm_tick. rewrite Hen, Hdur. reflexivity.
Qed.

(** *** The default model *)

(** C4, as the code has it.  In a reachable state, unloading the default
    model (its engine's [unload] returning) removes it from the loaded
    models; when other engines remain, the default becomes the first of
    them in the order of the [engines] dict, which is loaded; when none
    remains, the default keeps naming the unloaded model.  Unloading any
    other model leaves the default as it is. *)
Theorem unload_default_model (w : t (engine := engine)) (m : string) (r : nat) :
  unload_never_raises -> reachable w ->
  default_model w = m -> dict_get m (engines w) = Some r ->
  (m ∉ loaded_models (_unload_model m w))
  /\ (forall first e rest,
        dict_del m (engines w) = (first, e) :: rest ->
        default_model (_unload_model m w) = first
        /\ first ∈ loaded_models (_unload_model m w)
        /\ first <> m)
  /\ (dict_del m (engines w) = [] ->
      default_model (_unload_model m w) = m
      /\ loaded_models (_unload_model m w) = ∅)
  /\ (forall m', m' <> m -> default_model (_unload_model m' w) = m).
Proof.
  intros Hok Hreach Hdef Hget.
  pose proof (reachable_pool_wf w Hreach) as Hwf.
  pose proof (unload_model_wf m w Hwf) as Hwf'.
  destruct (unload_model_present m r w Hok Hget) as (He & Hl & _ & Hd).
  rewrite Hdef, String.eqb_refl in Hd.
  split; [rewrite Hl, elem_of_difference, elem_of_singleton; tauto|].
  split; [|split].
  - intros first e rest Hrest. rewrite Hrest in Hd. split; [exact Hd|].
    assert (Hin : first ∈ loaded_models (_unload_model m w)).
    { rewrite Hwf', He, Hrest, elem_of_list_to_set. simpl. left. }
    split; [exact Hin|]. intros ->.
    rewrite Hl, elem_of_difference, elem_of_singleton in Hin. tauto.
  - intros Hnil. rewrite Hnil in Hd. split; [rewrite Hd; reflexivity|].
    rewrite Hwf', He, Hnil. reflexivity.
  - intros m' Hne. destruct (dict_get m' (engines w)) as [r'|] eqn:E.
    + destruct (unload_model_present m' r' w Hok E) as (_ & _ & _ & ->).
      rewrite Hdef. destruct (String.eqb_spec m m'); [congruence | reflexivity].
    + rewrite (unload_model_absent m' w E). exact Hdef.
Qed.

End MuteServerFacts.

(** ** Examples on a scripted engine *)

Section MuteServerExamples.

Import MuteServer.

Lemma handle_stop_not_recording_witness :
  sent (snd (handle_stop 0 7
               (ClientSession.set_audio_watchdog_task ClientSession.init
                  (Some TaskPending))
               (init (fun _ => mkScripted true "" "hello" None))))
  = [].
Proof.
  rewrite (proj1 (proj2 (handle_stop_not_recording 0 7
            (ClientSession.set_audio_watchdog_task ClientSession.init
               (Some TaskPending))
            (init (fun _ => mkScripted true "" "hello" None))
            eq_refl))).
  reflexivity.
Defined.


(** C7 as stated fails on a session that is not recording: a fresh session
    has zero buffered samples, and [handle_stop] answers nothing. *)
Lemma handle_stop_fresh_session_silent :
  ClientSession.total_samples ClientSession.init = 0
  /\ sent (snd (handle_stop 0 7 ClientSession.init
                  (init (fun _ => mkScripted true "" "hello" None))))
     = [].
Proof. split; reflexivity. Qed.

Lemma handle_stop_empty_buffer_witness :
  sent (snd (handle_stop 0 7
               (ClientSession.set_is_recording ClientSession.init true)
               (init (fun _ => mkScripted true "" "hello" None))))
  = [(7%nat, [("type", JStr "final"); ("text", JStr ""); ("timestamp", JInt 0)])].
Proof.
  rewrite (proj1 (handle_stop_empty_buffer 0 7
            (ClientSession.set_is_recording ClientSession.init true)
            (init (fun _ => mkScripted true "" "hello" None))
            eq_refl eq_refl)).
  reflexivity.
Defined.

(** The specification's interval example: on a second interval over 3 s of
    audio the words at 0.1 and 1.0 s are dropped and those at 2.3 and 3.0 s
    make the text. *)
Lemma interval_context_skip_witness :
  msg_get "text"
    (snd (List.last
            (sent (snd (handle_transcribe_interval 0 7
                          example_session
                          (init (fun _ =>
                                   mkScripted true "" "" (Some example_words))))))
            (7%nat, [])))
  = Some (JStr "two three").
Proof.
  rewrite (proj1 (proj2 (proj2 (proj2
            (interval_context_skip 0 7
               example_session
               (init (fun _ => mkScripted true "" "" (Some example_words)))
               0%nat (mkTimestampResult "" example_words)
               eq_refl ltac:(discriminate) eq_refl ltac:(vm_compute; discriminate)
               eq_refl eq_refl)))) eq_refl).
  vm_compute. reflexivity.
Defined.

Lemma scripted_unload_never_raises :
  unload_never_raises (engine := ScriptedEngine).
Proof. intros e. reflexivity. Qed.

Lemma example_idle_server_refs :
  NoDup (map snd (engines example_idle_server)).
Proof.
  apply NoDup_ListNoDup. simpl. repeat constructor; simpl; intuition lia.
Qed.

(** The specification's keep-warm example: with the 4 h threshold the model
    idle for 5000 s stays loaded, with its engine as it was, and the one
    idle for 15000 s is evicted, its engine being sent [unload]. *)
Lemma keep_warm_tick_evicts_witness :
  "base" ∈ loaded_models (keep_warm_tick 100000 example_idle_server)
  /\ ("large-v3-turbo"
      ∉ loaded_models (keep_warm_tick 100000 example_idle_server))
  /\ (1%nat, CallUnload) ∈ calls (keep_warm_tick 100000 example_idle_server)
  /\ heap (keep_warm_tick 100000 example_idle_server) 0
     = heap example_idle_server 0.
Proof.
  destruct (keep_warm_tick_evicts 100000 example_idle_server
              scripted_unload_never_raises eq_refl example_idle_server_refs
              eq_refl)
    as (Hpass & _).
  destruct (Hpass ltac:(discriminate)) as (_ & Hout & Hin & Hev & Hkept & _).
  assert (Hbase : "base" ∈ loaded_models example_idle_server)
    by (apply elem_of_list_to_set, list_elem_of_In; simpl; auto).
  assert (Hturbo : "large-v3-turbo" ∈ loaded_models example_idle_server)
    by (apply elem_of_list_to_set, list_elem_of_In; simpl; auto).
  split; [|split; [|split]].
  - apply Hin; [exact Hbase | vm_compute; reflexivity].
  - apply Hout; [exact Hturbo | vm_compute; reflexivity].
  - apply (Hev "large-v3-turbo" 1%nat Hturbo);
      [vm_compute; reflexivity | reflexivity | reflexivity].
  - apply (Hkept "base" 0%nat Hbase); [vm_compute; reflexivity | reflexivity].
Defined.

Lemma example_server_3_reachable : reachable example_server_3.
Proof.
  unfold example_server_3, example_server_2, example_server_1, example_server_0.
  apply reach_load, reach_unload, reach_load, reach_init.
Qed.

Lemma example_server_1_reachable : reachable example_server_1.
Proof.
  unfold example_server_1, example_server_0. apply reach_load, reach_init.
Qed.

(** C4 as stated fails.  After loading "base", unloading it and loading
    "large-v3-turbo", the default model is still "base", which is not
    loaded, while another model is; and right after the unload the default
    names the model just unloaded, with nothing loaded. *)
Lemma default_model_not_loaded :
  reachable example_server_3
  /\ default_model example_server_3 = "base"
  /\ ("base" ∉ loaded_models example_server_3)
  /\ "large-v3-turbo" ∈ loaded_models example_server_3
  /\ default_model example_server_1 = "base"
  /\ "base" ∈ loaded_models example_server_1
  /\ default_model (_unload_model "base" example_server_1) = "base"
  /\ loaded_models (_unload_model "base" example_server_1) = ∅.
Proof.
  split; [exact example_server_3_reachable|].
  split; [vm_compute; reflexivity|].
  split; [apply (bool_decide_eq_false_1 _); vm_compute; reflexivity|].
  split; [apply (bool_decide_eq_true_1 _); vm_compute; reflexivity|].
  split; [vm_compute; reflexivity|].
  split; [apply (bool_decide_eq_true_1 _); vm_compute; reflexivity|].
  split; vm_compute; reflexivity.
Qed.

Lemma unload_default_model_witness :
  default_model (_unload_model "base" example_server_1) = "base"
  /\ loaded_models (_unload_model "base" example_server_1) = ∅.
Proof.
  apply (proj1 (proj2 (proj2
           (unload_default_model example_server_1 "base" 0%nat
              scripted_unload_never_raises example_server_1_reachable
              ltac:(vm_compute; reflexivity) ltac:(vm_compute; reflexivity))))).
  vm_compute. reflexivity.
Defined.

End MuteServerExamples.

(** * Further properties of the code *)

(** ** The audio buffer *)

Section BufferFacts.

Import ClientSession.

Lemma py_slice_from_suffix {A} (i : Z) (l : list A) :
  exists dropped, l = dropped ++ py_slice_from i l.
Proof.
  unfold py_slice_from. eexists. symmetry. apply take_drop.
Qed.

Lemma py_slice_from_len {A} (i : Z) (l : list A) :
  0 <= py_len (py_slice_from i l) <= py_len l.
Proof.
  unfold py_slice_from, py_len. rewrite length_drop. lia.
Qed.

(** The three buffer methods keep the buffer within its cap. *)
Lemma step_within_cap s o :
  total_samples s = stored_samples (audio_chunks s) ->
  0 <= total_samples s <= MAX_BUFFER_SAMPLES ->
  0 <= total_samples (step s o) <= MAX_BUFFER_SAMPLES.
Proof.
  intros Hs Hcap. destruct o as [a| |sec]; simpl.
  - destruct (add_audio_cases s a) as [[Hle E] | [_ E]]; rewrite E; simpl;
      [|exact Hcap].
    pose proof (py_len_nonneg a). lia.
  - unfold MAX_BUFFER_SAMPLES, MAX_BUFFER_SECONDS. lia.
  - unfold keep_audio_tail.
    destruct (total_samples s <=? py_int (16000 * sec)); [exact Hcap|].
    simpl.
    pose proof (py_slice_from_len (- py_int (16000 * sec)) (get_audio_array s)).
    rewrite (get_audio_array_len s Hs) in *. lia.
Qed.

(** X1.  From a fresh session, whatever [add_audio], [clear_audio] and
    [keep_audio_tail] calls are made (with any argument, a negative number
    of seconds included), the buffer never holds more than
    [MAX_BUFFER_SAMPLES] = 4 800 000 samples, and its total is never
    negative. *)
Theorem buffer_never_exceeds_cap (ops : list ClientSession.op) :
  0 <= total_samples (run init ops) <= 4800000
  /\ py_len (get_audio_array (run init ops)) <= MAX_BUFFER_SAMPLES.
Proof.
  assert (Hinv : forall ops s,
    total_samples s = stored_samples (audio_chunks s) ->
    0 <= total_samples s <= MAX_BUFFER_SAMPLES ->
    0 <= total_samples (run s ops) <= MAX_BUFFER_SAMPLES).
  { clear ops. induction ops as [|o ops IH]; intros s Hs Hcap; [exact Hcap|].
    apply (IH (step s o)); [apply step_consistent, Hs|].
    apply step_within_cap; assumption. }
  assert (H0 : 0 <= total_samples (run init ops) <= MAX_BUFFER_SAMPLES).
  { apply Hinv; [reflexivity|].
    unfold MAX_BUFFER_SAMPLES, MAX_BUFFER_SECONDS. simpl. lia. }
  split; [exact H0|].
  rewrite get_audio_array_len; [lia|].
  apply run_consistent. reflexivity.
Qed.

Lemma get_audio_array_concat s : get_audio_array s = concat (audio_chunks s).
Proof. unfold get_audio_array. destruct (audio_chunks s); reflexivity. Qed.

(** X2.  What was accepted is what is read back: after a run of
    [add_audio] calls the array [get_audio_array] returns is the audio held
    before followed by the samples of the accepted chunks, in the order of
    the calls; no sample of a rejected chunk is in it. *)
Theorem add_audio_then_get_audio_array
    (s : ClientSession.t) (chunks : list (list sample)) :
  get_audio_array (fst (add_all s chunks))
  = get_audio_array s ++ concat (accepted chunks (snd (add_all s chunks)))
  /\ get_audio_array (fst (add_all init chunks))
     = concat (accepted chunks (snd (add_all init chunks))).
Proof.
  assert (Hgen : forall s0,
    get_audio_array (fst (add_all s0 chunks))
    = get_audio_array s0 ++ concat (accepted chunks (snd (add_all s0 chunks)))).
  { intros s0. rewrite !get_audio_array_concat.
    destruct (add_all_accepted chunks s0) as [-> _]. apply concat_app. }
  split; [apply Hgen|]. rewrite Hgen. reflexivity.
Qed.

(** X3.  [keep_audio_tail] only ever drops samples from the front: for any
    number of seconds, the audio it leaves is a suffix of the audio it
    found, so it is never longer and never reordered. *)
Theorem keep_audio_tail_keeps_a_suffix (s : ClientSession.t) (seconds : Q) :
  (exists dropped,
     get_audio_array s = dropped ++ get_audio_array (keep_audio_tail s seconds))
  /\ py_len (get_audio_array (keep_audio_tail s seconds))
     <= py_len (get_audio_array s).
Proof.
  unfold keep_audio_tail.
  destruct (total_samples s <=? py_int (16000 * seconds)).
  - split; [exists []; reflexivity | lia].
  - rewrite get_audio_array_single.
    split; [apply py_slice_from_suffix | apply py_slice_from_len].
Qed.

Lemma keep_audio_tail_idempotent_witness :
  keep_audio_tail
    (keep_audio_tail (fst (add_audio init [1%Q; 2%Q; 3%Q])) (1 # 8000))
    (1 # 8000)
  = keep_audio_tail (fst (add_audio init [1%Q; 2%Q; 3%Q])) (1 # 8000).
Proof.
  apply keep_audio_tail_idempotent; [reflexivity | vm_compute; discriminate].
Defined.

End BufferFacts.

(** ** Speaker labels *)

Section LabelFacts.

Import DiarizationEngine.

(** The loop returns the speaker it started with or the speaker of one of
    the segments. *)
Lemma scan_segments_from w segments : forall assigned m,
  scan_segments w segments assigned m = assigned
  \/ exists seg, In seg segments
       /\ scan_segments w segments assigned m = Some (seg_speaker seg).
Proof.
  induction segments as [|x rest IH]; intros assigned m; simpl; [auto|].
  destruct (contains_mid w x); [right; eauto|].
  destruct (Qlt_bool m (overlap w x)).
  - right. destruct (IH (Some (seg_speaker x)) (overlap w x)) as [E|(seg & Hin & E)];
      rewrite E; eauto.
  - destruct (IH assigned m) as [E|(seg & Hin & E)]; rewrite E; eauto.
Qed.

(** X7.  [assign_speakers_to_words] returns as many words as it was given,
    in the same order, with the same text and timestamps; and with at least
    one segment every word it returns carries a label, which is "Unknown" or
    the speaker of one of the segments. *)
Theorem assign_speakers_keeps_words (words : list Word) (segments : list Segment) :
  length (assign_speakers_to_words words segments) = length words
  /\ map word (assign_speakers_to_words words segments) = map word words
  /\ map start (assign_speakers_to_words words segments) = map start words
  /\ map end_ (assign_speakers_to_words words segments) = map end_ words
  /\ (segments <> [] ->
      forall x, In x (assign_speakers_to_words words segments) ->
      exists label,
        speaker x = Some label
        /\ (label = "Unknown"
            \/ exists seg, In seg segments /\ label = seg_speaker seg)).
Proof.
  destruct segments as [|seg0 segs].
  - simpl. repeat split; try reflexivity. congruence.
  - unfold assign_speakers_to_words.
    rewrite length_map, !map_map. simpl.
    repeat split; try reflexivity.
    intros _ x Hx. apply in_map_iff in Hx as (w & <- & _).
    eexists. split; [reflexivity|].
    unfold assign_speaker.
    destruct (scan_segments_from w (seg0 :: segs) None 0) as [E|(seg & Hin & E)];
      rewrite E; simpl; [auto|].
    destruct (str_truthy (seg_speaker seg)); eauto.
Qed.

Lemma unique_speakers_length speakers :
  length (unique_speakers speakers) = length (remove_dups speakers).
Proof. apply Permutation_length, unique_speakers_perm. Qed.

Lemma format_speakers_name_of speakers k :
  (k < length (remove_dups speakers))%nat ->
  exists label,
    label ∈ speakers /\ format_speakers speakers !! label = Some (speaker_name k).
Proof.
  intros Hk. rewrite <- unique_speakers_length in Hk.
  apply lookup_lt_is_Some_2 in Hk as [label Hl]. exists label. split.
  - apply elem_of_unique_speakers. eapply list_elem_of_lookup_2, Hl.
  - apply format_speakers_lookup. eauto.
Qed.

(** X8.  The names [format_speakers] gives are exactly "Speaker 1" to
    "Speaker n" for the [n] distinct labels of the input, each used once;
    and the mapping depends only on which labels occur, not on their order
    or repetition in the input. *)
Theorem format_speakers_names (speakers : list string) :
  size (format_speakers speakers) = length (remove_dups speakers)
  /\ (forall k,
        (k < length (remove_dups speakers))%nat ->
        exists label,
          label ∈ speakers
          /\ format_speakers speakers !! label
             = Some ("Speaker " +:+ pretty (S k)))
  /\ (forall label name,
        format_speakers speakers !! label = Some name ->
        exists k,
          (k < length (remove_dups speakers))%nat
          /\ name = "Speaker " +:+ pretty (S k))
  /\ (forall speakers',
        (forall x, x ∈ speakers' <-> x ∈ speakers) ->
        format_speakers speakers' = format_speakers speakers).
Proof.
  split; [|split; [|split]].
  - unfold format_speakers. rewrite map_size_list_to_map.
    + rewrite length_imap. apply unique_speakers_length.
    + rewrite format_speakers_keys. apply unique_speakers_NoDup.
  - apply format_speakers_name_of.
  - intros label name Hl. apply format_speakers_lookup in Hl as (i & Hi & ->).
    exists i. split; [|reflexivity].
    rewrite <- unique_speakers_length. eapply lookup_lt_Some, Hi.
  - intros speakers' Hsame. unfold format_speakers, unique_speakers.
    replace (list_to_set speakers' : gset string) with
      (list_to_set speakers : gset string); [reflexivity|].
    apply set_eq. intros x. rewrite !elem_of_list_to_set. symmetry. apply Hsame.
Qed.

End LabelFacts.

(** ** Diarization inside the interval protocol *)

Section DiarizationStepFacts.

Import DiarizationEngine MuteServer.

Lemma speaker_name_not_unknown k : speaker_name k <> "Unknown".
Proof. unfold speaker_name. simpl. discriminate. Qed.

(** The names the words end up with when diarization applies. *)
Lemma apply_diarization_applied d audio words seg0 segs :
  dz_is_loaded d = true -> words <> [] ->
  dz_diarize_sync d audio = seg0 :: segs ->
  apply_diarization true (Some d) audio words
  = (map (fun w =>
            with_speaker w
              (default (assign_speaker (seg0 :: segs) w)
                 (format_speakers (map (assign_speaker (seg0 :: segs)) words)
                    !! assign_speaker (seg0 :: segs) w)))
       words,
     elements
       (list_to_set
          (map (fun w =>
                  default (assign_speaker (seg0 :: segs) w)
                    (format_speakers (map (assign_speaker (seg0 :: segs)) words)
                       !! assign_speaker (seg0 :: segs) w))
             words) : gset string)).
Proof.
  intros Hd Hw Hseg. unfold apply_diarization, diarize.
  destruct words as [|w0 ws]; [congruence|].
  rewrite Hd, Hseg. unfold assign_speakers_to_words.
  rewrite !map_map. simpl. reflexivity.
Qed.

(** X9.  When diarization applies to an interval (the engine is loaded, it
    finds at least one segment and there is at least one word), the
    speakers reported are "Speaker 1" to "Speaker n" without repetition, in
    some order, and every word carries one of them: no word is left with a
    raw label, and a word that no segment overlaps is shown under a
    "Speaker k" name as well, never as "Unknown". *)
Theorem apply_diarization_names (d : Diarizer) (audio : list sample)
    (words : list Word) (seg0 : Segment) (segs : list Segment) :
  dz_is_loaded d = true -> words <> [] ->
  dz_diarize_sync d audio = seg0 :: segs ->
  NoDup (snd (apply_diarization true (Some d) audio words))
  /\ snd (apply_diarization true (Some d) audio words)
     ≡ₚ map (fun k => "Speaker " +:+ pretty (S k))
          (seq 0 (length (snd (apply_diarization true (Some d) audio words))))
  /\ (forall x,
        In x (fst (apply_diarization true (Some d) audio words)) ->
        exists name,
          speaker x = Some name
          /\ name ∈ snd (apply_diarization true (Some d) audio words)
          /\ name <> "Unknown").
Proof.
  intros Hd Hw Hseg.
  rewrite (apply_diarization_applied d audio words seg0 segs Hd Hw Hseg).
  cbn [fst snd].
  set (segments := seg0 :: segs).
  set (raw := map (assign_speaker segments) words).
  set (name := fun w => default (assign_speaker segments w)
                          (format_speakers raw !! assign_speaker segments w)).
  set (n := length (remove_dups raw)).
  assert (Hname : forall w, In w words ->
            exists k, (k < n)%nat /\ name w = speaker_name k).
  { intros w Hin.
    assert (Hraw : assign_speaker segments w ∈ raw).
    { apply list_elem_of_In, in_map, Hin. }
    apply elem_of_unique_speakers, list_elem_of_lookup_1 in Hraw as [i Hi].
    exists i. split.
    - unfold n. rewrite <- unique_speakers_length. eapply lookup_lt_Some, Hi.
    - unfold name.
      rewrite (proj2 (format_speakers_lookup raw _ (speaker_name i)));
        [reflexivity | eauto]. }
  assert (Hmem : forall y,
            y ∈ elements (list_to_set (map name words) : gset string)
            <-> y ∈ map speaker_name (seq 0 n)).
  { intros y. rewrite elem_of_elements, elem_of_list_to_set, !list_elem_of_In,
      !in_map_iff.
    split.
    - intros (w & <- & Hin). destruct (Hname w Hin) as (k & Hk & ->).
      exists k. split; [reflexivity|]. apply in_seq. lia.
    - intros (k & <- & Hk). apply in_seq in Hk.
      destruct (format_speakers_name_of raw k) as (label & Hl & Hfm); [unfold n; lia|].
      apply list_elem_of_In, in_map_iff in Hl as (w & <- & Hin).
      exists w. split; [|exact Hin]. unfold name. fold segments raw.
      rewrite Hfm. reflexivity. }
  assert (Hperm : elements (list_to_set (map name words) : gset string)
                  ≡ₚ map speaker_name (seq 0 n)).
  { apply NoDup_Permutation; [apply NoDup_elements | | exact Hmem].
    apply NoDup_fmap_2; [|apply NoDup_seq].
    intros a b E. apply speaker_name_inj, E. }
  split; [apply NoDup_elements|]. split.
  - rewrite (Permutation_length Hperm), length_map, length_seq. exact Hperm.
  - intros x Hx. apply in_map_iff in Hx as (w & <- & Hin).
    exists (name w). split; [reflexivity|]. split.
    + apply elem_of_elements, elem_of_list_to_set, list_elem_of_In, in_map, Hin.
    + destruct (Hname w Hin) as (k & _ & ->). apply speaker_name_not_unknown.
Qed.

(** A word far from both segments of the specification's example, alone
    in its interval, is reported under "Speaker 1". *)
Lemma apply_diarization_names_witness :
  snd (apply_diarization true
         (Some (mkDiarizer true
                  (fun _ => [mkSegment "SPEAKER_00" 0 (14 # 10);
                             mkSegment "SPEAKER_01" (14 # 10) 3])))
         [] [mkWord "far" 10 11 None])
  ≡ₚ ["Speaker 1"].
Proof.
  rewrite (proj1 (proj2 (apply_diarization_names
            (mkDiarizer true
               (fun _ => [mkSegment "SPEAKER_00" 0 (14 # 10);
                          mkSegment "SPEAKER_01" (14 # 10) 3]))
            [] [mkWord "far" 10 11 None]
            (mkSegment "SPEAKER_00" 0 (14 # 10))
            [mkSegment "SPEAKER_01" (14 # 10) 3]
            eq_refl ltac:(discriminate) eq_refl))).
  vm_compute. reflexivity.
Defined.

End DiarizationStepFacts.

(** ** Labelled transcripts *)

Section TranscriptFacts.

Import DiarizationEngine MuteServer.

Lemma string_app_assoc (a b c : string) : (a +:+ b) +:+ c = a +:+ (b +:+ c).
Proof.
  induction a as [|x a IH]; [reflexivity|].
  change (String x ((a +:+ b) +:+ c) = String x (a +:+ (b +:+ c))).
  rewrite IH. reflexivity.
Qed.

Lemma string_app_nil_r (a : string) : a +:+ "" = a.
Proof.
  induction a as [|x a IH]; [reflexivity|].
  change (String x (a +:+ "") = String x a). rewrite IH. reflexivity.
Qed.

(** Words of the speaker the loop is on are appended to the current line. *)
Lemma format_same_speaker s ws : forall acc,
  (forall x, In x ws -> default "Unknown" (speaker x) = s) ->
  foldl format_step (acc, Some s) ws
  = (acc +:+ foldr (fun x a => word x +:+ " " +:+ a) "" ws, Some s).
Proof.
  induction ws as [|x ws IH]; intros acc Hall; simpl.
  - rewrite string_app_nil_r. reflexivity.
  - rewrite (Hall x (or_introl eq_refl)).
    rewrite bool_decide_eq_true_2 by reflexivity.
    rewrite IH by (intros y Hy; apply Hall; right; exact Hy).
    rewrite !string_app_assoc. reflexivity.
Qed.

(** A run of another speaker opens a line, after a line break when a line
    was open. *)
Lemma format_run s ws acc cur :
  ws <> [] ->
  (forall x, In x ws -> default "Unknown" (speaker x) = s) ->
  cur <> Some s ->
  foldl format_step (acc, cur) ws
  = (acc +:+ (match cur with Some _ => newline | None => "" end)
         +:+ run_text s ws, Some s).
Proof.
  intros Hne Hall Hcur. destruct ws as [|x ws]; [congruence|].
  simpl. rewrite (Hall x (or_introl eq_refl)).
  rewrite bool_decide_eq_false_2 by congruence.
  rewrite format_same_speaker by (intros y Hy; apply Hall; right; exact Hy).
  unfold run_text. simpl.
  destruct cur; rewrite !string_app_assoc; reflexivity.
Qed.

Lemma format_runs (runs : list (string * list Word)) : forall acc cur r0,
  (forall r, In r (r0 :: runs) ->
     snd r <> [] /\ forall x, In x (snd r) -> default "Unknown" (speaker x) = fst r) ->
  (forall i r1 r2,
     (r0 :: runs) !! i = Some r1 -> (r0 :: runs) !! S i = Some r2 ->
     fst r1 <> fst r2) ->
  cur <> Some (fst r0) ->
  fst (foldl format_step (acc, cur) (concat (map snd (r0 :: runs))))
  = acc +:+ (match cur with Some _ => newline | None => "" end)
        +:+ runs_text (r0 :: runs).
Proof.
  induction runs as [|r1 runs IH]; intros acc cur r0 Hruns Hadj Hcur.
  - simpl. rewrite app_nil_r.
    destruct (Hruns r0 (or_introl eq_refl)) as [Hne Hall].
    rewrite (format_run (fst r0) (snd r0) acc cur Hne Hall Hcur). reflexivity.
  - change (concat (map snd (r0 :: r1 :: runs)))
      with (snd r0 ++ concat (map snd (r1 :: runs))).
    rewrite foldl_app.
    destruct (Hruns r0 (or_introl eq_refl)) as [Hne Hall].
    rewrite (format_run (fst r0) (snd r0) acc cur Hne Hall Hcur).
    rewrite IH.
    + unfold runs_text. simpl. rewrite !string_app_assoc. reflexivity.
    + intros r Hr. apply Hruns. right. exact Hr.
    + intros i ra rb Ha Hb. apply (Hadj (S i) ra rb); assumption.
    + intros E. injection E as E. apply (Hadj 0%nat r0 r1); [reflexivity..|exact E].
Qed.

(** X10.  [_format_with_speakers] groups consecutive words of one speaker
    under one heading: when the words fall into runs, each of one speaker
    and neighbouring runs of different speakers, the text is one line
    "speaker: w1 w2 ..." per run, the lines separated by a line break, with
    the surrounding whitespace stripped.  A word with no speaker counts as
    spoken by "Unknown". *)
Theorem format_with_speakers_by_runs (runs : list (string * list Word)) :
  (forall r, In r runs ->
     snd r <> []
     /\ forall x, In x (snd r) -> default "Unknown" (speaker x) = fst r) ->
  (forall i r1 r2,
     runs !! i = Some r1 -> runs !! S i = Some r2 -> fst r1 <> fst r2) ->
  _format_with_speakers (concat (map snd runs)) = py_strip (runs_text runs).
Proof.
  intros Hruns Hadj. destruct runs as [|r0 runs]; [reflexivity|].
  unfold _format_with_speakers.
  destruct (concat (map snd (r0 :: runs))) as [|x l] eqn:E.
  - exfalso. destruct (Hruns r0 (or_introl eq_refl)) as [Hne _].
    simpl in E. apply app_eq_nil in E as [E _]. contradiction.
  - rewrite <- E. f_equal.
    rewrite (format_runs runs "" None r0 Hruns Hadj); [reflexivity|discriminate].
Qed.

Lemma format_with_speakers_by_runs_witness :
  _format_with_speakers
    [mkWord "Hello." 0 1 (Some "Speaker 1");
     mkWord "Hi" 1 2 (Some "Speaker 2");
     mkWord "there." 2 3 (Some "Speaker 2")]
  = "Speaker 1: Hello. " +:+ newline +:+ "Speaker 2: Hi there.".
Proof.
  transitivity
    (py_strip
       (runs_text
          [("Speaker 1", [mkWord "Hello." 0 1 (Some "Speaker 1")]);
           ("Speaker 2", [mkWord "Hi" 1 2 (Some "Speaker 2");
                          mkWord "there." 2 3 (Some "Speaker 2")])]));
    [|vm_compute; reflexivity].
  apply (format_with_speakers_by_runs
           [("Speaker 1", [mkWord "Hello." 0 1 (Some "Speaker 1")]);
            ("Speaker 2", [mkWord "Hi" 1 2 (Some "Speaker 2");
                           mkWord "there." 2 3 (Some "Speaker 2")])]).
  - intros r [<-|[<-|[]]]; (split; [discriminate|]); simpl;
      intros x Hx; repeat destruct Hx as [<-|Hx]; try reflexivity; contradiction.
  - intros [|[|i]] r1 r2 H1 H2; simpl in *; try discriminate.
    injection H1 as <-. injection H2 as <-. discriminate.
Defined.

End TranscriptFacts.

(** ** Stopping a recording *)

Section StopFacts.

Import MuteServer.

Context {engine : Type} `{EngineHandle engine}.

Lemma sent_touch now m (w : t (engine := engine)) :
  sent (touch_last_inference now m w) = sent w.
Proof. apply touch_last_inference_frame. Qed.

Lemma calls_touch now m (w : t (engine := engine)) :
  calls (touch_last_inference now m w) = calls w.
Proof. apply touch_last_inference_frame. Qed.

Lemma heap_touch now m (w : t (engine := engine)) :
  heap (touch_last_inference now m w) = heap w.
Proof. apply touch_last_inference_frame. Qed.

(** X11.  [handle_stop] on a recording session always ends the recording:
    whatever the engine does, the session is left not recording with an
    empty buffer, exactly one message is sent to the client, a final result
    or an error; the engine is asked for at most one transcription, of the
    whole buffer, and [end_session] is the last call made on it. *)
Theorem handle_stop_always_ends (now : Q) (websocket : nat)
    (session : ClientSession.t) (w : t (engine := engine)) :
  ClientSession.is_recording session = true ->
  ClientSession.is_recording (fst (handle_stop now websocket session w)) = false
  /\ ClientSession.audio_chunks (fst (handle_stop now websocket session w)) = []
  /\ ClientSession.total_samples (fst (handle_stop now websocket session w)) = 0
  /\ ClientSession.active_engine (fst (handle_stop now websocket session w))
     = ClientSession.active_engine session
  /\ (exists msg,
        sent (snd (handle_stop now websocket session w))
        = sent w ++ [(websocket, msg)]
        /\ (msg_get "type" msg = Some (JStr "final")
            \/ msg_get "type" msg = Some (JStr "error")))
  /\ match ClientSession.active_engine session with
     | Some r =>
         calls (snd (handle_stop now websocket session w))
         = calls w ++ [(r, CallEndSession)]
         \/ calls (snd (handle_stop now websocket session w))
            = calls w
              ++ [(r, CallTranscribeFinal (ClientSession.get_audio_array session));
                  (r, CallEndSession)]
     | None => calls (snd (handle_stop now websocket session w)) = calls w
     end.
Proof.
  intros Hrec. destruct session as [rec ch tot cm lp ae am hd de wd fa].
  simpl in Hrec. subst rec.
  unfold handle_stop.
  destruct wd as [[| |]|]; simpl;
    (destruct (0 <? tot); destruct ae as [r|]; simpl;
     [unfold call_transcribe_final;
      destruct (transcribe_final (heap w r) _) as [e [text|msg]]; simpl
     |..]);
    rewrite ?sent_touch, ?calls_touch; simpl;
    repeat match goal with |- _ /\ _ => split end;
    first [ reflexivity
          | eexists; split; [reflexivity | simpl; auto; fail]
          | left; reflexivity
          | right; rewrite <- ?app_assoc; reflexivity ].
Qed.

Lemma last_inference_touch now m (w : t (engine := engine)) :
  last_inference_time (touch_last_inference now m w)
  = match m with
    | Some k => if str_truthy k then <[k := now]> (last_inference_time w)
                else last_inference_time w
    | None => last_inference_time w
    end.
Proof.
  unfold touch_last_inference.
  destruct m as [k|]; [destruct (str_truthy k)|]; reflexivity.
Qed.

(** X12.  The outcome of a stop with audio in the buffer.  When the engine
    answers, the final message carries the engine's text, or the engine's
    last partial transcription when the text is empty and that one is not,
    together with timestamp 0 and the session's model, and the model's last
    inference time becomes [now].  When the engine raises, the client gets
    the error message and the last inference times stay as they were.
    Either way the bound engine is left as [end_session] leaves it and no
    other engine object is touched. *)
Theorem handle_stop_final_text (now : Q) (websocket : nat)
    (session : ClientSession.t) (w : t (engine := engine)) (r : nat)
    (e' : engine) (res : outcome string) :
  ClientSession.is_recording session = true ->
  0 < ClientSession.total_samples session ->
  ClientSession.active_engine session = Some r ->
  transcribe_final (heap w r) (ClientSession.get_audio_array session) = (e', res) ->
  match res with
  | Ok text =>
      sent (snd (handle_stop now websocket session w))
      = sent w
        ++ [(websocket,
             [("type", JStr "final");
              ("text",
               JStr (if negb (str_truthy text)
                        && str_truthy (last_transcription e')
                     then last_transcription e' else text));
              ("timestamp", JInt 0);
              ("model", json_opt_str (ClientSession.active_model session))])]
      /\ last_inference_time (snd (handle_stop now websocket session w))
         = match ClientSession.active_model session with
           | Some k => if str_truthy k then <[k := now]> (last_inference_time w)
                       else last_inference_time w
           | None => last_inference_time w
           end
  | Raise msg =>
      sent (snd (handle_stop now websocket session w))
      = sent w ++ [(websocket, [("type", JStr "error"); ("message", JStr msg)])]
      /\ last_inference_time (snd (handle_stop now websocket session w))
         = last_inference_time w
  end
  /\ heap (snd (handle_stop now websocket session w)) r = end_session e'
  /\ (forall r', r' <> r ->
        heap (snd (handle_stop now websocket session w)) r' = heap w r').
Proof.
  intros Hrec Htot Hr Hcall.
  destruct session as [rec ch tot cm lp ae am hd de wd fa].
  simpl in Hrec, Htot, Hr. subst rec ae.
  apply Z.ltb_lt in Htot.
  unfold ClientSession.get_audio_array in Hcall. simpl in Hcall.
  unfold handle_stop.
  destruct wd as [[| |]|]; simpl; rewrite Htot; simpl;
    unfold call_transcribe_final, ClientSession.get_audio_array; simpl;
    rewrite Hcall; destruct res as [text|msg];
    simpl; rewrite ?sent_touch, ?heap_touch, ?last_inference_touch; simpl;
    rewrite ?Nat.eqb_refl;
    (split; [split; reflexivity|]); (split; [reflexivity|]);
    intros r' Hne; apply Nat.eqb_neq in Hne; rewrite Hne; reflexivity.
Qed.

(** X13.  Stopping twice is stopping once: a second [handle_stop], at any
    later time and for any websocket, sends nothing, calls no engine and
    changes neither the session nor the server. *)
Theorem handle_stop_idempotent (now now' : Q) (websocket websocket' : nat)
    (session : ClientSession.t) (w : t (engine := engine)) :
  handle_stop now' websocket'
    (fst (handle_stop now websocket session w))
    (snd (handle_stop now websocket session w))
  = handle_stop now websocket session w.
Proof.
  destruct session as [rec ch tot cm lp ae am hd de wd fa].
  destruct wd as [[| |]|]; destruct rec; reflexivity.
Qed.

End StopFacts.

(** ** Interval requests *)

Section IntervalFacts.

Import MuteServer.

Context {engine : Type} `{EngineHandle engine}.

(** A request that cannot be served yet is answered with the empty result
    and consumes nothing. *)
Lemma interval_not_ready now websocket session (w : t (engine := engine)) :
  ClientSession.is_recording session = true ->
  ClientSession.total_samples session = 0
  \/ ClientSession.active_engine session = None
  \/ (ClientSession.get_buffer_seconds session < context_seconds + 1)%Q ->
  handle_transcribe_interval now websocket session w
  = (session, send websocket empty_interval w).
Proof.
  intros Hrec Hcase. unfold handle_transcribe_interval. rewrite Hrec. simpl.
  destruct (Z.eqb_spec (ClientSession.total_samples session) 0) as [E|NE];
    [destruct (ClientSession.active_engine session); reflexivity|].
  destruct (ClientSession.active_engine session) as [r|]; [|reflexivity].
  destruct Hcase as [E|[E|Hlt]]; [contradiction | discriminate |].
  apply Qlt_bool_iff in Hlt. rewrite Hlt. reflexivity.
Qed.

(** The two ways a request that reaches the engine ends: a result is sent,
    the first interval is marked done and the buffer is cut to the context;
    or the engine raised, an error is sent and the session is untouched. *)
Lemma interval_served now websocket session (w : t (engine := engine)) r :
  ClientSession.is_recording session = true ->
  ClientSession.active_engine session = Some r ->
  (context_seconds + 1 <= ClientSession.get_buffer_seconds session)%Q ->
  (exists text speakers w1,
     handle_transcribe_interval now websocket session w
     = (ClientSession.keep_audio_tail
          (ClientSession.set_has_done_first_interval session true)
          context_seconds,
        touch_last_inference now (ClientSession.active_model session)
          (send websocket
             [("type", JStr "interval_transcription"); ("text", JStr text);
              ("speakers", JStrs speakers); ("is_final", JBool false)] w1))
     /\ sent w1 = sent w
     /\ last_inference_time w1 = last_inference_time w
     /\ (if has_transcribe_with_timestamps (heap w r)
         then exists result,
                snd (transcribe_with_timestamps (heap w r)
                       (ClientSession.get_audio_array session)) = Ok result
         else exists t0,
                snd (transcribe_final (heap w r)
                       (ClientSession.get_audio_array session)) = Ok t0))
  \/ (exists msg w1,
        handle_transcribe_interval now websocket session w
        = (session, send_error websocket msg w1)
        /\ sent w1 = sent w
        /\ last_inference_time w1 = last_inference_time w
        /\ (if has_transcribe_with_timestamps (heap w r)
            then snd (transcribe_with_timestamps (heap w r)
                        (ClientSession.get_audio_array session)) = Raise msg
            else snd (transcribe_final (heap w r)
                        (ClientSession.get_audio_array session)) = Raise msg)).
Proof.
  intros Hrec Hr Hbuf. unfold handle_transcribe_interval.
  rewrite Hrec, Hr. simpl negb. cbv iota.
  assert (Htot : (ClientSession.total_samples session =? 0) = false).
  { apply Z.eqb_neq. intros E. unfold ClientSession.get_buffer_seconds in Hbuf.
    rewrite E in Hbuf. vm_compute in Hbuf. apply Hbuf. reflexivity. }
  rewrite Htot.
  apply Qlt_bool_false_iff in Hbuf. rewrite Hbuf.
  destruct (has_transcribe_with_timestamps (heap w r)).
  - unfold call_transcribe_with_timestamps.
    destruct (transcribe_with_timestamps (heap w r) _) as [e [result|msg]].
    + destruct (apply_diarization _ _ _ _) as [words speakers].
      left. do 3 eexists. split; [reflexivity|]. simpl. eauto.
    + right. do 2 eexists. split; [reflexivity|]. simpl. eauto.
  - unfold call_transcribe_final.
    destruct (transcribe_final (heap w r) _) as [e [text|msg]].
    + left. do 3 eexists. split; [reflexivity|]. simpl. eauto.
    + right. do 2 eexists. split; [reflexivity|]. simpl. eauto.
Qed.

(** The context kept after an interval: 2 s, that is 32000 samples. *)
Lemma keep_context_tail session :
  ClientSession.total_samples session
  = ClientSession.stored_samples (ClientSession.audio_chunks session) ->
  (context_seconds + 1 <= ClientSession.get_buffer_seconds session)%Q ->
  ClientSession.keep_audio_tail
    (ClientSession.set_has_done_first_interval session true) context_seconds
  = ClientSession.set_audio
      (ClientSession.set_has_done_first_interval session true)
      [drop (length (ClientSession.get_audio_array session) - Z.to_nat 32000)
         (ClientSession.get_audio_array session)]
      32000.
Proof.
  intros Hs Hbuf.
  assert (Hk : py_int (16000 * context_seconds) = 32000) by reflexivity.
  assert (Hbig : 48000 <= ClientSession.total_samples session).
  { rewrite Zle_Qle. pose proof (buffer_seconds_scaled session) as Hb.
    revert Hb Hbuf.
    generalize (ClientSession.get_buffer_seconds session),
      (inject_Z (ClientSession.total_samples session)).
    intros b q Hb Hbuf. unfold context_seconds in Hbuf.
    change (inject_Z 48000) with (48000 # 1)%Q. lra. }
  rewrite keep_audio_tail_gt by (rewrite Hk; simpl; lia).
  rewrite Hk.
  change (ClientSession.get_audio_array
            (ClientSession.set_has_done_first_interval session true))
    with (ClientSession.get_audio_array session).
  pose proof (get_audio_array_len session Hs) as Hlen.
  destruct (py_slice_from_last 32000 (ClientSession.get_audio_array session))
    as [Hd Hl]; [lia|].
  rewrite Hl, Hd. reflexivity.
Qed.

(** X14.  Two interval requests in a row.  When a request on a buffer of
    at least 3 s is answered with a result, the session is left with
    exactly the last 32000 samples (2 s) of its audio as context and with
    its first interval marked done; and a second request made before any
    new audio arrives is answered with the empty result, without any call
    to the engine and without touching the buffer. *)
Theorem interval_then_interval (now now' : Q) (websocket : nat)
    (session : ClientSession.t) (w : t (engine := engine)) (r : nat) :
  ClientSession.total_samples session
  = ClientSession.stored_samples (ClientSession.audio_chunks session) ->
  ClientSession.is_recording session = true ->
  ClientSession.active_engine session = Some r ->
  (context_seconds + 1 <= ClientSession.get_buffer_seconds session)%Q ->
  msg_get "type"
    (snd (List.last (sent (snd (handle_transcribe_interval now websocket
                                  session w)))
            (websocket, [])))
  = Some (JStr "interval_transcription") ->
  ClientSession.audio_chunks
    (fst (handle_transcribe_interval now websocket session w))
  = [drop (length (ClientSession.get_audio_array session) - Z.to_nat 32000)
       (ClientSession.get_audio_array session)]
  /\ ClientSession.total_samples
       (fst (handle_transcribe_interval now websocket session w)) = 32000
  /\ ClientSession.has_done_first_interval
       (fst (handle_transcribe_interval now websocket session w)) = true
  /\ handle_transcribe_interval now' websocket
       (fst (handle_transcribe_interval now websocket session w))
       (snd (handle_transcribe_interval now websocket session w))
     = (fst (handle_transcribe_interval now websocket session w),
        send websocket empty_interval
          (snd (handle_transcribe_interval now websocket session w))).
Proof.
  intros Hs Hrec Hr Hbuf Hreply.
  destruct (interval_served now websocket session w r Hrec Hr Hbuf)
    as [(text & speakers & w1 & E & _)|(msg & w1 & E & _)].
  - rewrite E in *. cbn [fst snd].
    rewrite (keep_context_tail session Hs Hbuf).
    repeat split.
    apply interval_not_ready; [exact Hrec|].
    right. right. vm_compute. reflexivity.
  - exfalso. rewrite E in Hreply. cbn [snd] in Hreply.
    unfold send_error, send, set_sent in Hreply. cbn [sent] in Hreply.
    rewrite List.last_last in Hreply. discriminate.
Qed.

(** X15.  An interval request that the engine fails is not lost: the
    client gets the error, and the session keeps its whole buffer and its
    interval bookkeeping, so the same audio is transcribed by the next
    request; the last inference times are not updated. *)
Theorem interval_engine_failure (now : Q) (websocket : nat)
    (session : ClientSession.t) (w : t (engine := engine)) (r : nat)
    (msg : string) :
  ClientSession.is_recording session = true ->
  ClientSession.active_engine session = Some r ->
  (context_seconds + 1 <= ClientSession.get_buffer_seconds session)%Q ->
  (if has_transcribe_with_timestamps (heap w r)
   then snd (transcribe_with_timestamps (heap w r)
               (ClientSession.get_audio_array session)) = Raise msg
   else snd (transcribe_final (heap w r)
               (ClientSession.get_audio_array session)) = Raise msg) ->
  fst (handle_transcribe_interval now websocket session w) = session
  /\ sent (snd (handle_transcribe_interval now websocket session w))
     = sent w ++ [(websocket, [("type", JStr "error"); ("message", JStr msg)])]
  /\ last_inference_time (snd (handle_transcribe_interval now websocket session w))
     = last_inference_time w.
Proof.
  intros Hrec Hr Hbuf Hraise.
  destruct (interval_served now websocket session w r Hrec Hr Hbuf)
    as [(text & speakers & w1 & _ & _ & _ & Hok)|(m & w1 & E & Hs & Hl & Hm)].
  - exfalso. destruct (has_transcribe_with_timestamps (heap w r));
      destruct Hok as [x Hx]; congruence.
  - assert (m = msg) as ->
      by (destruct (has_transcribe_with_timestamps (heap w r)); congruence).
    rewrite E. cbn [fst snd]. unfold send_error, send, set_sent.
    cbn [sent last_inference_time]. rewrite Hs, Hl. repeat split.
Qed.

End IntervalFacts.

(** ** The pool of engines *)

Section PoolFacts.

Import MuteServer.

Context {engine : Type} `{EngineHandle engine}.

Lemma dict_set_absent {V} (k : string) (v : V) (d : list (string * V)) :
  dict_get k d = None -> dict_set k v d = d ++ [(k, v)].
Proof.
  induction d as [|[k0 v0] d IH]; simpl; [reflexivity|].
  destruct (String.eqb k0 k); [discriminate|]. intros E. rewrite IH by exact E.
  reflexivity.
Qed.

Lemma dict_del_set_absent {V} (k : string) (v : V) (d : list (string * V)) :
  dict_get k d = None -> dict_del k (dict_set k v d) = d.
Proof.
  intros E. rewrite (dict_set_absent k v d E).
  induction d as [|[k0 v0] d IH]; simpl in *.
  - rewrite String.eqb_refl. reflexivity.
  - destruct (String.eqb k0 k); [discriminate|]. rewrite IH by exact E.
    reflexivity.
Qed.

(** Whether or not the engine raises, [_unload_model] leaves the pool as it
    was or removes the one model; it hands out no reference. *)
Lemma unload_model_cases model_id (w : t (engine := engine)) :
  next_ref (_unload_model model_id w) = next_ref w
  /\ ((engines (_unload_model model_id w) = engines w
       /\ loaded_models (_unload_model model_id w) = loaded_models w)
      \/ (engines (_unload_model model_id w) = dict_del model_id (engines w)
          /\ loaded_models (_unload_model model_id w)
             = loaded_models w ∖ {[model_id]})).
Proof.
  assert (Hnotify : forall msg cs (w0 : t (engine := engine)),
    next_ref (foldl (fun w client => send client msg w) w0 cs) = next_ref w0).
  { intros msg cs. induction cs as [|c cs IH]; intros w0; simpl; [reflexivity|].
    rewrite IH. reflexivity. }
  unfold _unload_model.
  destruct (dict_get model_id (engines w)) as [r|]; [|auto].
  destruct (has_unload (heap w r)).
  - unfold call_unload. destruct (unload (heap w r)) as [e [[]|msg]];
      rewrite Hnotify;
      match goal with |- context [foldl ?f ?a ?l] =>
        destruct (notify_frame
                    [("type", JStr "model_unloaded"); ("model", JStr model_id)]
                    l a) as (-> & -> & _)
      end; simpl; auto.
  - rewrite Hnotify.
    match goal with |- context [foldl ?f ?a ?l] =>
      destruct (notify_frame
                  [("type", JStr "model_unloaded"); ("model", JStr model_id)]
                  l a) as (-> & -> & _)
    end; simpl; auto.
Qed.

Lemma pool_inv_removed (w w' : t (engine := engine)) model_id :
  pool_inv w -> pool_wf w' -> next_ref w' = next_ref w ->
  (engines w' = engines w /\ loaded_models w' = loaded_models w)
  \/ (engines w' = dict_del model_id (engines w)
      /\ loaded_models w' = loaded_models w ∖ {[model_id]}) ->
  pool_inv w'.
Proof.
  intros (Hwf & Hk & Hr & Hlt & Hv) Hwf' Hn Hcase. unfold pool_inv.
  split; [exact Hwf'|]. rewrite Hn.
  destruct Hcase as [[-> ->]|[-> ->]]; [auto|].
  split; [apply dict_del_NoDup, Hk|]. split; [apply dict_del_NoDup, Hr|].
  split.
  - intros m r Hin. apply (Hlt m), (dict_del_In model_id), Hin.
  - intros m Hm. apply Hv. apply elem_of_difference in Hm as [Hm _]. exact Hm.
Qed.

Lemma unload_model_inv model_id (w : t (engine := engine)) :
  pool_inv w -> pool_inv (_unload_model model_id w).
Proof.
  intros Hinv. destruct (unload_model_cases model_id w) as [Hn Hcase].
  apply (pool_inv_removed w _ model_id Hinv); [|exact Hn|exact Hcase].
  apply unload_model_wf, Hinv.
Qed.

Lemma unload_all_inv (l : list string) : forall w : t (engine := engine),
  pool_inv w -> pool_inv (foldl (fun w model_id => _unload_model model_id w) w l).
Proof.
  induction l as [|m l IH]; intros w Hinv; [exact Hinv|].
  apply IH, unload_model_inv, Hinv.
Qed.

Lemma load_model_inv env model_id (w : t (engine := engine)) :
  pool_inv w -> pool_inv (fst (load_model env model_id w)).
Proof.
  intros Hinv. pose proof Hinv as (Hwf & Hk & Hr & Hlt & Hv).
  unfold load_model. case_bool_decide as Hin; [exact Hinv|]. lazy zeta.
  match goal with
  | |- context [match ?x with Ok _ => _ | Raise _ => _ end] =>
      destruct x as [e|msg] eqn:Hload
  end; [|exact Hinv].
  assert (Hvalid : model_id = "parakeet" \/ model_id = "base"
                   \/ model_id = "large-v3-turbo").
  { destruct (String.eqb_spec model_id MODEL_PARAKEET) as [->|_]; [auto|].
    case_bool_decide as Hw; [|discriminate].
    unfold WHISPER_MODELS in Hw. apply list_elem_of_In in Hw. simpl in Hw.
    destruct Hw as [<-|[<-|[]]]; auto. }
  assert (Habs : dict_get model_id (engines w) = None).
  { destruct (dict_get model_id (engines w)) as [r|] eqn:E; [|reflexivity].
    exfalso. apply Hin. rewrite Hwf, elem_of_list_to_set, dict_get_keys, E.
    eauto. }
  unfold pool_inv. cbn [fst].
  split; [unfold pool_wf in *; simpl; rewrite dict_keys_set, Hwf; reflexivity|].
  simpl. rewrite (dict_set_absent _ _ _ Habs). unfold dict_keys.
  rewrite !map_app. simpl.
  split.
  { apply NoDup_app. split; [exact Hk|]. split; [|apply NoDup_singleton].
    intros x Hx Hx'. apply list_elem_of_singleton in Hx'. subst x.
    apply dict_get_keys in Hx as [r Hr']. congruence. }
  split.
  { apply NoDup_app. split; [exact Hr|]. split; [|apply NoDup_singleton].
    intros x Hx Hx'. apply list_elem_of_singleton in Hx'. subst x.
    apply list_elem_of_In, in_map_iff in Hx as ([m r] & E & Hmr).
    simpl in E. subst r. apply Hlt in Hmr. lia. }
  split.
  { intros m r Hmr. apply in_app_or in Hmr as [Hmr|[E|[]]].
    - apply Hlt in Hmr. lia.
    - injection E as <- <-. lia. }
  intros m Hm. apply elem_of_union in Hm as [Hm|Hm]; [auto|].
  apply elem_of_singleton in Hm. subst m. exact Hvalid.
Qed.

Lemma handle_clear_cache_inv wa websocket (w : t (engine := engine)) :
  pool_inv w -> pool_inv (fst (handle_clear_cache wa websocket w)).
Proof.
  intros Hinv.
  apply (pool_inv_removed w _ MODEL_PARAKEET Hinv);
    [apply handle_clear_cache_wf, Hinv|..];
    unfold handle_clear_cache;
    (destruct (dict_get MODEL_PARAKEET (engines w)) as [r|]; [|simpl; auto]);
    unfold call_unload; destruct (unload (heap w r)) as [e [[]|msg]]; simpl; auto.
Qed.

Lemma handle_stop_next_ref now websocket session (w : t (engine := engine)) :
  next_ref (snd (handle_stop now websocket session w)) = next_ref w.
Proof.
  assert (Ht : forall a b (c : t (engine := engine)),
            next_ref (touch_last_inference a b c) = next_ref c).
  { intros a b c. unfold touch_last_inference.
    destruct b as [k|]; [destruct (str_truthy k)|]; reflexivity. }
  unfold handle_stop.
  match goal with |- context [ClientSession.is_recording ?s] => generalize s end.
  intros s1. destruct (ClientSession.is_recording s1); simpl; [|reflexivity].
  destruct (0 <? ClientSession.total_samples s1);
    destruct (ClientSession.active_engine s1) as [r|]; simpl; rewrite ?Ht;
    try reflexivity.
  unfold call_transcribe_final.
  destruct (transcribe_final (heap w r) _) as [e [text|msg]]; simpl;
    rewrite ?Ht; reflexivity.
Qed.

Lemma handle_transcribe_interval_next_ref now websocket session
    (w : t (engine := engine)) :
  next_ref (snd (handle_transcribe_interval now websocket session w)) = next_ref w.
Proof.
  assert (Ht : forall a b (c : t (engine := engine)),
            next_ref (touch_last_inference a b c) = next_ref c).
  { intros a b c. unfold touch_last_inference.
    destruct b as [k|]; [destruct (str_truthy k)|]; reflexivity. }
  unfold handle_transcribe_interval.
  destruct (ClientSession.is_recording session); simpl; [|reflexivity].
  destruct (ClientSession.total_samples session =? 0);
    destruct (ClientSession.active_engine session) as [r|]; simpl;
    try reflexivity.
  destruct (Qlt_bool _ _); simpl; [reflexivity|].
  destruct (has_transcribe_with_timestamps (heap w r)).
  - unfold call_transcribe_with_timestamps.
    destruct (transcribe_with_timestamps (heap w r) _) as [e [result|msg]];
      [|reflexivity].
    destruct (apply_diarization _ _ _ _) as [words speakers]. simpl.
    rewrite Ht. reflexivity.
  - unfold call_transcribe_final.
    destruct (transcribe_final (heap w r) _) as [e [text|msg]]; simpl;
      rewrite ?Ht; reflexivity.
Qed.

Lemma same_pool_inv (w w' : t (engine := engine)) :
  same_pool w w' -> next_ref w' = next_ref w -> pool_inv w -> pool_inv w'.
Proof.
  unfold pool_inv, pool_wf. intros (-> & -> & _) -> Hinv. exact Hinv.
Qed.

(** X16.  In every state the server can reach, [loaded_models] names
    exactly the keys of [engines]; a model identifier appears in the pool at
    most once; no engine object is bound to two models; and only
    "parakeet", "base" and "large-v3-turbo" are ever loaded. *)
Theorem reachable_pool_shape (w : t (engine := engine)) :
  reachable w ->
  loaded_models w = list_to_set (dict_keys (engines w))
  /\ NoDup (dict_keys (engines w))
  /\ NoDup (map snd (engines w))
  /\ (forall m r, In (m, r) (engines w) -> (r < next_ref w)%nat)
  /\ (forall m, m ∈ loaded_models w ->
        m = "parakeet" \/ m = "base" \/ m = "large-v3-turbo").
Proof.
  intros Hreach. change (pool_inv w).
  induction Hreach as [h | env m w _ IH | m w _ IH | wa c w _ IH | now w _ IH
                      | now c s w _ IH | now c s w _ IH | en ms d w _ IH].
  - unfold pool_inv, pool_wf. simpl.
    repeat split; try apply NoDup_nil_2; try reflexivity.
    + intros m r [].
    + intros m Hm. apply elem_of_empty in Hm. contradiction.
  - apply load_model_inv, IH.
  - apply unload_model_inv, IH.
  - apply handle_clear_cache_inv, IH.
  - unfold keep_warm_tick.
    destruct (negb (keep_warm_enabled w)); [exact IH|].
    destruct (String.eqb (keep_warm_duration w) "permanent"); [exact IH|].
    apply unload_all_inv, IH.
  - exact (same_pool_inv _ _ (handle_stop_same_pool now c s w)
             (handle_stop_next_ref now c s w) IH).
  - exact (same_pool_inv _ _ (handle_transcribe_interval_same_pool now c s w)
             (handle_transcribe_interval_next_ref now c s w) IH).
  - exact IH.
Qed.

(** *** Loading *)

Lemma size_union_singleton_1 (X : gset string) (m : string) :
  m ∉ X -> (Z.of_nat (size (X ∪ {[m]})) =? 1) = bool_decide (X = ∅).
Proof.
  intros Hm. rewrite size_union by set_solver. rewrite size_singleton.
  case_bool_decide as HX.
  - subst X. rewrite size_empty. reflexivity.
  - apply Z.eqb_neq. intros E. apply HX.
    apply leibniz_equiv, size_empty_iff. lia.
Qed.

Lemma load_model_success (env : LoadEnv) (model_id : string)
    (w : t (engine := engine)) :
  model_id ∉ loaded_models w ->
  snd (load_model env model_id w) = Ok tt ->
      exists e,
        construct_and_load env model_id = Ok e
        /\ (model_id = "parakeet" \/ model_id = "base"
            \/ model_id = "large-v3-turbo")
        /\ loaded_models (fst (load_model env model_id w))
           = loaded_models w ∪ {[model_id]}
        /\ engines (fst (load_model env model_id w))
           = dict_set model_id (next_ref w) (engines w)
        /\ dict_get model_id (engines (fst (load_model env model_id w)))
           = Some (next_ref w)
        /\ (forall k, k <> model_id ->
              dict_get k (engines (fst (load_model env model_id w)))
              = dict_get k (engines w))
        /\ heap (fst (load_model env model_id w)) (next_ref w) = e
        /\ (forall r, r <> next_ref w ->
              heap (fst (load_model env model_id w)) r = heap w r)
        /\ next_ref (fst (load_model env model_id w)) = S (next_ref w)
        /\ sent (fst (load_model env model_id w)) = sent w
        /\ last_inference_time (fst (load_model env model_id w))
           = last_inference_time w
        /\ default_model (fst (load_model env model_id w))
           = if bool_decide (default_model w = "parakeet")
                && bool_decide (loaded_models w = ∅)
             then model_id else default_model w.
Proof.
  intros Hnot. unfold load_model.
    rewrite bool_decide_eq_false_2 by exact Hnot. lazy zeta.
    match goal with
    | |- context [match ?x with Ok _ => _ | Raise _ => _ end] =>
        destruct x as [e|m] eqn:Hload
    end; [|discriminate].
    intros _. exists e.
    assert (Hvalid : construct_and_load env model_id = Ok e
                     /\ (model_id = "parakeet" \/ model_id = "base"
                         \/ model_id = "large-v3-turbo")).
    { destruct (String.eqb_spec model_id MODEL_PARAKEET) as [->|_].
      - destruct (model_path env) as [p|]; [|discriminate].
        destruct (str_truthy p); [auto | discriminate].
      - case_bool_decide as Hw; [|discriminate].
        destruct (WHISPER_AVAILABLE env); [|discriminate].
        split; [exact Hload|].
        unfold WHISPER_MODELS in Hw. apply list_elem_of_In in Hw. simpl in Hw.
        destruct Hw as [<-|[<-|[]]]; auto. }
    destruct Hvalid as [Hc Hv]. cbn [fst].
    split; [exact Hc|]. split; [exact Hv|]. simpl.
    rewrite Nat.eqb_refl, dict_get_set_eq.
    repeat split.
    + intros k Hk. apply dict_get_set_ne. auto.
    + intros r Hr. apply Nat.eqb_neq in Hr. rewrite Hr. reflexivity.
    + rewrite (bool_decide_eq_true_2 (model_id ∈ loaded_models w ∪ {[model_id]}))
        by (apply elem_of_union; right; apply elem_of_singleton; reflexivity).
      rewrite andb_true_r, (size_union_singleton_1 _ _ Hnot).
      destruct (String.eqb_spec (default_model w) MODEL_PARAKEET) as [E|NE].
      * rewrite (bool_decide_eq_true_2 _ E). reflexivity.
      * rewrite (bool_decide_eq_false_2 _ NE). reflexivity.
Qed.

(** X17.  What [load_model] does.  A load that raises changes nothing; a
    load of a model that is loaded changes nothing and succeeds; a load
    that succeeds for a model that was not loaded is of one of the three
    known models, binds it to a new engine object (the one the loader
    returned) under a reference no model had, leaves every other binding
    and engine object as it was, sends nothing, and makes the model the
    default exactly when the default was "parakeet" and nothing was
    loaded. *)
Theorem load_model_outcome (env : LoadEnv) (model_id : string)
    (w : t (engine := engine)) :
  (forall msg,
     snd (load_model env model_id w) = Raise msg ->
     fst (load_model env model_id w) = w)
  /\ (model_id ∈ loaded_models w -> load_model env model_id w = (w, Ok tt))
  /\ (model_id ∉ loaded_models w ->
      snd (load_model env model_id w) = Ok tt ->
      exists e,
        construct_and_load env model_id = Ok e
        /\ (model_id = "parakeet" \/ model_id = "base"
            \/ model_id = "large-v3-turbo")
        /\ loaded_models (fst (load_model env model_id w))
           = loaded_models w ∪ {[model_id]}
        /\ engines (fst (load_model env model_id w))
           = dict_set model_id (next_ref w) (engines w)
        /\ dict_get model_id (engines (fst (load_model env model_id w)))
           = Some (next_ref w)
        /\ (forall k, k <> model_id ->
              dict_get k (engines (fst (load_model env model_id w)))
              = dict_get k (engines w))
        /\ heap (fst (load_model env model_id w)) (next_ref w) = e
        /\ (forall r, r <> next_ref w ->
              heap (fst (load_model env model_id w)) r = heap w r)
        /\ next_ref (fst (load_model env model_id w)) = S (next_ref w)
        /\ sent (fst (load_model env model_id w)) = sent w
        /\ last_inference_time (fst (load_model env model_id w))
           = last_inference_time w
        /\ default_model (fst (load_model env model_id w))
           = if bool_decide (default_model w = "parakeet")
                && bool_decide (loaded_models w = ∅)
             then model_id else default_model w).
Proof.
  split; [|split].
  - intros msg. unfold load_model. case_bool_decide; [discriminate|]. lazy zeta.
    match goal with
    | |- context [match ?x with Ok _ => _ | Raise _ => _ end] =>
        destruct x as [e|m]
    end; [discriminate | reflexivity].
  - intros Hin. unfold load_model. rewrite bool_decide_eq_true_2 by exact Hin.
    reflexivity.
  - apply load_model_success.
Qed.

(** X18.  Loading a model and unloading it again restores the pool: the
    bindings and the loaded models are as before the load, and the model
    has no last inference time.  The default model is restored when it
    named another model and was not the initial "parakeet" of an empty
    pool; a default taken at the load (the pool was empty and the default
    was "parakeet") keeps naming the model after it is gone. *)
Theorem load_then_unload (env : LoadEnv) (model_id : string)
    (w : t (engine := engine)) :
  unload_never_raises (engine := engine) -> pool_wf w ->
  model_id ∉ loaded_models w ->
  snd (load_model env model_id w) = Ok tt ->
  engines (_unload_model model_id (fst (load_model env model_id w))) = engines w
  /\ loaded_models (_unload_model model_id (fst (load_model env model_id w)))
     = loaded_models w
  /\ last_inference_time
       (_unload_model model_id (fst (load_model env model_id w)))
     = delete model_id (last_inference_time w)
  /\ (default_model w <> model_id ->
      default_model w <> "parakeet" \/ loaded_models w <> ∅ ->
      default_model (_unload_model model_id (fst (load_model env model_id w)))
      = default_model w)
  /\ (default_model w = "parakeet" -> loaded_models w = ∅ ->
      default_model (_unload_model model_id (fst (load_model env model_id w)))
      = model_id).
Proof.
  intros Hok Hwf Hnot Hload.
  destruct (load_model_success env model_id w Hnot Hload)
    as (e & _ & _ & Hl & He & Hget & _ & _ & _ & _ & _ & Hlit & Hd).
  assert (Habs : dict_get model_id (engines w) = None).
  { destruct (dict_get model_id (engines w)) as [r|] eqn:E; [|reflexivity].
    exfalso. apply Hnot. rewrite Hwf, elem_of_list_to_set, dict_get_keys, E.
    eauto. }
  destruct (unload_model_present model_id (next_ref w)
              (fst (load_model env model_id w)) Hok Hget)
    as (-> & -> & -> & ->).
  rewrite He, Hl, Hlit, Hd, (dict_del_set_absent _ _ _ Habs).
  split; [reflexivity|].
  split.
  { apply set_eq. intros x.
    rewrite elem_of_difference, elem_of_union, elem_of_singleton.
    split; [intros [[Hx|Hx] Hne]; [exact Hx | contradiction]|].
    intros Hx. split; [auto|]. intros ->. contradiction. }
  split; [reflexivity|]. split.
  - intros Hne Hcase.
    assert (Hb : bool_decide (default_model w = "parakeet")
                 && bool_decide (loaded_models w = ∅) = false).
    { destruct Hcase as [Hc|Hc]; rewrite (bool_decide_eq_false_2 _ Hc);
        [reflexivity | apply andb_false_r]. }
    rewrite Hb. destruct (String.eqb_spec (default_model w) model_id);
      [contradiction | reflexivity].
  - intros Hp He0.
    rewrite (bool_decide_eq_true_2 _ Hp), (bool_decide_eq_true_2 _ He0). simpl.
    rewrite String.eqb_refl. rewrite Hwf in He0.
    destruct (engines w) as [|[k v] d]; [reflexivity|].
    exfalso.
    assert (Hk : k ∈ (list_to_set (dict_keys ((k, v) :: d)) : gset string))
      by (apply elem_of_list_to_set; left).
    rewrite He0 in Hk. apply elem_of_empty in Hk. exact Hk.
Qed.

(** *** Clearing the Parakeet cache *)

Lemma handle_clear_cache_shape wa websocket (w : t (engine := engine)) :
  unload_never_raises (engine := engine) -> pool_wf w ->
  exists w1,
    handle_clear_cache wa websocket w = (send_status wa websocket w1, Ok tt)
    /\ engines w1 = dict_del MODEL_PARAKEET (engines w)
    /\ loaded_models w1 = loaded_models w ∖ {[MODEL_PARAKEET]}
    /\ last_inference_time w1 = last_inference_time w
    /\ sent w1 = sent w
    /\ default_model w1
       = if String.eqb (default_model w) MODEL_PARAKEET then
           match dict_del MODEL_PARAKEET (engines w) with
           | (first, _) :: _ => first
           | [] => default_model w
           end
         else default_model w.
Proof.
  intros Hok Hwf. unfold handle_clear_cache.
  destruct (dict_get MODEL_PARAKEET (engines w)) as [r|] eqn:E.
  - unfold call_unload. pose proof (Hok (heap w r)) as Hr.
    destruct (unload (heap w r)) as [e res]. simpl in Hr. subst res.
    eexists. split; [reflexivity|]. simpl. repeat split.
  - eexists. split; [reflexivity|]. simpl.
    rewrite (dict_del_absent _ _ E). repeat split.
    apply set_eq. intros x.
    rewrite elem_of_difference, not_elem_of_singleton.
    split; [|tauto]. intros Hx. split; [exact Hx|]. intros ->.
    rewrite Hwf, elem_of_list_to_set, dict_get_keys, E in Hx.
    destruct Hx as [y Hy]. discriminate.
Qed.

(** X19.  [handle_clear_cache], the engines not raising from [unload]:
    Parakeet is no longer loaded and has no engine, every other model keeps
    its engine, and the one message sent is a status to the requesting
    client that reports Parakeet as not loaded, so the other clients are not
    told.  Unlike [_unload_model], it keeps the last inference time of
    Parakeet.  The default model moves off "parakeet" exactly when another
    model is loaded. *)
Theorem handle_clear_cache_effects (wa : bool) (websocket : nat)
    (w : t (engine := engine)) :
  unload_never_raises (engine := engine) -> pool_wf w ->
  snd (handle_clear_cache wa websocket w) = Ok tt
  /\ loaded_models (fst (handle_clear_cache wa websocket w))
     = loaded_models w ∖ {["parakeet"]}
  /\ (forall k,
        dict_get k (engines (fst (handle_clear_cache wa websocket w)))
        = if String.eqb k "parakeet" then None else dict_get k (engines w))
  /\ last_inference_time (fst (handle_clear_cache wa websocket w))
     = last_inference_time w
  /\ sent (fst (handle_clear_cache wa websocket w))
     = sent w
       ++ [(websocket,
            [("type", JStr "ready");
             ("model_loaded",
              JBool (0 <? Z.of_nat (size (loaded_models w ∖ {["parakeet"]}))));
             ("parakeet_loaded", JBool false);
             ("whisper_available", JBool wa);
             ("active_model",
              JStr (default_model (fst (handle_clear_cache wa websocket w))));
             ("loaded_models",
              JStrs (elements (loaded_models w ∖ {["parakeet"]})))])]
  /\ (default_model w <> "parakeet" ->
      default_model (fst (handle_clear_cache wa websocket w)) = default_model w)
  /\ (default_model (fst (handle_clear_cache wa websocket w)) = "parakeet"
      <-> default_model w = "parakeet"
          /\ loaded_models w ∖ {["parakeet"]} = ∅).
Proof.
  intros Hok Hwf.
  pose proof (handle_clear_cache_wf wa websocket w Hwf) as Hwf'.
  destruct (handle_clear_cache_shape wa websocket w Hok Hwf)
    as (w1 & E & He & Hl & Hlit & Hs & Hd).
  rewrite E in *. cbn [fst snd] in *.
  unfold pool_wf in Hwf'. unfold MODEL_PARAKEET in *.
  change (engines (send_status wa websocket w1)) with (engines w1) in *.
  change (loaded_models (send_status wa websocket w1))
    with (loaded_models w1) in *.
  change (default_model (send_status wa websocket w1))
    with (default_model w1).
  change (last_inference_time (send_status wa websocket w1))
    with (last_inference_time w1).
  split; [reflexivity|]. split; [exact Hl|]. split.
  { intros k. rewrite He. destruct (String.eqb_spec k "parakeet") as [->|Hne].
    - apply dict_get_del_eq.
    - apply dict_get_del_ne. auto. }
  split; [exact Hlit|]. split.
  { unfold send_status, send, set_sent. cbn [sent]. rewrite Hs, Hl.
    rewrite (bool_decide_eq_false_2
               ("parakeet" ∈ loaded_models w ∖ {["parakeet"]}));
      [reflexivity|].
    rewrite elem_of_difference, elem_of_singleton. tauto. }
  split.
  { intros Hne. rewrite Hd.
    destruct (String.eqb_spec (default_model w) "parakeet");
      [contradiction | reflexivity]. }
  rewrite <- Hl, Hwf', He, Hd.
  destruct (String.eqb_spec (default_model w) "parakeet") as [Hp|Hp].
  - destruct (dict_del "parakeet" (engines w)) as [|[first r] d] eqn:Hdel.
    + split; [intros _; split; [exact Hp | reflexivity] | intros [? _]; exact Hp].
    + assert (Hfirst : first <> "parakeet").
      { intros ->. pose proof (dict_get_del_eq "parakeet" (engines w)) as Hg.
        rewrite Hdel in Hg. simpl in Hg. discriminate. }
      split; [intros ?; contradiction|]. intros [_ Hempty]. exfalso.
      assert (Hk : first ∈ (list_to_set (dict_keys ((first, r) :: d))
                            : gset string))
        by (apply elem_of_list_to_set; left).
      rewrite Hempty in Hk. apply elem_of_empty in Hk. exact Hk.
  - split; [intros ?; contradiction | intros [? _]; contradiction].
Qed.

(** *** Telling the clients *)

Lemma notify_sent (msg : message) (cs : list nat) :
  forall w : t (engine := engine),
  sent (foldl (fun w client => send client msg w) w cs)
  = sent w ++ map (fun c => (c, msg)) cs
  /\ clients (foldl (fun w client => send client msg w) w cs) = clients w.
Proof.
  induction cs as [|c cs IH]; intros w; simpl.
  - rewrite app_nil_r. split; reflexivity.
  - destruct (IH (send c msg w)) as [-> ->]. unfold send, set_sent. simpl.
    rewrite <- app_assoc. split; reflexivity.
Qed.

Lemma unload_model_sent model_id r (w : t (engine := engine)) :
  dict_get model_id (engines w) = Some r ->
  sent (_unload_model model_id w)
  = sent w
    ++ map (fun c => (c, [("type", JStr "model_unloaded");
                          ("model", JStr model_id)])) (clients w)
  /\ clients (_unload_model model_id w) = clients w.
Proof.
  intros E. unfold _unload_model. rewrite E.
  destruct (has_unload (heap w r)).
  - unfold call_unload. destruct (unload (heap w r)) as [e [[]|msg]];
      match goal with |- context [foldl ?f ?a ?l] =>
        destruct (notify_sent
                    [("type", JStr "model_unloaded"); ("model", JStr model_id)]
                    l a) as [-> ->]
      end; split; reflexivity.
  - match goal with |- context [foldl ?f ?a ?l] =>
      destruct (notify_sent
                  [("type", JStr "model_unloaded"); ("model", JStr model_id)]
                  l a) as [-> ->]
    end; split; reflexivity.
Qed.

(** X20.  [_unload_model] of a model that has an engine tells every
    connected client, once and in order, that the model is unloaded, and
    sends nothing else.  It does so also when the engine's [unload] raised:
    the clients are told of an unload while the pool, the default model and
    the last inference times are what they were. *)
Theorem unload_model_notifies (model_id : string) (r : nat)
    (w : t (engine := engine)) :
  dict_get model_id (engines w) = Some r ->
  sent (_unload_model model_id w)
  = sent w
    ++ map (fun c => (c, [("type", JStr "model_unloaded");
                          ("model", JStr model_id)])) (clients w)
  /\ (forall msg,
        has_unload (heap w r) = true ->
        snd (unload (heap w r)) = Raise msg ->
        engines (_unload_model model_id w) = engines w
        /\ loaded_models (_unload_model model_id w) = loaded_models w
        /\ default_model (_unload_model model_id w) = default_model w
        /\ last_inference_time (_unload_model model_id w)
           = last_inference_time w).
Proof.
  intros E. split; [apply (unload_model_sent model_id r w E)|].
  intros msg Hhas Hraise. unfold _unload_model. rewrite E, Hhas.
  unfold call_unload. destruct (unload (heap w r)) as [e res].
  simpl in Hraise. subst res.
  match goal with |- context [foldl ?f ?a ?l] =>
    destruct (notify_frame
                [("type", JStr "model_unloaded"); ("model", JStr model_id)]
                l a) as (-> & -> & -> & ->)
  end.
  repeat split.
Qed.

Lemma unload_model_other model_id k (w : t (engine := engine)) :
  k <> model_id ->
  dict_get k (engines (_unload_model model_id w)) = dict_get k (engines w).
Proof.
  intros Hne. destruct (unload_model_cases model_id w) as [_ [[-> _]|[-> _]]];
    [reflexivity|]. apply dict_get_del_ne. auto.
Qed.

Lemma unload_all_sent (l : list string) : forall w : t (engine := engine),
  NoDup l -> (forall m, m ∈ l -> is_Some (dict_get m (engines w))) ->
  sent (foldl (fun w model_id => _unload_model model_id w) w l)
  = sent w
    ++ flat_map
         (fun m => map (fun c => (c, [("type", JStr "model_unloaded");
                                      ("model", JStr m)])) (clients w)) l.
Proof.
  induction l as [|m l IH]; intros w Hnd Hin; cbn [foldl flat_map].
  - rewrite app_nil_r. reflexivity.
  - apply NoDup_cons in Hnd as [Hm Hnd].
    destruct (Hin m) as [r Hr]; [left|].
    destruct (unload_model_sent m r w Hr) as [Hs Hc].
    rewrite IH, Hs, Hc, <- app_assoc; [reflexivity | exact Hnd |].
    intros k Hk. rewrite unload_model_other; [apply Hin; right; exact Hk|].
    intros ->. contradiction.
Qed.

(** X21.  What a pass of the keep-warm monitor sends: for each model it
    marks, in the order it marks them, one "model_unloaded" message to each
    connected client, and nothing else. *)
Theorem keep_warm_tick_notifies (now : Q) (w : t (engine := engine)) :
  pool_wf w -> keep_warm_enabled w = true ->
  keep_warm_duration w <> "permanent" ->
  sent (keep_warm_tick now w)
  = sent w
    ++ flat_map
         (fun m => map (fun c => (c, [("type", JStr "model_unloaded");
                                      ("model", JStr m)])) (clients w))
         (models_to_unload now (_get_duration_seconds (keep_warm_duration w)) w).
Proof.
  intros Hwf Hen Hdur. unfold keep_warm_tick. rewrite Hen. simpl.
  destruct (String.eqb_spec (keep_warm_duration w) "permanent");
    [contradiction|].
  apply unload_all_sent.
  - unfold models_to_unload.
    apply NoDup_ListNoDup, List.NoDup_filter, NoDup_ListNoDup, NoDup_elements.
  - intros m Hm. apply models_to_unload_spec in Hm as [Hm _].
    rewrite Hwf, elem_of_list_to_set, dict_get_keys in Hm. exact Hm.
Qed.

End PoolFacts.

(** ** The engines behind the server *)

Section EngineFacts.

Import MuteServer.

Lemma real_engine_unload_never_raises :
  unload_never_raises (engine := RealEngine).
Proof. intros [a|a]; reflexivity. Qed.

(** A stop with audio whose transcription returns. *)
Lemma handle_stop_answered {engine : Type} `{EngineHandle engine}
    (now : Q) (websocket : nat) (session : ClientSession.t)
    (w : t (engine := engine)) (r : nat) (e' : engine) (text : string) :
  ClientSession.is_recording session = true ->
  0 < ClientSession.total_samples session ->
  ClientSession.active_engine session = Some r ->
  transcribe_final (heap w r) (ClientSession.get_audio_array session)
  = (e', Ok text) ->
  sent (snd (handle_stop now websocket session w))
  = sent w
    ++ [(websocket,
         [("type", JStr "final");
          ("text",
           JStr (if negb (str_truthy text) && str_truthy (last_transcription e')
                 then last_transcription e' else text));
          ("timestamp", JInt 0);
          ("model", json_opt_str (ClientSession.active_model session))])]
  /\ heap (snd (handle_stop now websocket session w)) r = end_session e'.
Proof.
  intros Hrec Htot Hr Hcall.
  destruct session as [rec ch tot cm lp ae am hd de wd fa].
  simpl in Hrec, Htot, Hr. subst rec ae.
  apply Z.ltb_lt in Htot.
  unfold ClientSession.get_audio_array in Hcall. simpl in Hcall.
  unfold handle_stop.
  destruct wd as [[| |]|]; simpl; rewrite Htot; simpl;
    unfold call_transcribe_final, ClientSession.get_audio_array; simpl;
    rewrite Hcall; simpl; rewrite ?sent_touch, ?heap_touch; simpl;
    rewrite ?Nat.eqb_refl; split; reflexivity.
Qed.

(** X22.  With the engines the server loads, a stop with audio in the
    buffer is always answered with a final message, never with an error.
    When the buffer holds fewer than 1600 samples (0.1 s), or the engine is
    not loaded, the text is the engine's last partial transcription, the
    network not being consulted; the text is empty only when there is no
    partial transcription to fall back on; and the engine is left with its
    partial transcription cleared. *)
Theorem real_engine_stop_is_final (now : Q) (websocket : nat)
    (session : ClientSession.t) (w : t (engine := RealEngine)) (r : nat) :
  ClientSession.is_recording session = true ->
  0 < ClientSession.total_samples session ->
  ClientSession.active_engine session = Some r ->
  exists text,
    sent (snd (handle_stop now websocket session w))
    = sent w
      ++ [(websocket,
           [("type", JStr "final"); ("text", JStr text); ("timestamp", JInt 0);
            ("model", json_opt_str (ClientSession.active_model session))])]
    /\ (py_len (ClientSession.get_audio_array session) < 1600
        \/ is_loaded (heap w r) = false ->
        text = last_transcription (heap w r))
    /\ (text = "" -> last_transcription (heap w r) = "")
    /\ last_transcription (heap (snd (handle_stop now websocket session w)) r)
       = ""
    /\ session_active (heap (snd (handle_stop now websocket session w)) r)
       = false.
Proof.
  intros Hrec Htot Hr.
  assert (Hcall : exists raw,
    transcribe_final (heap w r) (ClientSession.get_audio_array session)
    = (heap w r, Ok raw)
    /\ (py_len (ClientSession.get_audio_array session) < 1600
        \/ is_loaded (heap w r) = false -> raw = "")).
  { destruct (heap w r) as [a|a]; simpl; eexists; (split; [reflexivity|]);
      intros [Hshort|Hnot].
    - unfold ASREngine.transcribe_final. apply Z.ltb_lt in Hshort.
      rewrite Hshort. destruct (ASREngine.is_loaded a); reflexivity.
    - unfold ASREngine.transcribe_final. rewrite Hnot. reflexivity.
    - unfold WhisperEngine.transcribe_final. apply Z.ltb_lt in Hshort.
      rewrite Hshort. destruct (WhisperEngine.is_loaded a); reflexivity.
    - unfold WhisperEngine.transcribe_final. rewrite Hnot. reflexivity. }
  destruct Hcall as (raw & Hcall & Hraw).
  destruct (handle_stop_answered now websocket session w r (heap w r) raw
              Hrec Htot Hr Hcall) as [Hsent Hheap].
  eexists. split; [exact Hsent|]. split; [|split; [|split]].
  - intros Hcase. rewrite (Hraw Hcase).
    generalize (last_transcription (heap w r)). intros l.
    destruct l; reflexivity.
  - generalize (last_transcription (heap w r)). intros l.
    destruct raw, l; simpl; congruence.
  - rewrite Hheap. destruct (heap w r) as [a|a]; reflexivity.
  - rewrite Hheap. destruct (heap w r) as [a|a]; reflexivity.
Qed.

(** X23.  [transcribe_incremental] of either engine never raises and never
    forgets.  Outside a session, or not loaded, it answers the empty string
    and changes nothing.  Inside a session of a loaded engine the text it
    answers is the engine's [last_transcription] afterwards, it is not empty
    once a partial transcription exists, and on audio shorter than the
    engine's minimum (0.5 s for Parakeet, 1 s for Whisper) it repeats the
    last partial transcription without consulting the network. *)
Theorem transcribe_incremental_keeps_text (e : RealEngine) (audio : list sample) :
  exists e' text,
    transcribe_incremental e audio = (e', Ok text)
    /\ is_loaded e' = is_loaded e
    /\ session_active e' = session_active e
    /\ (is_loaded e && session_active e = false -> e' = e /\ text = "")
    /\ (is_loaded e = true -> session_active e = true ->
        last_transcription e' = text
        /\ (last_transcription e <> "" -> text <> "")
        /\ (py_len audio < match e with
                           | Parakeet _ => 8000
                           | Whisper _ => 16000
                           end ->
            e' = e /\ text = last_transcription e)).
Proof.
  destruct e as [a|a]; simpl.
  - unfold ASREngine.transcribe_incremental.
    destruct a as [m l sa lt]; simpl.
    destruct l, sa; simpl;
      try (do 2 eexists; repeat split; intros; discriminate).
    change (py_int (ASREngine.SAMPLE_RATE * (1 # 2))) with 8000.
    destruct (Z.ltb_spec (py_len audio) 8000) as [Hlt|Hge].
    + do 2 eexists. repeat split; intros; try discriminate; auto.
    + destruct (str_truthy _) eqn:Et.
      * do 2 eexists. repeat split; intros; try discriminate; try lia.
        intros E. rewrite E in Et. discriminate.
      * do 2 eexists. repeat split; intros; try discriminate; try lia; auto.
  - unfold WhisperEngine.transcribe_incremental.
    destruct a as [m l sa lt]; simpl.
    destruct l, sa; simpl;
      try (do 2 eexists; repeat split; intros; discriminate).
    change (py_int (WhisperEngine.SAMPLE_RATE * 1)) with 16000.
    destruct (Z.ltb_spec (py_len audio) 16000) as [Hlt|Hge].
    + do 2 eexists. repeat split; intros; try discriminate; auto.
    + destruct (str_truthy _) eqn:Et.
      * do 2 eexists. repeat split; intros; try discriminate; try lia.
        intros E. rewrite E in Et. discriminate.
      * do 2 eexists. repeat split; intros; try discriminate; try lia; auto.
Qed.

(** X24.  An interval request on a session bound to a loaded Parakeet
    engine.  [ASREngine] has no word timestamps, so the text sent is the
    stripped transcription of the whole buffer, the 2 s of context kept
    from the previous interval included: nothing is skipped on a later
    interval, and no speakers are reported even with diarization enabled. *)
Theorem parakeet_interval_whole_buffer (now : Q) (websocket : nat)
    (session : ClientSession.t) (w : t (engine := RealEngine)) (r : nat)
    (a : ASREngine.t) (net : list sample -> string) :
  ClientSession.total_samples session
  = ClientSession.stored_samples (ClientSession.audio_chunks session) ->
  ClientSession.is_recording session = true ->
  ClientSession.active_engine session = Some r ->
  (context_seconds + 1 <= ClientSession.get_buffer_seconds session)%Q ->
  heap w r = Parakeet a ->
  ASREngine.is_loaded a = true ->
  ASREngine.model a = Some net ->
  sent (snd (handle_transcribe_interval now websocket session w))
  = sent w
    ++ [(websocket,
         [("type", JStr "interval_transcription");
          ("text",
           JStr (if str_truthy (net (ClientSession.get_audio_array session))
                 then py_strip (net (ClientSession.get_audio_array session))
                 else ""));
          ("speakers", JStrs []); ("is_final", JBool false)])]
  /\ ClientSession.total_samples
       (fst (handle_transcribe_interval now websocket session w)) = 32000.
Proof.
  intros Hs Hrec Hr Hbuf Hheap Hloaded Hmodel.
  assert (Hbig : 48000 <= ClientSession.total_samples session).
  { rewrite Zle_Qle. pose proof (buffer_seconds_scaled session) as Hb.
    revert Hb Hbuf.
    generalize (ClientSession.get_buffer_seconds session),
      (inject_Z (ClientSession.total_samples session)).
    intros b q Hb Hbuf. unfold context_seconds in Hbuf.
    change (inject_Z 48000) with (48000 # 1)%Q. lra. }
  pose proof (get_audio_array_len session Hs) as Hlen.
  pose proof (keep_context_tail session Hs Hbuf) as Htail.
  unfold handle_transcribe_interval.
  rewrite Hrec, Hr. simpl negb. cbv iota.
  assert (Htot : (ClientSession.total_samples session =? 0) = false)
    by (apply Z.eqb_neq; lia).
  rewrite Htot.
  apply Qlt_bool_false_iff in Hbuf. rewrite Hbuf.
  rewrite Hheap. cbn [has_transcribe_with_timestamps real_engine].
  unfold call_transcribe_final. rewrite Hheap.
  cbn [transcribe_final real_engine].
  unfold ASREngine.transcribe_final, ASREngine._transcribe_sync.
  rewrite Hloaded, Hmodel. simpl negb. cbv iota.
  assert (Hlong : (py_len (ClientSession.get_audio_array session) <? 1600)
                  = false) by (apply Z.ltb_ge; lia).
  rewrite Hlong. cbn [fst snd].
  rewrite Htail. split; [|reflexivity].
  rewrite sent_touch. reflexivity.
Qed.

End EngineFacts.

(** ** Loading on request, audio and the watchdog *)

Section HandlerFacts.

Import MuteServer MuteServerHandlers.

Context {engine : Type} `{EngineHandle engine} `{IncrementalHandle engine}.

Lemma load_model_failure env model_id (w : t (engine := engine)) msg :
  snd (load_model env model_id w) = Raise msg ->
  fst (load_model env model_id w) = w.
Proof.
  unfold load_model. case_bool_decide; [discriminate|]. lazy zeta.
  match goal with
  | |- context [match ?x with Ok _ => _ | Raise _ => _ end] =>
      destruct x as [e|m]
  end; [discriminate | reflexivity].
Qed.

Lemma valid_model_truthy (model_id : string) :
  model_id ∈ MODEL_PARAKEET :: WHISPER_MODELS -> str_truthy model_id = true.
Proof.
  intros Hin. apply list_elem_of_In in Hin. simpl in Hin.
  destruct Hin as [<-|[<-|[<-|[]]]]; reflexivity.
Qed.

(** X25.  [handle_load_model] answers every request with exactly one
    message to the requester.  On a server that has only known models
    loaded, the answer is "model_loaded" exactly when the model is loaded
    once the handler is done; otherwise it is "error" (no or unknown model
    identifier) or "model_error" (the load raised), and the pool is what it
    was. *)
Theorem handle_load_model_reply (env : LoadEnv (engine := engine))
    (websocket : nat) (model_id : string) (w : t (engine := engine)) :
  (forall m, m ∈ loaded_models w -> m ∈ MODEL_PARAKEET :: WHISPER_MODELS) ->
  exists msg,
    sent (handle_load_model env websocket model_id w)
    = sent w ++ [(websocket, msg)]
    /\ (msg_get "type" msg = Some (JStr "model_loaded")
        <-> model_id ∈ loaded_models (handle_load_model env websocket model_id w))
    /\ (msg_get "type" msg = Some (JStr "model_loaded")
        \/ msg_get "type" msg = Some (JStr "model_error")
        \/ msg_get "type" msg = Some (JStr "error"))
    /\ (msg_get "type" msg <> Some (JStr "model_loaded") ->
        engines (handle_load_model env websocket model_id w) = engines w
        /\ loaded_models (handle_load_model env websocket model_id w)
           = loaded_models w
        /\ default_model (handle_load_model env websocket model_id w)
           = default_model w).
Proof.
  intros Hvalid. unfold handle_load_model.
  destruct (str_truthy model_id) eqn:Et; simpl.
  - case_bool_decide as Hv; simpl.
    + case_bool_decide as Hl.
      * eexists. split; [reflexivity|]. simpl.
        split; [tauto|]. split; [auto|]. intros Hne. contradiction.
      * destruct (load_model env model_id w) as [w1 res] eqn:El.
        destruct res as [[]|msg].
        -- destruct (load_model_success env model_id w Hl) as (e & Hs);
             [rewrite El; reflexivity|].
           rewrite El in Hs. cbn [fst] in Hs.
           destruct Hs as (_ & _ & Hlo & _ & _ & _ & _ & _ & _ & Hsent & _).
           eexists. unfold send, set_sent. cbn [sent loaded_models].
           rewrite Hsent. split; [reflexivity|]. simpl.
           split; [|split; [auto|intros Hne; contradiction]].
           split; [intros _|reflexivity].
           rewrite Hlo. apply elem_of_union. right.
           apply elem_of_singleton. reflexivity.
        -- pose proof (load_model_failure env model_id w msg) as Hf.
           rewrite El in Hf. cbn [fst snd] in Hf. rewrite (Hf eq_refl).
           eexists. split; [reflexivity|]. simpl.
           split; [split; [discriminate | intros ?; contradiction]|].
           split; [auto|]. intros _. repeat split.
    + eexists. split; [reflexivity|]. simpl.
      split; [split; [discriminate | intros Hin; exfalso; auto]|].
      split; [auto|]. intros _. repeat split.
  - eexists. split; [reflexivity|]. simpl.
    split; [split; [discriminate|]|].
    + intros Hin. apply Hvalid, valid_model_truthy in Hin. congruence.
    + split; [auto|]. intros _. repeat split.
Qed.

(** *** Audio *)

(** The session once [handle_audio] has noted the first audio. *)
Lemma first_audio_noted (session : ClientSession.t) :
  ClientSession.is_recording
    (if negb (ClientSession.first_audio_received session)
     then cancel_watchdog (set_first_audio_received session true)
     else session)
  = ClientSession.is_recording session
  /\ ClientSession.audio_chunks
       (if negb (ClientSession.first_audio_received session)
        then cancel_watchdog (set_first_audio_received session true)
        else session)
     = ClientSession.audio_chunks session
  /\ ClientSession.total_samples
       (if negb (ClientSession.first_audio_received session)
        then cancel_watchdog (set_first_audio_received session true)
        else session)
     = ClientSession.total_samples session
  /\ ClientSession.continuous_mode
       (if negb (ClientSession.first_audio_received session)
        then cancel_watchdog (set_first_audio_received session true)
        else session)
     = ClientSession.continuous_mode session
  /\ ClientSession.active_engine
       (if negb (ClientSession.first_audio_received session)
        then cancel_watchdog (set_first_audio_received session true)
        else session)
     = ClientSession.active_engine session
  /\ ClientSession.last_partial_text
       (if negb (ClientSession.first_audio_received session)
        then cancel_watchdog (set_first_audio_received session true)
        else session)
     = ClientSession.last_partial_text session
  /\ ClientSession.first_audio_received
       (if negb (ClientSession.first_audio_received session)
        then cancel_watchdog (set_first_audio_received session true)
        else session)
     = true
  /\ (ClientSession.first_audio_received session = false ->
      ClientSession.audio_watchdog_task
        (if negb (ClientSession.first_audio_received session)
         then cancel_watchdog (set_first_audio_received session true)
         else session)
      <> Some TaskPending).
Proof.
  destruct session as [rec ch tot cm lp ae am hd de wd fa]. simpl.
  destruct fa; simpl; [repeat split; intros; discriminate|].
  destruct wd as [[| |]|]; simpl; repeat split; intros; discriminate.
Qed.

Lemma cancel_watchdog_frame (session : ClientSession.t) :
  ClientSession.is_recording (cancel_watchdog session)
  = ClientSession.is_recording session
  /\ ClientSession.audio_chunks (cancel_watchdog session)
     = ClientSession.audio_chunks session
  /\ ClientSession.total_samples (cancel_watchdog session)
     = ClientSession.total_samples session
  /\ ClientSession.first_audio_received (cancel_watchdog session)
     = ClientSession.first_audio_received session.
Proof.
  destruct session as [rec ch tot cm lp ae am hd de wd fa].
  destruct wd as [[| |]|]; repeat split.
Qed.

Lemma handle_audio_overflow fv chunk now websocket session
    (w : t (engine := engine)) :
  ClientSession.is_recording session = true ->
  ClientSession.MAX_BUFFER_SAMPLES
  < ClientSession.total_samples session + py_len chunk ->
  handle_audio fv (Ok chunk) now websocket session w
  = Blocks
      (cancel_watchdog
         (if negb (ClientSession.first_audio_received session)
          then cancel_watchdog (set_first_audio_received session true)
          else session),
       send_error websocket "Recording too long (max 5 minutes). Stopping." w).
Proof.
  intros Hrec Hover.
  unfold handle_audio. rewrite Hrec. simpl negb. cbv iota.
  destruct (first_audio_noted session) as (_ & _ & Htot & _).
  revert Htot.
  generalize (if negb (ClientSession.first_audio_received session)
              then cancel_watchdog (set_first_audio_received session true)
              else session).
  intros s1 Htot. unfold ClientSession.add_audio. rewrite Htot.
  apply Z.ltb_lt in Hover. rewrite Hover. reflexivity.
Qed.

(** The leaves of the case analysis of [handle_audio]. *)
Ltac leaf :=
  repeat split; auto;
  try (intros [?|[?|?]]; discriminate);
  try (intros r' Hr'; simpl;
       match goal with
       | |- (if Nat.eqb ?a ?b then _ else _) = _ =>
           destruct (Nat.eqb_spec a b);
           [subst; exfalso; apply Hr'; reflexivity | reflexivity]
       end).

(** What [handle_audio] does with a chunk that fits. *)
Lemma handle_audio_fits fv chunk now websocket session
    (w : t (engine := engine)) :
  ClientSession.is_recording session = true ->
  ClientSession.total_samples session + py_len chunk
  <= ClientSession.MAX_BUFFER_SAMPLES ->
  exists session' w',
    handle_audio fv (Ok chunk) now websocket session w = Returns (session', w')
    /\ ClientSession.audio_chunks session'
       = ClientSession.audio_chunks session ++ [chunk]
    /\ ClientSession.total_samples session'
       = ClientSession.total_samples session + py_len chunk
    /\ ClientSession.is_recording session' = true
    /\ ClientSession.first_audio_received session' = true
    /\ (ClientSession.first_audio_received session = false ->
        ClientSession.audio_watchdog_task session' <> Some TaskPending)
    /\ engines w' = engines w
    /\ loaded_models w' = loaded_models w
    /\ (forall r',
          ClientSession.active_engine session <> Some r' ->
          heap w' r' = heap w r')
    /\ ((sent w' = sent w
         /\ ClientSession.last_partial_text session'
            = ClientSession.last_partial_text session)
        \/ (exists text,
              sent w'
              = sent w
                ++ [(websocket,
                     [("type", JStr "partial"); ("text", JStr text);
                      ("timestamp",
                       JInt (partial_timestamp fv
                               (ClientSession.total_samples session
                                + py_len chunk)))])]
              /\ text <> ""
              /\ text <> ClientSession.last_partial_text session
              /\ ClientSession.last_partial_text session' = text
              /\ ClientSession.continuous_mode session = true
              /\ partial_due fv (ClientSession.total_samples session
                                 + py_len chunk) = true))
    /\ (ClientSession.continuous_mode session = false
        \/ ClientSession.active_engine session = None
        \/ partial_due fv (ClientSession.total_samples session + py_len chunk)
           = false ->
        w' = w).
Proof.
  intros Hrec Hfit.
  unfold handle_audio. rewrite Hrec. simpl negb. cbv iota.
  destruct (first_audio_noted session)
    as (Hr1 & Hch & Htot & Hcm & Hae & Hlp & Hfa & Hwd).
  revert Hr1 Hch Htot Hcm Hae Hlp Hfa Hwd.
  generalize (if negb (ClientSession.first_audio_received session)
              then cancel_watchdog (set_first_audio_received session true)
              else session).
  intros s1 Hr1 Hch Htot Hcm Hae Hlp Hfa Hwd.
  unfold ClientSession.add_audio. rewrite Htot.
  apply Z.ltb_ge in Hfit. rewrite Hfit. simpl negb. cbv iota.
  cbn [ClientSession.continuous_mode ClientSession.active_engine
       ClientSession.total_samples ClientSession.set_audio
       ClientSession.last_partial_text].
  rewrite Hcm, Hae, Hlp, Hch.
  destruct (ClientSession.continuous_mode session) eqn:Ecm;
    [destruct (ClientSession.active_engine session) as [r|] eqn:Eae|].
  - destruct (partial_due fv _) eqn:Edue.
    + destruct (transcribe_incremental (heap w r) _) as [e [text|msg]].
      * destruct (str_truthy text) eqn:Et; simpl.
        -- destruct (String.eqb_spec text
                       (ClientSession.last_partial_text session)) as [Eq|Ne];
             simpl.
           ++ do 2 eexists. split; [reflexivity|]. simpl.
              rewrite Hr1, Hfa, Hlp, Hrec. leaf.
           ++ do 2 eexists. split; [reflexivity|]. simpl.
              rewrite Hr1, Hfa, Hrec. leaf.
              right. exists text. repeat split; auto.
              intros ->. discriminate.
        -- do 2 eexists. split; [reflexivity|]. simpl.
           rewrite Hr1, Hfa, Hlp, Hrec. leaf.
      * do 2 eexists. split; [reflexivity|]. simpl.
        rewrite Hr1, Hfa, Hlp, Hrec. leaf.
    + do 2 eexists. split; [reflexivity|]. simpl.
      rewrite Hr1, Hfa, Hlp, Hrec. leaf.
  - do 2 eexists. split; [reflexivity|]. simpl.
    rewrite Hr1, Hfa, Hlp, Hrec. leaf.
  - do 2 eexists. split; [reflexivity|]. simpl.
    rewrite Hr1, Hfa, Hlp, Hrec. leaf.
Qed.

(** X26.  [handle_audio] does not return exactly when the session is
    recording and the chunk does not fit in what is left of the 4 800 000
    samples: it has then sent the "Recording too long" error and waits in
    [handle_stop] for the session lock it holds itself.  The recording is
    not stopped: the session is still recording, with its buffer as it
    was, no final message is sent and no engine object is touched. *)
Theorem handle_audio_overflow_blocks (fv : FloatView)
    (decoded : outcome (list sample)) (now : Q) (websocket : nat)
    (session : ClientSession.t) (w : t (engine := engine)) :
  ((exists st, handle_audio fv decoded now websocket session w = Blocks st)
   <-> ClientSession.is_recording session = true
       /\ exists chunk,
            decoded = Ok chunk
            /\ ClientSession.MAX_BUFFER_SAMPLES
               < ClientSession.total_samples session + py_len chunk)
  /\ (forall st,
        handle_audio fv decoded now websocket session w = Blocks st ->
        sent (snd st)
        = sent w
          ++ [(websocket,
               [("type", JStr "error");
                ("message",
                 JStr "Recording too long (max 5 minutes). Stopping.")])]
        /\ heap (snd st) = heap w
        /\ ClientSession.is_recording (fst st) = true
        /\ ClientSession.audio_chunks (fst st)
           = ClientSession.audio_chunks session
        /\ ClientSession.total_samples (fst st)
           = ClientSession.total_samples session
        /\ ClientSession.first_audio_received (fst st) = true).
Proof.
  assert (Hcases :
    ClientSession.is_recording session = true
    /\ (exists chunk,
          decoded = Ok chunk
          /\ ClientSession.MAX_BUFFER_SAMPLES
             < ClientSession.total_samples session + py_len chunk)
    \/ exists st, handle_audio fv decoded now websocket session w = Returns st).
  { destruct (ClientSession.is_recording session) eqn:Hrec.
    - destruct decoded as [chunk|msg].
      + destruct (Z.lt_ge_cases ClientSession.MAX_BUFFER_SAMPLES
                    (ClientSession.total_samples session + py_len chunk))
          as [Hover|Hfit].
        * left. eauto.
        * right.
          destruct (handle_audio_fits fv chunk now websocket session w Hrec Hfit)
            as (s' & w' & E & _).
          eauto.
      + right. unfold handle_audio. rewrite Hrec. eauto.
    - right. unfold handle_audio. rewrite Hrec. eauto. }
  split.
  - split.
    + intros [st Hst]. destruct Hcases as [Hc|[st' Hst']]; [exact Hc|].
      rewrite Hst in Hst'. discriminate.
    + intros (Hrec & chunk & -> & Hover).
      rewrite (handle_audio_overflow fv chunk now websocket session w Hrec Hover).
      eauto.
  - intros st Hst. destruct Hcases as [(Hrec & chunk & -> & Hover)|[st' Hst']];
      [|rewrite Hst in Hst'; discriminate].
    rewrite (handle_audio_overflow fv chunk now websocket session w Hrec Hover)
      in Hst.
    injection Hst as <-. cbn [fst snd].
    destruct (first_audio_noted session) as (Hr1 & Hch & Htot & _ & _ & _ & Hfa & _).
    destruct (cancel_watchdog_frame
                (if negb (ClientSession.first_audio_received session)
                 then cancel_watchdog (set_first_audio_received session true)
                 else session)) as (-> & -> & -> & ->).
    rewrite Hr1, Hch, Htot, Hfa. repeat split. exact Hrec.
Qed.

(** X27.  [handle_audio] with a chunk that fits, on a recording session,
    returns with the chunk appended to the buffer and the first audio
    noted; when this is the first audio, a watchdog that was pending is no
    longer pending.  It sends
    at most one message, a partial result, and only in continuous mode
    when the pacing test passes and the engine's text is non-empty and
    differs from the last partial text sent, which it then replaces.  The
    pool is untouched and no engine object but the one the session is
    bound to can change; outside continuous mode, or without an engine,
    the server is exactly as it was. *)
Theorem handle_audio_accepts (fv : FloatView) (chunk : list sample) (now : Q)
    (websocket : nat) (session : ClientSession.t) (w : t (engine := engine)) :
  ClientSession.is_recording session = true ->
  ClientSession.total_samples session + py_len chunk
  <= ClientSession.MAX_BUFFER_SAMPLES ->
  exists session' w',
    handle_audio fv (Ok chunk) now websocket session w = Returns (session', w')
    /\ ClientSession.get_audio_array session'
       = ClientSession.get_audio_array session ++ chunk
    /\ ClientSession.total_samples session'
       = ClientSession.total_samples session + py_len chunk
    /\ ClientSession.is_recording session' = true
    /\ ClientSession.first_audio_received session' = true
    /\ (ClientSession.first_audio_received session = false ->
        ClientSession.audio_watchdog_task session' <> Some TaskPending)
    /\ engines w' = engines w
    /\ loaded_models w' = loaded_models w
    /\ (forall r',
          ClientSession.active_engine session <> Some r' ->
          heap w' r' = heap w r')
    /\ ((sent w' = sent w
         /\ ClientSession.last_partial_text session'
            = ClientSession.last_partial_text session)
        \/ (exists text,
              sent w'
              = sent w
                ++ [(websocket,
                     [("type", JStr "partial"); ("text", JStr text);
                      ("timestamp",
                       JInt (partial_timestamp fv
                               (ClientSession.total_samples session
                                + py_len chunk)))])]
              /\ text <> ""
              /\ text <> ClientSession.last_partial_text session
              /\ ClientSession.last_partial_text session' = text
              /\ ClientSession.continuous_mode session = true
              /\ partial_due fv (ClientSession.total_samples session
                                 + py_len chunk) = true))
    /\ (ClientSession.continuous_mode session = false
        \/ ClientSession.active_engine session = None
        \/ partial_due fv (ClientSession.total_samples session + py_len chunk)
           = false ->
        w' = w).
Proof.
  intros Hrec Hfit.
  destruct (handle_audio_fits fv chunk now websocket session w Hrec Hfit)
    as (s' & w' & E & Hch & Hrest).
  exists s', w'. split; [exact E|]. split; [|exact Hrest].
  rewrite !get_audio_array_concat, Hch, concat_app. simpl.
  rewrite app_nil_r. reflexivity.
Qed.

(** *** The watchdog *)

Lemma handle_audio_returns_noted fv decoded now websocket session
    (w : t (engine := engine)) st :
  ClientSession.is_recording session = true ->
  handle_audio fv decoded now websocket session w = Returns st ->
  ClientSession.first_audio_received (fst st) = true.
Proof.
  intros Hrec Hst. destruct decoded as [chunk|msg].
  - destruct (Z.lt_ge_cases ClientSession.MAX_BUFFER_SAMPLES
                (ClientSession.total_samples session + py_len chunk))
      as [Hover|Hfit].
    + rewrite (handle_audio_overflow fv chunk now websocket session w Hrec Hover)
        in Hst. discriminate.
    + destruct (handle_audio_fits fv chunk now websocket session w Hrec Hfit)
        as (s' & w' & E & _ & _ & _ & Hfa & _).
      rewrite E in Hst. injection Hst as <-. exact Hfa.
  - unfold handle_audio in Hst. rewrite Hrec in Hst. simpl in Hst.
    injection Hst as <-. apply first_audio_noted.
Qed.

(** X28.  The audio watchdog.  When it fires on a recording session that
    has received no audio, the client gets the error "no_audio_timeout" and
    nothing else: the recording is ended with an empty buffer,
    [end_session] is called on the bound engine, no final message is sent,
    and a stop that arrives later is answered with silence.  Once
    [handle_audio] has returned for a recording session, whatever the
    message held, the watchdog does nothing, cancelled or not; and it
    does nothing on a session that is not recording. *)
Theorem audio_watchdog_timeout (websocket : nat) (session : ClientSession.t)
    (w : t (engine := engine)) :
  (ClientSession.is_recording session = true ->
   ClientSession.first_audio_received session = false ->
   sent (snd (_audio_watchdog false websocket session w))
   = sent w
     ++ [(websocket,
          [("type", JStr "error"); ("message", JStr "no_audio_timeout")])]
   /\ calls (snd (_audio_watchdog false websocket session w))
      = calls w
        ++ match ClientSession.active_engine session with
           | Some r => [(r, CallEndSession)]
           | None => []
           end
   /\ ClientSession.is_recording (fst (_audio_watchdog false websocket session w))
      = false
   /\ ClientSession.audio_chunks (fst (_audio_watchdog false websocket session w))
      = []
   /\ ClientSession.total_samples (fst (_audio_watchdog false websocket session w))
      = 0
   /\ forall now websocket',
        snd (handle_stop now websocket'
               (fst (_audio_watchdog false websocket session w))
               (snd (_audio_watchdog false websocket session w)))
        = snd (_audio_watchdog false websocket session w))
  /\ (forall fv decoded now cancelled st,
        ClientSession.is_recording session = true ->
        handle_audio fv decoded now websocket session w = Returns st ->
        _audio_watchdog cancelled websocket (fst st) (snd st) = st)
  /\ (forall cancelled,
        ClientSession.is_recording session = false ->
        _audio_watchdog cancelled websocket session w = (session, w)).
Proof.
  split; [|split].
  - intros Hrec Hfa. unfold _audio_watchdog. rewrite Hrec, Hfa. simpl.
    destruct session as [rec ch tot cm lp ae am hd de wd fa]. simpl.
    destruct ae as [r|]; simpl; rewrite ?app_nil_r;
      (repeat split; try reflexivity);
      intros now websocket'; unfold handle_stop; simpl;
      destruct wd as [[| |]|]; reflexivity.
  - intros fv decoded now cancelled st Hrec Hst.
    pose proof (handle_audio_returns_noted fv decoded now websocket session w
                  st Hrec Hst) as Hfa.
    unfold _audio_watchdog. rewrite Hfa, andb_false_r.
    destruct cancelled, st; reflexivity.
  - intros cancelled Hrec. unfold _audio_watchdog. rewrite Hrec.
    destruct cancelled; reflexivity.
Qed.

(** *** Start *)

Lemma load_model_sent env model_id (w : t (engine := engine)) :
  sent (fst (load_model env model_id w)) = sent w.
Proof.
  unfold load_model. case_bool_decide; [reflexivity|]. lazy zeta.
  match goal with
  | |- context [match ?x with Ok _ => _ | Raise _ => _ end] =>
      destruct x as [e|m]
  end; reflexivity.
Qed.

Lemma start_load_sent env websocket requested_model (w : t (engine := engine)) :
  sent (fst (start_load env websocket requested_model w)) = sent w
  \/ (sent (fst (start_load env websocket requested_model w))
      = sent w ++ [(websocket, model_loaded requested_model)]
      /\ snd (start_load env websocket requested_model w) = None).
Proof.
  unfold start_load.
  destruct (dict_get requested_model (engines w)); [left; reflexivity|].
  pose proof (load_model_sent (first_attempt env) requested_model w) as H1.
  destruct (load_model (first_attempt env) requested_model w) as [w1 [[]|m1]];
    simpl in H1.
  - right. unfold send, set_sent. simpl. rewrite H1. split; reflexivity.
  - pose proof (load_model_sent (second_attempt env) requested_model w1) as H2.
    destruct (load_model (second_attempt env) requested_model w1)
      as [w2 [[]|m2]]; simpl in H2.
    + right. unfold send, set_sent. simpl. rewrite H2, H1. split; reflexivity.
    + left. simpl. rewrite H2, H1. reflexivity.
Qed.

(** X29.  [handle_start] ends in one of two ways.  Either the last message
    it sends is an error and the session is exactly as it was; or it is
    "recording_ready" for the requested model (the default model when the
    settings name none), and then the session is recording on an empty
    buffer, bound to the engine the pool holds for that model, which was
    loaded and has been sent [start_session]; no interval is marked done,
    no audio is marked received, a watchdog is pending, and diarization
    stays enabled only if it was asked for and, pyannote being available,
    the diarization engine is loaded.  Before that last message at most a
    "model_loaded" is sent. *)
Theorem handle_start_outcome (env : StartEnv (engine := engine))
    (websocket : nat) (session : ClientSession.t) (settings : Settings)
    (w : t (engine := engine)) :
  exists pre reply,
    sent (snd (handle_start env websocket session settings w))
    = sent w ++ pre ++ [(websocket, reply)]
    /\ (pre = []
        \/ pre = [(websocket,
                   model_loaded (default (default_model w) (st_model settings)))])
    /\ ((msg_get "type" reply = Some (JStr "error")
         /\ fst (handle_start env websocket session settings w) = session)
        \/ (reply = [("type", JStr "recording_ready");
                     ("model",
                      JStr (default (default_model w) (st_model settings)))]
            /\ exists r e,
                 dict_get (default (default_model w) (st_model settings))
                   (engines (snd (handle_start env websocket session settings w)))
                 = Some r
                 /\ is_loaded e = true
                 /\ heap (snd (handle_start env websocket session settings w)) r
                    = start_session e
                 /\ fst (handle_start env websocket session settings w)
                    = ClientSession.mk true [] 0 (st_continuous_mode settings) ""
                        (Some r)
                        (Some (default (default_model w) (st_model settings)))
                        false
                        (ClientSession.diarization_enabled
                           (fst (handle_start env websocket session settings w)))
                        (Some TaskPending) false
                 /\ (ClientSession.diarization_enabled
                       (fst (handle_start env websocket session settings w))
                     = true ->
                     st_enable_diarization settings = true
                     /\ (PYANNOTE_AVAILABLE env = true ->
                         exists d,
                           diarization_engine
                             (snd (handle_start env websocket session settings w))
                           = Some d
                           /\ dz_is_loaded d = true)))).
Proof.
  unfold handle_start.
  generalize (default (default_model w) (st_model settings)). intros m.
  pose proof (start_load_sent env websocket m w) as Hpre.
  destruct (start_load env websocket m w) as [w1 [msg|]]; cbn [fst snd] in Hpre.
  - destruct Hpre as [Hs|[_ Hn]]; [|discriminate].
    exists [], [("type", JStr "error");
                ("message",
                 JStr ("Model '" +:+ m
                       +:+ "' not available after 2 attempts: " +:+ msg))].
    unfold send_error, send, set_sent. cbn [fst snd sent]. rewrite Hs.
    split; [reflexivity|]. split; [auto|]. left. split; reflexivity.
  - assert (Hshape : exists pre,
              sent w1 = sent w ++ pre
              /\ (pre = [] \/ pre = [(websocket, model_loaded m)])).
    { destruct Hpre as [Hs|[Hs _]].
      - exists []. rewrite Hs, app_nil_r. auto.
      - exists [(websocket, model_loaded m)]. rewrite Hs. auto. }
    destruct Hshape as (pre & Hs & Hshape).
    destruct (dict_get m (engines w1)) as [r|] eqn:Eget.
    + destruct (is_loaded (heap w1 r)) eqn:El; simpl.
      * destruct (start_diarization env (st_enable_diarization settings)
                    (diarization_engine w1)) as [d en] eqn:Ed.
        exists pre. eexists.
        unfold send, set_sent, set_store, set_diarization_engine.
        cbn [fst snd sent]. rewrite Hs, <- app_assoc.
        split; [reflexivity|]. split; [exact Hshape|].
        right. split; [reflexivity|].
        exists r, (heap w1 r). simpl. rewrite Nat.eqb_refl.
        split; [exact Eget|]. split; [exact El|]. split; [reflexivity|].
        split; [reflexivity|].
        intros ->. unfold start_diarization in Ed.
        destruct (st_enable_diarization settings); simpl in Ed.
        -- split; [reflexivity|]. intros Hp. rewrite Hp in Ed.
           destruct (dz_is_loaded
                       (default (mkDiarizer false (fun _ => []))
                          (diarization_engine w1))) eqn:Edz; simpl in Ed.
           ++ injection Ed as <-. eexists. split; [reflexivity | exact Edz].
           ++ destruct (load_diarization env) as [pipeline|e0];
                [|discriminate].
              injection Ed as <-. eexists. split; reflexivity.
        -- destruct (PYANNOTE_AVAILABLE env); discriminate.
      * exists pre. eexists. unfold send_error, send, set_sent.
        cbn [fst snd sent]. rewrite Hs, <- app_assoc.
        split; [reflexivity|]. split; [exact Hshape|]. left.
        split; reflexivity.
    + exists pre. eexists. unfold send_error, send, set_sent.
      cbn [fst snd sent]. rewrite Hs, <- app_assoc.
      split; [reflexivity|]. split; [exact Hshape|]. left.
      split; reflexivity.
Qed.

(** *** An engine outside a session *)

(** [handle_audio] on an engine that answers the empty string whatever the
    audio, leaving the object as it is. *)
Lemma handle_audio_silent_engine fv chunk now websocket session
    (w : t (engine := engine)) :
  ClientSession.is_recording session = true ->
  ClientSession.total_samples session + py_len chunk
  <= ClientSession.MAX_BUFFER_SAMPLES ->
  (forall r audio,
     ClientSession.active_engine session = Some r ->
     transcribe_incremental (heap w r) audio = (heap w r, Ok "")) ->
  exists session' w',
    handle_audio fv (Ok chunk) now websocket session w = Returns (session', w')
    /\ sent w' = sent w
    /\ ClientSession.last_partial_text session'
       = ClientSession.last_partial_text session
    /\ (forall r', heap w' r' = heap w r').
Proof.
  intros Hrec Hfit Hsilent.
  unfold handle_audio. rewrite Hrec. simpl negb. cbv iota.
  destruct (first_audio_noted session)
    as (Hr1 & Hch & Htot & Hcm & Hae & Hlp & Hfa & Hwd).
  revert Hr1 Hch Htot Hcm Hae Hlp Hfa Hwd.
  generalize (if negb (ClientSession.first_audio_received session)
              then cancel_watchdog (set_first_audio_received session true)
              else session).
  intros s1 Hr1 Hch Htot Hcm Hae Hlp Hfa Hwd.
  unfold ClientSession.add_audio. rewrite Htot.
  apply Z.ltb_ge in Hfit. rewrite Hfit. simpl negb. cbv iota.
  cbn [ClientSession.continuous_mode ClientSession.active_engine
       ClientSession.total_samples ClientSession.set_audio
       ClientSession.last_partial_text].
  rewrite Hcm, Hae, Hlp.
  destruct (ClientSession.continuous_mode session);
    [destruct (ClientSession.active_engine session) as [r|] eqn:Eae|];
    try (do 2 eexists; split; [reflexivity|]; simpl; auto; fail).
  destruct (partial_due fv _);
    [|do 2 eexists; split; [reflexivity|]; simpl; auto].
  rewrite (Hsilent r _ eq_refl). simpl.
  do 2 eexists. split; [reflexivity|]. simpl.
  split; [reflexivity|]. split; [exact Hlp|].
  intros r'. destruct (Nat.eqb_spec r' r) as [->|_]; reflexivity.
Qed.

(** The engine a recording session is bound to has been sent
    [end_session] when [handle_stop] is done. *)
Lemma handle_stop_ends_session now websocket session
    (w : t (engine := engine)) r :
  ClientSession.is_recording session = true ->
  ClientSession.active_engine session = Some r ->
  exists e', heap (snd (handle_stop now websocket session w)) r = end_session e'.
Proof.
  intros Hrec Hr. destruct session as [rec ch tot cm lp ae am hd de wd fa].
  simpl in Hrec, Hr. subst rec ae.
  unfold handle_stop.
  destruct wd as [[| |]|]; simpl;
    (destruct (0 <? tot); simpl;
     [unfold call_transcribe_final;
      destruct (transcribe_final (heap w r) _) as [e [text|msg]]; simpl
     |]);
    rewrite ?heap_touch; simpl; rewrite Nat.eqb_refl; eauto.
Qed.

End HandlerFacts.

(** ** Sessions that share an engine *)

Section SharedEngineFacts.

Import MuteServer MuteServerHandlers.

Lemma ended_session_is_silent (e : RealEngine) (audio : list sample) :
  transcribe_incremental (end_session e) audio = (end_session e, Ok "")
  /\ session_active (end_session e) = false
  /\ last_transcription (end_session e) = "".
Proof.
  destruct e as [a|a]; simpl.
  - unfold ASREngine.transcribe_incremental. simpl.
    rewrite orb_true_r. repeat split.
  - unfold WhisperEngine.transcribe_incremental. simpl.
    rewrite orb_true_r. repeat split.
Qed.

(** X30.  The engine of a model is one object shared by every session
    that uses the model, and a stop ends its session for all of them.
    When a client stops a recording, another client that is recording with
    the same model gets no partial result for the audio it sends next,
    whatever the audio: its chunk is buffered, nothing is sent, and the
    engine stays outside a session with no partial transcription. *)
Theorem stop_silences_other_session (fv : FloatView) (chunk : list sample)
    (now now' : Q) (websocket_a websocket_b : nat)
    (session_a session_b : ClientSession.t)
    (w : t (engine := RealEngine)) (r : nat) :
  ClientSession.is_recording session_b = true ->
  ClientSession.active_engine session_b = Some r ->
  ClientSession.is_recording session_a = true ->
  ClientSession.active_engine session_a = Some r ->
  ClientSession.total_samples session_a + py_len chunk
  <= ClientSession.MAX_BUFFER_SAMPLES ->
  exists session_a' w',
    handle_audio fv (Ok chunk) now' websocket_a session_a
      (snd (handle_stop now websocket_b session_b w))
    = Returns (session_a', w')
    /\ sent w' = sent (snd (handle_stop now websocket_b session_b w))
    /\ ClientSession.get_audio_array session_a'
       = ClientSession.get_audio_array session_a ++ chunk
    /\ ClientSession.last_partial_text session_a'
       = ClientSession.last_partial_text session_a
    /\ session_active (heap w' r) = false
    /\ last_transcription (heap w' r) = "".
Proof.
  intros Hrecb Hrb Hreca Hra Hfit.
  destruct (handle_stop_ends_session now websocket_b session_b w r Hrecb Hrb)
    as [e' He'].
  destruct (handle_audio_silent_engine fv chunk now' websocket_a session_a
              (snd (handle_stop now websocket_b session_b w)) Hreca Hfit)
    as (sa' & w' & E & Hsent & Hlp & Hheap).
  { intros r0 audio Hr0. rewrite Hra in Hr0. injection Hr0 as <-.
    rewrite He'. apply ended_session_is_silent. }
  destruct (handle_audio_fits fv chunk now' websocket_a session_a
              (snd (handle_stop now websocket_b session_b w)) Hreca Hfit)
    as (sa2 & w2 & E2 & Hch & _).
  rewrite E in E2. injection E2 as <- <-.
  exists sa', w'. split; [exact E|]. split; [exact Hsent|].
  split.
  { rewrite !get_audio_array_concat, Hch, concat_app. simpl.
    rewrite app_nil_r. reflexivity. }
  split; [exact Hlp|].
  rewrite Hheap, He'. split; apply (ended_session_is_silent e' []).
Qed.

End SharedEngineFacts.

(** ** Further examples on the engine doubles *)

Section FurtherExamples.

Import MuteServer MuteServerHandlers.

(** A stop on the example session, whose engine is the one "base" was
    loaded into. *)
Lemma handle_stop_always_ends_witness :
  ClientSession.is_recording
    (fst (handle_stop 0 7 example_session example_server_1)) = false
  /\ ClientSession.total_samples
       (fst (handle_stop 0 7 example_session example_server_1)) = 0.
Proof.
  destruct (handle_stop_always_ends 0 7 example_session example_server_1
              eq_refl) as (H1 & _ & H3 & _).
  split; [exact H1 | exact H3].
Defined.

(** An engine whose final text is empty and whose last partial text is
    "partial": the final message carries the partial text. *)
Lemma handle_stop_final_text_witness :
  sent (snd (handle_stop 0 7 example_session
               (init (fun _ => mkScripted true "partial" "" None))))
  = [(7%nat, [("type", JStr "final"); ("text", JStr "partial");
              ("timestamp", JInt 0); ("model", JStr "base")])].
Proof.
  destruct (@handle_stop_final_text ScriptedEngine scripted_engine
              0 7%nat example_session
              (init (fun _ => mkScripted true "partial" "" None)) 0%nat
              (mkScripted true "partial" "" None) (Ok "")
              eq_refl eq_refl eq_refl eq_refl) as [[Hsent _] _].
  exact Hsent.
Defined.

(** Two requests on 3 s of audio: the first leaves 2 s of context. *)
Lemma interval_then_interval_witness :
  ClientSession.total_samples
    (fst (handle_transcribe_interval 0 7 example_session
            (init (fun _ => mkScripted true "" "" (Some example_words)))))
  = 32000.
Proof.
  destruct (interval_then_interval 0 1 7 example_session
              (init (fun _ => mkScripted true "" "" (Some example_words)))
              0%nat
              ltac:(vm_compute; reflexivity) eq_refl eq_refl
              ltac:(vm_compute; discriminate)
              ltac:(vm_compute; reflexivity)) as (_ & Htot & _).
  exact Htot.
Defined.

(** A request the failing engine raises on leaves the session as it was. *)
Lemma interval_engine_failure_witness :
  fst (handle_transcribe_interval 0 7 example_session
         (init (fun _ => Failing)))
  = example_session.
Proof.
  destruct (@interval_engine_failure FailingEngine failing_engine
              0 7%nat example_session
              (init (fun _ => Failing)) 0%nat "engine failure"
              eq_refl eq_refl ltac:(vm_compute; discriminate) eq_refl)
    as (Hs & _).
  exact Hs.
Defined.

Lemma reachable_pool_shape_witness : pool_inv example_server_3.
Proof. exact (reachable_pool_shape example_server_3 example_server_3_reachable). Defined.

(** Loading "base" into the fresh server and unloading it: the pool is
    empty again, and the default model is left naming "base". *)
Lemma load_then_unload_witness :
  engines (_unload_model "base"
             (fst (load_model example_env "base" example_server_0)))
  = engines example_server_0
  /\ default_model (_unload_model "base"
                      (fst (load_model example_env "base" example_server_0)))
     = "base".
Proof.
  destruct (load_then_unload example_env "base" example_server_0
              scripted_unload_never_raises eq_refl
              ltac:(apply not_elem_of_empty)
              ltac:(vm_compute; reflexivity)) as (He & _ & _ & _ & Hd).
  split; [exact He | exact (Hd eq_refl eq_refl)].
Defined.

Lemma handle_clear_cache_effects_witness :
  loaded_models (fst (handle_clear_cache true 7 example_server_1))
  = loaded_models example_server_1 ∖ {["parakeet"]}.
Proof.
  destruct (handle_clear_cache_effects true 7 example_server_1
              scripted_unload_never_raises
              ltac:(vm_compute; reflexivity)) as (_ & Hl & _).
  exact Hl.
Defined.

(** Unloading "base" on the idle server tells its one client, 7. *)
Lemma unload_model_notifies_witness :
  sent (_unload_model "base" example_idle_server)
  = [(7%nat, [("type", JStr "model_unloaded"); ("model", JStr "base")])].
Proof.
  destruct (unload_model_notifies "base" 0%nat example_idle_server eq_refl)
    as [Hs _].
  exact Hs.
Defined.

(** The pass at time 100000 on the idle server evicts "large-v3-turbo"
    only, and tells client 7. *)
Lemma keep_warm_tick_notifies_witness :
  sent (keep_warm_tick 100000 example_idle_server)
  = [(7%nat, [("type", JStr "model_unloaded");
              ("model", JStr "large-v3-turbo")])].
Proof.
  rewrite (keep_warm_tick_notifies 100000 example_idle_server
             eq_refl eq_refl ltac:(discriminate)).
  vm_compute. reflexivity.
Defined.

(** *** On the real engines *)

(** A stop on 3 s of audio with the Whisper engine of the example. *)
Lemma real_engine_stop_is_final_witness :
  exists text,
    sent (snd (handle_stop 0 7 example_session example_real_server))
    = [(7%nat, [("type", JStr "final"); ("text", JStr text);
                ("timestamp", JInt 0); ("model", JStr "base")])].
Proof.
  destruct (real_engine_stop_is_final 0 7 example_session example_real_server
              0%nat eq_refl eq_refl eq_refl) as (text & Hs & _).
  exists text. exact Hs.
Defined.

(** A later interval on 3 s of audio with the Parakeet engine of the
    example: the text is that of the whole buffer. *)
Lemma parakeet_interval_whole_buffer_witness :
  sent (snd (handle_transcribe_interval 0 7
               (ClientSession.mk true [repeat 0%Q (Z.to_nat 48000)] 48000 false
                  "" (Some 1%nat) (Some "parakeet") true true None true)
               example_real_server))
  = [(7%nat, [("type", JStr "interval_transcription"); ("text", JStr "hi");
              ("speakers", JStrs []); ("is_final", JBool false)])].
Proof.
  destruct (parakeet_interval_whole_buffer 0 7
              (ClientSession.mk true [repeat 0%Q (Z.to_nat 48000)] 48000 false
                 "" (Some 1%nat) (Some "parakeet") true true None true)
              example_real_server 1%nat example_parakeet (fun _ => "hi")
              ltac:(vm_compute; reflexivity) eq_refl eq_refl
              ltac:(vm_compute; discriminate) eq_refl eq_refl eq_refl)
    as [Hs _].
  exact Hs.
Defined.

(** A request to load "base" on the fresh server is answered once. *)
Lemma handle_load_model_reply_witness :
  exists msg,
    sent (handle_load_model example_env 7 "base" example_server_0)
    = [(7%nat, msg)].
Proof.
  destruct (handle_load_model_reply example_env 7 "base" example_server_0
              ltac:(intros m Hm; exfalso; exact (not_elem_of_empty m Hm)))
    as (msg & Hs & _).
  exists msg. exact Hs.
Defined.

(** Two more samples on the example session. *)
Lemma handle_audio_accepts_witness :
  exists session' w',
    handle_audio example_float_view (Ok [0%Q; 0%Q]) 0 7 example_session
      example_real_server
    = Returns (session', w')
    /\ ClientSession.total_samples session' = 48002.
Proof.
  destruct (handle_audio_accepts example_float_view [0%Q; 0%Q] 0 7
              example_session example_real_server
              eq_refl ltac:(vm_compute; discriminate))
    as (s' & w' & E & _ & Htot & _).
  exists s', w'. split; [exact E | exact Htot].
Defined.

(** Client 8 records in continuous mode on "base" while client 7 stops the
    example session, also on "base". *)
Lemma stop_silences_other_session_witness :
  exists session_a' w',
    handle_audio example_float_view (Ok [0%Q; 0%Q]) 1 8
      (ClientSession.mk true [] 0 true "" (Some 0%nat) (Some "base") false
         false None true)
      (snd (handle_stop 0 7 example_session example_real_server))
    = Returns (session_a', w')
    /\ sent w' = sent (snd (handle_stop 0 7 example_session example_real_server)).
Proof.
  destruct (stop_silences_other_session example_float_view [0%Q; 0%Q] 0 1 8 7
              (ClientSession.mk true [] 0 true "" (Some 0%nat) (Some "base")
                 false false None true)
              example_session example_real_server 0%nat
              eq_refl eq_refl eq_refl eq_refl ltac:(vm_compute; discriminate))
    as (s' & w' & E & Hs & _).
  exists s', w'. split; [exact E | exact Hs].
Defined.

(** A session that holds the full 4 800 000 samples: one more sample and
    [handle_audio] does not return. *)
Lemma handle_audio_overflow_blocks_witness :
  exists st,
    handle_audio example_float_view (Ok [0%Q]) 0 7
      (ClientSession.mk true [repeat 0%Q (Z.to_nat 4800000)] 4800000 false ""
         (Some 0%nat) (Some "base") false false None true)
      example_real_server
    = Blocks st.
Proof.
  apply (proj2 (proj1 (handle_audio_overflow_blocks example_float_view
                         (Ok [0%Q]) 0 7
                         (ClientSession.mk true
                            [repeat 0%Q (Z.to_nat 4800000)] 4800000 false ""
                            (Some 0%nat) (Some "base") false false None true)
                         example_real_server))).
  split; [reflexivity|]. exists [0%Q]. split; reflexivity.
Defined.

(** *** The context the server keeps *)


End FurtherExamples.
